(** * A fly-camera OpenGL scene: the camera callbacks and the SceneManager

    Shallow embedding of [Source/MainCode.cpp]: the camera globals with the
    GLFW callbacks ([processInput], [mouse_callback], [scroll_callback]), the
    main loop, and the [SceneManager] methods that load textures and issue the
    per-object transform / texture / draw calls.

    Numbers.  The program's [float] and [double] values are modelled by real
    numbers: [cos], [sin], [sqrt] are the real functions and arithmetic is
    exact.  Rounding, infinities and NaN are outside the model, and so is
    the narrowing of the [double] cursor position and scroll offsets to
    [float].  An equality between real expressions below is a statement
    about the formula the code evaluates, not about its rounded value.

    Effects.  Calls that leave the translation unit (ShaderManager,
    ShapeMeshes, OpenGL, stb_image, GLFW) are recorded, in order, as a list
    of [call]s.  Console output is not recorded. *)

From Stdlib Require Import Reals Lra Lia List String ZArith Bool.
Import ListNotations.

Local Open Scope R_scope.

(** ** GLM: the vector and matrix functions the program calls *)

Module glm.

Record vec2 := Vec2 { u2 : R; v2 : R }.
Record vec3 := Vec3 { x : R; y : R; z : R }.
Record vec4 := Vec4 { x4 : R; y4 : R; z4 : R; w4 : R }.

(** [mat4] is column-major: [m[i]] is the i-th column. *)
Record mat4 := Mat4 { c0 : vec4; c1 : vec4; c2 : vec4; c3 : vec4 }.

Definition add3 (a b : vec3) : vec3 := Vec3 (x a + x b) (y a + y b) (z a + z b).
Definition sub3 (a b : vec3) : vec3 := Vec3 (x a - x b) (y a - y b) (z a - z b).
Definition scale3 (a : vec3) (s : R) : vec3 := Vec3 (x a * s) (y a * s) (z a * s).
Definition smul3 (s : R) (a : vec3) : vec3 := Vec3 (s * x a) (s * y a) (s * z a).

Definition add4 (a b : vec4) : vec4 :=
  Vec4 (x4 a + x4 b) (y4 a + y4 b) (z4 a + z4 b) (w4 a + w4 b).
Definition scale4 (a : vec4) (s : R) : vec4 :=
  Vec4 (x4 a * s) (y4 a * s) (z4 a * s) (w4 a * s).

(** [glm::dot], [glm::cross], [glm::length], [glm::inversesqrt],
    [glm::normalize]. *)
Definition dot (a b : vec3) : R := x a * x b + y a * y b + z a * z b.

Definition cross (a b : vec3) : vec3 :=
  Vec3 (y a * z b - y b * z a)
       (z a * x b - z b * x a)
       (x a * y b - x b * y a).

Definition length (a : vec3) : R := sqrt (dot a a).

Definition inversesqrt (r : R) : R := 1 / sqrt r.

Definition normalize (a : vec3) : vec3 := scale3 a (inversesqrt (dot a a)).

(** [glm::radians]: degrees times pi/180. *)
Definition radians (degrees : R) : R := degrees * (PI / 180).

(** [glm::min], [glm::max], [glm::clamp] on scalars. *)
Definition min (a b : R) : R := if Rlt_dec b a then b else a.
Definition max (a b : R) : R := if Rlt_dec a b then b else a.
Definition clamp (v minVal maxVal : R) : R := min (max v minVal) maxVal.

(** [mat4(1.0f)] *)
Definition identity : mat4 :=
  Mat4 (Vec4 1 0 0 0) (Vec4 0 1 0 0) (Vec4 0 0 1 0) (Vec4 0 0 0 1).

(** [mat4 * vec4]: the columns of [m] weighted by the components of [v]. *)
Definition mulv (m : mat4) (v : vec4) : vec4 :=
  add4 (add4 (scale4 (c0 m) (x4 v)) (scale4 (c1 m) (y4 v)))
       (add4 (scale4 (c2 m) (z4 v)) (scale4 (c3 m) (w4 v))).

(** [mat4 * mat4]: column [j] of the product is [m1] applied to column
    [j] of [m2]. *)
Definition mul_col (m1 : mat4) (c : vec4) : vec4 :=
  add4 (add4 (add4 (scale4 (c0 m1) (x4 c)) (scale4 (c1 m1) (y4 c)))
             (scale4 (c2 m1) (z4 c)))
       (scale4 (c3 m1) (w4 c)).

Definition mul (m1 m2 : mat4) : mat4 :=
  Mat4 (mul_col m1 (c0 m2)) (mul_col m1 (c1 m2))
       (mul_col m1 (c2 m2)) (mul_col m1 (c3 m2)).

(** [glm::translate(m, v)] and the one-argument form of gtx/transform. *)
Definition translate_m (m : mat4) (v : vec3) : mat4 :=
  Mat4 (c0 m) (c1 m) (c2 m)
       (add4 (add4 (add4 (scale4 (c0 m) (x v)) (scale4 (c1 m) (y v)))
                   (scale4 (c2 m) (z v)))
             (c3 m)).

Definition translate (v : vec3) : mat4 := translate_m identity v.

(** [glm::scale(m, v)] and its one-argument form. *)
Definition scale_m (m : mat4) (v : vec3) : mat4 :=
  Mat4 (scale4 (c0 m) (x v)) (scale4 (c1 m) (y v)) (scale4 (c2 m) (z v)) (c3 m).

Definition scale (v : vec3) : mat4 := scale_m identity v.

(** [glm::rotate(m, angle, axis)] and its two-argument form. *)
Definition rotate_m (m : mat4) (angle : R) (v : vec3) : mat4 :=
  let c := cos angle in
  let s := sin angle in
  let axis := normalize v in
  let temp := smul3 (1 - c) axis in
  let r00 := c + x temp * x axis in
  let r01 := x temp * y axis + s * z axis in
  let r02 := x temp * z axis - s * y axis in
  let r10 := y temp * x axis - s * z axis in
  let r11 := c + y temp * y axis in
  let r12 := y temp * z axis + s * x axis in
  let r20 := z temp * x axis + s * y axis in
  let r21 := z temp * y axis - s * x axis in
  let r22 := c + z temp * z axis in
  Mat4 (add4 (add4 (scale4 (c0 m) r00) (scale4 (c1 m) r01)) (scale4 (c2 m) r02))
       (add4 (add4 (scale4 (c0 m) r10) (scale4 (c1 m) r11)) (scale4 (c2 m) r12))
       (add4 (add4 (scale4 (c0 m) r20) (scale4 (c1 m) r21)) (scale4 (c2 m) r22))
       (c3 m).

Definition rotate (angle : R) (v : vec3) : mat4 := rotate_m identity angle v.

(** [glm::lookAt] (right-handed). *)
Definition lookAt (eye center up : vec3) : mat4 :=
  let f := normalize (sub3 center eye) in
  let s := normalize (cross f up) in
  let u := cross s f in
  Mat4 (Vec4 (x s) (x u) (- x f) 0)
       (Vec4 (y s) (y u) (- y f) 0)
       (Vec4 (z s) (z u) (- z f) 0)
       (Vec4 (- dot s eye) (- dot u eye) (dot f eye) 1).

(** [glm::ortho] with near and far planes (right-handed, depth -1..1). *)
Definition ortho (left right bottom top zNear zFar : R) : mat4 :=
  Mat4 (Vec4 (2 / (right - left)) 0 0 0)
       (Vec4 0 (2 / (top - bottom)) 0 0)
       (Vec4 0 0 (- (2 / (zFar - zNear))) 0)
       (Vec4 (- ((right + left) / (right - left)))
             (- ((top + bottom) / (top - bottom)))
             (- ((zFar + zNear) / (zFar - zNear)))
             1).

(** [glm::perspective] (right-handed, depth -1..1). *)
Definition perspective (fovy aspect zNear zFar : R) : mat4 :=
  let tanHalfFovy := tan (fovy / 2) in
  Mat4 (Vec4 (1 / (aspect * tanHalfFovy)) 0 0 0)
       (Vec4 0 (1 / tanHalfFovy) 0 0)
       (Vec4 0 0 (- ((zFar + zNear) / (zFar - zNear))) (-1))
       (Vec4 0 0 (- ((2 * zFar * zNear) / (zFar - zNear))) 0).

End glm.

Import glm.

Declare Scope glm_scope.
Delimit Scope glm_scope with glm.
Infix "+v" := add3 (at level 50, left associativity) : glm_scope.
Infix "-v" := sub3 (at level 50, left associativity) : glm_scope.
Infix "*s" := scale3 (at level 40, left associativity) : glm_scope.
Infix "*m" := mul (at level 40, left associativity) : glm_scope.
Local Open Scope glm_scope.

(** ** The camera globals *)

Record Globals := mkGlobals {
  cameraPos : vec3;
  cameraFront : vec3;
  cameraUp : vec3;
  yaw : R;
  pitch : R;
  lastX : R;
  lastY : R;
  firstMouse : bool;
  deltaTime : R;
  lastFrame : R;
  movementSpeed : R;
  fov : R;
  useOrtho : bool;
  (** the function-local [static bool pKeyPressed] of [processInput] *)
  pKeyPressed : bool;
  (** the close flag of [g_Window], set by [glfwSetWindowShouldClose] *)
  windowShouldClose : bool
}.

(** The initialisers of the globals. *)
Definition initial_globals : Globals :=
  {| cameraPos := Vec3 0 2 10;
     cameraFront := Vec3 0 0 (-1);
     cameraUp := Vec3 0 1 0;
     yaw := -90;
     pitch := 0;
     lastX := 400;
     lastY := 300;
     firstMouse := true;
     deltaTime := 0;
     lastFrame := 0;
     movementSpeed := 4;
     fov := 45;
     useOrtho := false;
     pKeyPressed := false;
     windowShouldClose := false |}.

Definition set_cameraPos (v : vec3) (g : Globals) : Globals :=
  mkGlobals v (cameraFront g) (cameraUp g) (yaw g) (pitch g) (lastX g) (lastY g)
    (firstMouse g) (deltaTime g) (lastFrame g) (movementSpeed g) (fov g)
    (useOrtho g) (pKeyPressed g) (windowShouldClose g).

Definition set_cameraFront (v : vec3) (g : Globals) : Globals :=
  mkGlobals (cameraPos g) v (cameraUp g) (yaw g) (pitch g) (lastX g) (lastY g)
    (firstMouse g) (deltaTime g) (lastFrame g) (movementSpeed g) (fov g)
    (useOrtho g) (pKeyPressed g) (windowShouldClose g).

Definition set_yaw (r : R) (g : Globals) : Globals :=
  mkGlobals (cameraPos g) (cameraFront g) (cameraUp g) r (pitch g) (lastX g) (lastY g)
    (firstMouse g) (deltaTime g) (lastFrame g) (movementSpeed g) (fov g)
    (useOrtho g) (pKeyPressed g) (windowShouldClose g).

Definition set_pitch (r : R) (g : Globals) : Globals :=
  mkGlobals (cameraPos g) (cameraFront g) (cameraUp g) (yaw g) r (lastX g) (lastY g)
    (firstMouse g) (deltaTime g) (lastFrame g) (movementSpeed g) (fov g)
    (useOrtho g) (pKeyPressed g) (windowShouldClose g).

Definition set_lastX (r : R) (g : Globals) : Globals :=
  mkGlobals (cameraPos g) (cameraFront g) (cameraUp g) (yaw g) (pitch g) r (lastY g)
    (firstMouse g) (deltaTime g) (lastFrame g) (movementSpeed g) (fov g)
    (useOrtho g) (pKeyPressed g) (windowShouldClose g).

Definition set_lastY (r : R) (g : Globals) : Globals :=
  mkGlobals (cameraPos g) (cameraFront g) (cameraUp g) (yaw g) (pitch g) (lastX g) r
    (firstMouse g) (deltaTime g) (lastFrame g) (movementSpeed g) (fov g)
    (useOrtho g) (pKeyPressed g) (windowShouldClose g).

Definition set_firstMouse (b : bool) (g : Globals) : Globals :=
  mkGlobals (cameraPos g) (cameraFront g) (cameraUp g) (yaw g) (pitch g) (lastX g) (lastY g)
    b (deltaTime g) (lastFrame g) (movementSpeed g) (fov g)
    (useOrtho g) (pKeyPressed g) (windowShouldClose g).

Definition set_deltaTime (r : R) (g : Globals) : Globals :=
  mkGlobals (cameraPos g) (cameraFront g) (cameraUp g) (yaw g) (pitch g) (lastX g) (lastY g)
    (firstMouse g) r (lastFrame g) (movementSpeed g) (fov g)
    (useOrtho g) (pKeyPressed g) (windowShouldClose g).

Definition set_lastFrame (r : R) (g : Globals) : Globals :=
  mkGlobals (cameraPos g) (cameraFront g) (cameraUp g) (yaw g) (pitch g) (lastX g) (lastY g)
    (firstMouse g) (deltaTime g) r (movementSpeed g) (fov g)
    (useOrtho g) (pKeyPressed g) (windowShouldClose g).

Definition set_movementSpeed (r : R) (g : Globals) : Globals :=
  mkGlobals (cameraPos g) (cameraFront g) (cameraUp g) (yaw g) (pitch g) (lastX g) (lastY g)
    (firstMouse g) (deltaTime g) (lastFrame g) r (fov g)
    (useOrtho g) (pKeyPressed g) (windowShouldClose g).

Definition set_fov (r : R) (g : Globals) : Globals :=
  mkGlobals (cameraPos g) (cameraFront g) (cameraUp g) (yaw g) (pitch g) (lastX g) (lastY g)
    (firstMouse g) (deltaTime g) (lastFrame g) (movementSpeed g) r
    (useOrtho g) (pKeyPressed g) (windowShouldClose g).

Definition set_useOrtho (b : bool) (g : Globals) : Globals :=
  mkGlobals (cameraPos g) (cameraFront g) (cameraUp g) (yaw g) (pitch g) (lastX g) (lastY g)
    (firstMouse g) (deltaTime g) (lastFrame g) (movementSpeed g) (fov g)
    b (pKeyPressed g) (windowShouldClose g).

Definition set_pKeyPressed (b : bool) (g : Globals) : Globals :=
  mkGlobals (cameraPos g) (cameraFront g) (cameraUp g) (yaw g) (pitch g) (lastX g) (lastY g)
    (firstMouse g) (deltaTime g) (lastFrame g) (movementSpeed g) (fov g)
    (useOrtho g) b (windowShouldClose g).

Definition set_windowShouldClose (b : bool) (g : Globals) : Globals :=
  mkGlobals (cameraPos g) (cameraFront g) (cameraUp g) (yaw g) (pitch g) (lastX g) (lastY g)
    (firstMouse g) (deltaTime g) (lastFrame g) (movementSpeed g) (fov g)
    (useOrtho g) (pKeyPressed g) b.

(** ** Keyboard input *)

(** The keys [processInput] polls. *)
Inductive key :=
| GLFW_KEY_ESCAPE | GLFW_KEY_W | GLFW_KEY_S | GLFW_KEY_A | GLFW_KEY_D
| GLFW_KEY_Q | GLFW_KEY_E | GLFW_KEY_P.

(** The two states [glfwGetKey] reports. *)
Inductive key_state := GLFW_RELEASE | GLFW_PRESS.

Definition is_press (a : key_state) : bool :=
  match a with GLFW_PRESS => true | GLFW_RELEASE => false end.

Definition is_release (a : key_state) : bool :=
  match a with GLFW_RELEASE => true | GLFW_PRESS => false end.

(** [if (cond) body;] as a statement on the globals. *)
Definition when (cond : Globals -> bool) (body : Globals -> Globals) (g : Globals)
  : Globals :=
  if cond g then body g else g.

(** [processInput]; [glfwGetKey] is the key table of the window for the
    current frame. *)
Definition processInput (glfwGetKey : key -> key_state) (g : Globals) : Globals :=
  let pressed (k : key) (_ : Globals) := is_press (glfwGetKey k) in
  let released (k : key) (_ : Globals) := is_release (glfwGetKey k) in
  let speed := movementSpeed g * deltaTime g in
  let g := when (pressed GLFW_KEY_ESCAPE) (set_windowShouldClose true) g in
  let g := when (pressed GLFW_KEY_W)
             (fun g => set_cameraPos (cameraPos g +v cameraFront g *s speed) g) g in
  let g := when (pressed GLFW_KEY_S)
             (fun g => set_cameraPos (cameraPos g -v cameraFront g *s speed) g) g in
  let g := when (pressed GLFW_KEY_A)
             (fun g => set_cameraPos
                (cameraPos g -v normalize (cross (cameraFront g) (cameraUp g)) *s speed)
                g) g in
  let g := when (pressed GLFW_KEY_D)
             (fun g => set_cameraPos
                (cameraPos g +v normalize (cross (cameraFront g) (cameraUp g)) *s speed)
                g) g in
  let g := when (pressed GLFW_KEY_Q)
             (fun g => set_cameraPos
                (Vec3 (x (cameraPos g)) (y (cameraPos g) + speed) (z (cameraPos g)))
                g) g in
  let g := when (pressed GLFW_KEY_E)
             (fun g => set_cameraPos
                (Vec3 (x (cameraPos g)) (y (cameraPos g) - speed) (z (cameraPos g)))
                g) g in
  (* toggle the projection *)
  let g := when (fun g => is_press (glfwGetKey GLFW_KEY_P) && negb (pKeyPressed g))
             (fun g => set_pKeyPressed true (set_useOrtho (negb (useOrtho g)) g)) g in
  let g := when (released GLFW_KEY_P) (set_pKeyPressed false) g in
  g.

(** ** Mouse and scroll callbacks *)

(** The Euler-angle look direction, angles in degrees. *)
Definition look_direction (yaw_deg pitch_deg : R) : vec3 :=
  Vec3 (cos (radians yaw_deg) * cos (radians pitch_deg))
       (sin (radians pitch_deg))
       (sin (radians yaw_deg) * cos (radians pitch_deg)).

Definition mouse_callback (xpos ypos : R) (g : Globals) : Globals :=
  let g := if firstMouse g
           then set_firstMouse false (set_lastY ypos (set_lastX xpos g))
           else g in
  let xoffset := xpos - lastX g in
  let yoffset := lastY g - ypos in
  let g := set_lastX xpos g in
  let g := set_lastY ypos g in
  let sensitivity := 0.12 in
  let xoffset := xoffset * sensitivity in
  let yoffset := yoffset * sensitivity in
  let g := set_yaw (yaw g + xoffset) g in
  let g := set_pitch (pitch g + yoffset) g in
  let g := if Rlt_dec 89 (pitch g) then set_pitch 89 g else g in
  let g := if Rlt_dec (pitch g) (-89) then set_pitch (-89) g else g in
  let dir := look_direction (yaw g) (pitch g) in
  set_cameraFront (normalize dir) g.

Definition scroll_callback (xoffset yoffset : R) (g : Globals) : Globals :=
  let g := set_movementSpeed (movementSpeed g + yoffset * 0.25) g in
  let g := set_movementSpeed (clamp (movementSpeed g) 0.5 10) g in
  let g := set_fov (fov g - yoffset) g in
  let g := set_fov (clamp (fov g) 1 45) g in
  g.

(** A callback [glfwPollEvents] delivers. *)
Inductive callback :=
| CursorPos (xpos ypos : R)
| ScrollWheel (xoffset yoffset : R).

Definition deliver (g : Globals) (c : callback) : Globals :=
  match c with
  | CursorPos xpos ypos => mouse_callback xpos ypos g
  | ScrollWheel xoffset yoffset => scroll_callback xoffset yoffset g
  end.

(** The head of the loop body: the frame clock, then [processInput]. *)
Definition begin_frame (currentFrame : R) (glfwGetKey : key -> key_state)
  (g : Globals) : Globals :=
  let g := set_deltaTime (currentFrame - lastFrame g) g in
  let g := set_lastFrame currentFrame g in
  processInput glfwGetKey g.

(** Everything that writes the globals: the head of a loop iteration, with
    the clock and the key table it samples, or a delivered callback. *)
Inductive event :=
| Tick (currentFrame : R) (glfwGetKey : key -> key_state)
| Callback (c : callback).

Definition step (g : Globals) (e : event) : Globals :=
  match e with
  | Tick t k => begin_frame t k g
  | Callback c => deliver g c
  end.

Definition run (g : Globals) (es : list event) : Globals := fold_left step es g.

(** Rising edges of the P key over the sampled frames: a frame where P is
    down and the latch is open. *)
Fixpoint presses (latched : bool) (ps : list key_state) : nat :=
  match ps with
  | [] => 0%nat
  | GLFW_PRESS :: ps' => ((if latched then 0 else 1) + presses true ps')%nat
  | GLFW_RELEASE :: ps' => presses false ps'
  end.

(** The P key as sampled by the loop iterations of a run. *)
Fixpoint p_samples (es : list event) : list key_state :=
  match es with
  | [] => []
  | Tick _ k :: es' => k GLFW_KEY_P :: p_samples es'
  | Callback _ :: es' => p_samples es'
  end.

(** ** Calls leaving the translation unit *)

Definition GLuint := Z.

(** The conversion of a [GLuint] to [int]: the value modulo 2^32, read as a
    signed 32-bit integer. *)
Definition int_of_GLuint (n : GLuint) : Z :=
  ((n + 2147483648) mod 4294967296 - 2147483648)%Z.

Inductive tex_pname :=
| GL_TEXTURE_WRAP_S | GL_TEXTURE_WRAP_T | GL_TEXTURE_MIN_FILTER | GL_TEXTURE_MAG_FILTER.

Inductive tex_pvalue := GL_REPEAT | GL_LINEAR.

Inductive tex_format := GL_RGB8_RGB | GL_RGBA8_RGBA.

Inductive window_hint :=
| GLFW_CONTEXT_VERSION_MAJOR | GLFW_CONTEXT_VERSION_MINOR | GLFW_OPENGL_PROFILE.

Inductive hint_value := hint_int (n : Z) | GLFW_OPENGL_CORE_PROFILE.

Inductive call :=
(* ShaderManager *)
| new_ShaderManager
| LoadShaders (vertexShader fragmentShader : string)
| use
| setMat4Value (name : string) (v : mat4)
| setIntValue (name : string) (v : Z)
| setBoolValue (name : string) (v : bool)
| setFloatValue (name : string) (v : R)
| setVec2Value (name : string) (v : vec2)
| setVec3Value (name : string) (v : vec3)
| setVec4Value (name : string) (v : vec4)
| setSampler2DValue (name : string) (slot : Z)
| delete_ShaderManager
(* ShapeMeshes *)
| new_ShapeMeshes
| LoadPlaneMesh | LoadConeMesh | LoadTorusMesh | LoadBoxMesh
| DrawPlaneMesh | DrawConeMesh | DrawTorusMesh | DrawBoxMesh
| delete_ShapeMeshes
(* stb_image *)
| stbi_set_flip_vertically_on_load (flag : bool)
| stbi_load (filename : string)
| stbi_image_free
(* OpenGL *)
| glGenTextures (textureID : GLuint)
| glBindTexture (textureID : GLuint)
| glTexParameteri (pname : tex_pname) (param : tex_pvalue)
| glTexImage2D (format : tex_format) (width height : Z)
| glGenerateMipmap
| glActiveTexture (unit : Z)
| glDeleteTextures (textureID : GLuint)
| glEnable_GL_DEPTH_TEST
| glClearColor (r g b a : R)
| glClear
(* GLFW, GLEW and ViewManager *)
| glfwInit
| glfwWindowHint (hint : window_hint) (value : hint_value)
| new_ViewManager
| CreateDisplayWindow (title : string)
| glfwSetInputMode_cursor_normal
| glfwSetCursorPosCallback
| glfwSetScrollCallback
| glewInit
| glewGetErrorString
| glGetString_GL_VERSION
| PrepareSceneView
| glfwSwapBuffers
| glfwPollEvents
| delete_ViewManager.

(** ** The SceneManager object *)

Inductive pointer := NULL | allocated.

Definition non_null (p : pointer) : bool :=
  match p with NULL => false | allocated => true end.

Record TEXTURE_INFO := mkTexture { ID : GLuint; tag : string }.

Record OBJECT_MATERIAL := mkMaterial {
  ambientColor : vec3;
  ambientStrength : R;
  diffuseColor : vec3;
  specularColor : vec3;
  shininess : R;
  material_tag : string
}.

(** [m_textureIDs] is a fixed array: the length of the list is its
    capacity, declared in SceneManager.h. *)
Record SceneManager := mkScene {
  m_pShaderManager : pointer;
  m_basicMeshes : pointer;
  m_textureIDs : list TEXTURE_INFO;
  m_loadedTextures : Z;
  m_objectMaterials : list OBJECT_MATERIAL
}.

(** The part of the world a SceneManager method can change: the object
    itself and the number of texture names OpenGL has handed out. *)
Record World := mkWorld {
  this : SceneManager;
  gl_generated : nat
}.

(** What [stbi_load] reports about a decoded image. *)
Record stb_image := mkImage { width : Z; height : Z; colorChannels : Z }.

(** A method either runs into undefined behaviour (a null pointer is
    dereferenced, an array is indexed out of bounds): [None]; or returns a
    value, the new world and the calls it made, in order. *)
Definition M (A : Type) : Type := World -> option (A * World * list call).

Definition ret {A} (a : A) : M A := fun w => Some (a, w, []).

Definition bind {A B} (m : M A) (k : A -> M B) : M B :=
  fun w =>
    match m w with
    | None => None
    | Some (a, w1, cs1) =>
        match k a w1 with
        | None => None
        | Some (b, w2, cs2) => Some (b, w2, cs1 ++ cs2)
        end
    end.

Definition undefined {A} : M A := fun _ => None.
Definition emit (c : call) : M unit := fun w => Some (tt, w, [c]).
Definition get_this : M SceneManager := fun w => Some (this w, w, []).
Definition put_this (s : SceneManager) : M unit :=
  fun w => Some (tt, mkWorld s (gl_generated w), []).

Notation "x <- m ;; k" := (bind m (fun x => k))
  (at level 61, m at next level, right associativity).
Notation "m ;; k" := (bind m (fun _ => k))
  (at level 61, right associativity).

(** [if (p) body]: the body runs when the pointer is not null. *)
Definition when_non_null (p : pointer) (body : M unit) : M unit :=
  if non_null p then body else ret tt.

(** [p->...]: dereferencing a null pointer is undefined. *)
Definition deref (p : pointer) : M unit :=
  if non_null p then ret tt else undefined.

(** [for (int i = 0; i < n; i++) body(i)] *)
Fixpoint for_from (i : Z) (count : nat) (body : Z -> M unit) : M unit :=
  match count with
  | O => ret tt
  | S count' => body i ;; for_from (i + 1) count' body
  end.

Definition for_loop (n : Z) (body : Z -> M unit) : M unit :=
  for_from 0 (Z.to_nat n) body.

(** Reading and writing [m_textureIDs[i]]. *)
Definition texture_at (s : SceneManager) (i : Z) : option TEXTURE_INFO :=
  if (i <? 0)%Z then None else nth_error (m_textureIDs s) (Z.to_nat i).

Fixpoint list_set {A} (l : list A) (n : nat) (a : A) : option (list A) :=
  match l, n with
  | [], _ => None
  | _ :: l', O => Some (a :: l')
  | b :: l', S n' =>
      match list_set l' n' a with
      | Some l'' => Some (b :: l'')
      | None => None
      end
  end.

Definition set_texture_at (s : SceneManager) (i : Z) (t : TEXTURE_INFO)
  : option SceneManager :=
  if (i <? 0)%Z then None
  else match list_set (m_textureIDs s) (Z.to_nat i) t with
       | Some ids => Some (mkScene (m_pShaderManager s) (m_basicMeshes s) ids
                             (m_loadedTextures s) (m_objectMaterials s))
       | None => None
       end.

Definition set_loadedTextures (n : Z) (s : SceneManager) : SceneManager :=
  mkScene (m_pShaderManager s) (m_basicMeshes s) (m_textureIDs s) n
    (m_objectMaterials s).

Definition push_material (m : OBJECT_MATERIAL) (s : SceneManager) : SceneManager :=
  mkScene (m_pShaderManager s) (m_basicMeshes s) (m_textureIDs s)
    (m_loadedTextures s) (m_objectMaterials s ++ [m]).

Definition g_ModelName : string := "model".
Definition g_ColorValueName : string := "objectColor".
Definition g_TextureValueName : string := "objectTexture".
Definition g_UseTextureName : string := "bUseTexture".
Definition g_UseLightingName : string := "bUseLighting".

Definition WINDOW_TITLE : string := "4-2 Assignment".

(** ** SceneManager methods *)

Section Environment.

(** What the file system and the image decoder answer to [stbi_load]:
    [None] when the file cannot be read or decoded. *)
Variable stbi_load_result : string -> option stb_image.

(** The name the k-th call of [glGenTextures] writes into [textureID]. *)
Variable gl_texture_name : nat -> GLuint.

(** [SceneManager::SceneManager].  The constructor body sets the two
    pointers; [textureIDs] and [loadedTextures] are the values the class
    declaration gives [m_textureIDs] and [m_loadedTextures]. *)
Definition SceneManager_new (textureIDs : list TEXTURE_INFO) (loadedTextures : Z)
  (pShaderManager : pointer) : SceneManager * list call :=
  (mkScene pShaderManager allocated textureIDs loadedTextures [], [new_ShapeMeshes]).

(** [SceneManager::~SceneManager] *)
Definition SceneManager_delete : M unit :=
  s <- get_this ;;
  put_this (mkScene NULL (m_basicMeshes s) (m_textureIDs s)
              (m_loadedTextures s) (m_objectMaterials s)) ;;
  emit delete_ShapeMeshes ;;
  s <- get_this ;;
  put_this (mkScene (m_pShaderManager s) NULL (m_textureIDs s)
              (m_loadedTextures s) (m_objectMaterials s)).

(** [glGenTextures(1, &textureID)] *)
Definition gen_texture : M GLuint :=
  fun w =>
    let textureID := gl_texture_name (gl_generated w) in
    Some (textureID, mkWorld (this w) (S (gl_generated w)), [glGenTextures textureID]).

(** The three statements that register a texture under its tag. *)
Definition register_texture (textureID : GLuint) (tag : string) : M unit :=
  fun w =>
    let s := this w in
    match set_texture_at s (m_loadedTextures s) (mkTexture textureID tag) with
    | Some s' =>
        Some (tt, mkWorld (set_loadedTextures (m_loadedTextures s + 1) s')
                    (gl_generated w), [])
    | None => None
    end.

Definition CreateGLTexture (filename : string) (tag : string) : M bool :=
  emit (stbi_set_flip_vertically_on_load true) ;;
  emit (stbi_load filename) ;;
  match stbi_load_result filename with
  | Some image =>
      textureID <- gen_texture ;;
      emit (glBindTexture textureID) ;;
      emit (glTexParameteri GL_TEXTURE_WRAP_S GL_REPEAT) ;;
      emit (glTexParameteri GL_TEXTURE_WRAP_T GL_REPEAT) ;;
      emit (glTexParameteri GL_TEXTURE_MIN_FILTER GL_LINEAR) ;;
      emit (glTexParameteri GL_TEXTURE_MAG_FILTER GL_LINEAR) ;;
      let finish : M bool :=
        emit glGenerateMipmap ;;
        emit stbi_image_free ;;
        emit (glBindTexture 0%Z) ;;
        register_texture textureID tag ;;
        ret true in
      if (colorChannels image =? 3)%Z then
        emit (glTexImage2D GL_RGB8_RGB (width image) (height image)) ;;
        finish
      else if (colorChannels image =? 4)%Z then
        emit (glTexImage2D GL_RGBA8_RGBA (width image) (height image)) ;;
        finish
      else
        emit stbi_image_free ;;
        ret false
  | None => ret false
  end.

Definition BindGLTextures : M unit :=
  s <- get_this ;;
  for_loop (m_loadedTextures s) (fun i =>
    emit (glActiveTexture i) ;;
    match texture_at s i with
    | Some t => emit (glBindTexture (ID t))
    | None => undefined
    end).

Definition DestroyGLTextures : M unit :=
  s <- get_this ;;
  for_loop (m_loadedTextures s) (fun i =>
    match texture_at s i with
    | Some t => emit (glDeleteTextures (ID t))
    | None => undefined
    end) ;;
  s <- get_this ;;
  put_this (set_loadedTextures 0 s).

(** The search loop shared by [FindTextureID] and [FindTextureSlot]:
    the first index below [m_loadedTextures] whose tag matches. *)
Fixpoint find_texture (s : SceneManager) (tag0 : string) (i : Z) (count : nat)
  : option (option (Z * TEXTURE_INFO)) :=
  match count with
  | O => Some None
  | S count' =>
      match texture_at s i with
      | None => None
      | Some t =>
          if String.eqb (tag t) tag0 then Some (Some (i, t))
          else find_texture s tag0 (i + 1) count'
      end
  end.

(** [FindTextureID] returns [int]: the [GLuint] name found is converted on
    return. *)
Definition FindTextureID (tag0 : string) : M Z :=
  fun w =>
    match find_texture (this w) tag0 0 (Z.to_nat (m_loadedTextures (this w))) with
    | None => None
    | Some (Some (_, t)) => Some (int_of_GLuint (ID t), w, [])
    | Some None => Some ((-1)%Z, w, [])
    end.

Definition FindTextureSlot (tag0 : string) : M Z :=
  fun w =>
    match find_texture (this w) tag0 0 (Z.to_nat (m_loadedTextures (this w))) with
    | None => None
    | Some (Some (i, _)) => Some (i, w, [])
    | Some None => Some ((-1)%Z, w, [])
    end.

(** [FindMaterial]: the out-parameter is returned as an option. *)
Definition FindMaterial (tag0 : string) : M (option OBJECT_MATERIAL) :=
  s <- get_this ;;
  ret (find (fun mat => String.eqb (material_tag mat) tag0) (m_objectMaterials s)).

Definition SetTransformations (scaleXYZ : vec3)
  (XrotationDegrees YrotationDegrees ZrotationDegrees : R) (positionXYZ : vec3)
  : M unit :=
  let modelView :=
    translate positionXYZ *m
    rotate (radians XrotationDegrees) (Vec3 1 0 0) *m
    rotate (radians YrotationDegrees) (Vec3 0 1 0) *m
    rotate (radians ZrotationDegrees) (Vec3 0 0 1) *m
    scale scaleXYZ in
  s <- get_this ;;
  when_non_null (m_pShaderManager s)
    (emit (setMat4Value g_ModelName modelView)).

Definition SetShaderColor (r g b a : R) : M unit :=
  let color := Vec4 r g b a in
  s <- get_this ;;
  when_non_null (m_pShaderManager s)
    (emit (setIntValue g_UseTextureName 0%Z) ;;
     emit (setVec4Value g_ColorValueName color)).

Definition SetShaderTexture (textureTag : string) : M unit :=
  s <- get_this ;;
  when_non_null (m_pShaderManager s)
    (emit (setIntValue g_UseTextureName 1%Z) ;;
     slot <- FindTextureSlot textureTag ;;
     emit (setSampler2DValue g_TextureValueName slot)).

Definition SetTextureUVScale (u v : R) : M unit :=
  s <- get_this ;;
  when_non_null (m_pShaderManager s)
    (emit (setVec2Value "UVscale" (Vec2 u v))).

Definition SetShaderMaterial (materialTag : string) : M unit :=
  s <- get_this ;;
  match m_objectMaterials s with
  | [] => ret tt
  | _ =>
      found <- FindMaterial materialTag ;;
      match found with
      | Some material =>
          deref (m_pShaderManager s) ;;
          emit (setVec3Value "material.ambientColor" (ambientColor material)) ;;
          emit (setFloatValue "material.ambientStrength" (ambientStrength material)) ;;
          emit (setVec3Value "material.diffuseColor" (diffuseColor material)) ;;
          emit (setVec3Value "material.specularColor" (specularColor material)) ;;
          emit (setFloatValue "material.shininess" (shininess material))
      | None => ret tt
      end
  end.

Definition goldMaterial : OBJECT_MATERIAL :=
  mkMaterial (Vec3 0.2 0.2 0.1) 0.4 (Vec3 0.3 0.3 0.2) (Vec3 0.6 0.5 0.4) 22 "gold".
Definition cementMaterial : OBJECT_MATERIAL :=
  mkMaterial (Vec3 0.2 0.2 0.2) 0.2 (Vec3 0.5 0.5 0.5) (Vec3 0.4 0.4 0.4) 0.5 "cement".
Definition woodMaterial : OBJECT_MATERIAL :=
  mkMaterial (Vec3 0.4 0.3 0.1) 0.2 (Vec3 0.3 0.2 0.1) (Vec3 0.1 0.1 0.1) 0.3 "wood".
Definition tileMaterial : OBJECT_MATERIAL :=
  mkMaterial (Vec3 0.2 0.3 0.4) 0.3 (Vec3 0.3 0.2 0.1) (Vec3 0.4 0.5 0.6) 25 "tile".
Definition glassMaterial : OBJECT_MATERIAL :=
  mkMaterial (Vec3 0.4 0.4 0.4) 0.3 (Vec3 0.3 0.3 0.3) (Vec3 0.6 0.6 0.6) 85 "glass".
Definition clayMaterial : OBJECT_MATERIAL :=
  mkMaterial (Vec3 0.2 0.2 0.3) 0.3 (Vec3 0.4 0.4 0.5) (Vec3 0.2 0.2 0.4) 0.5 "clay".

(** [m_objectMaterials.push_back(material)] *)
Definition push_back (material : OBJECT_MATERIAL) : M unit :=
  s <- get_this ;; put_this (push_material material s).

Definition PrepareScene : M unit :=
  push_back goldMaterial ;;
  push_back cementMaterial ;;
  push_back woodMaterial ;;
  push_back tileMaterial ;;
  push_back glassMaterial ;;
  push_back clayMaterial ;;
  s <- get_this ;;
  deref (m_pShaderManager s) ;;
  (* Light 0 *)
  emit (setVec3Value "lightSources[0].position" (Vec3 3 14 0)) ;;
  emit (setVec3Value "lightSources[0].ambientColor" (Vec3 0.1 0.1 0.1)) ;;
  emit (setVec3Value "lightSources[0].diffuseColor" (Vec3 0.6 0.6 0.6)) ;;
  emit (setVec3Value "lightSources[0].specularColor" (Vec3 0 0 0)) ;;
  emit (setFloatValue "lightSources[0].focalStrength" 32) ;;
  emit (setFloatValue "lightSources[0].specularIntensity" 0.05) ;;
  (* Light 1 *)
  emit (setVec3Value "lightSources[1].position" (Vec3 (-3) 14 0)) ;;
  emit (setVec3Value "lightSources[1].ambientColor" (Vec3 0.1 0.1 0.1)) ;;
  emit (setVec3Value "lightSources[1].diffuseColor" (Vec3 0.6 0.6 0.6)) ;;
  emit (setVec3Value "lightSources[1].specularColor" (Vec3 0 0 0)) ;;
  emit (setFloatValue "lightSources[1].focalStrength" 32) ;;
  emit (setFloatValue "lightSources[1].specularIntensity" 0.05) ;;
  (* Light 2 *)
  emit (setVec3Value "lightSources[2].position" (Vec3 0.6 5 6)) ;;
  emit (setVec3Value "lightSources[2].ambientColor" (Vec3 0.1 0.1 0.1)) ;;
  emit (setVec3Value "lightSources[2].diffuseColor" (Vec3 0.6 0.6 0.6)) ;;
  emit (setVec3Value "lightSources[2].specularColor" (Vec3 0.3 0.3 0.3)) ;;
  emit (setFloatValue "lightSources[2].focalStrength" 12) ;;
  emit (setFloatValue "lightSources[2].specularIntensity" 0.5) ;;
  (* Enable lighting *)
  emit (setBoolValue "bUseLighting" true) ;;
  (* one instance of each mesh *)
  deref (m_basicMeshes s) ;;
  emit LoadPlaneMesh ;;
  emit LoadConeMesh ;;
  emit LoadTorusMesh ;;
  emit LoadBoxMesh ;;
  (* textures *)
  CreateGLTexture "../../Utilities/textures/brick.jpg" "floor" ;;
  CreateGLTexture "../../Utilities/textures/breadcrust.jpg" "cone" ;;
  CreateGLTexture "../../Utilities/textures/gold-seamless-texture.jpg" "box" ;;
  BindGLTextures.

(** [m_basicMeshes->Draw...Mesh()] *)
Definition draw (c : call) : M unit :=
  s <- get_this ;; deref (m_basicMeshes s) ;; emit c.

Definition RenderScene : M unit :=
  let XrotationDegrees := 0 in
  let YrotationDegrees := 0 in
  let ZrotationDegrees := 0 in
  (* plane: the floor *)
  let scaleXYZ := Vec3 20 1 20 in
  let positionXYZ := Vec3 0 0 0 in
  SetTransformations scaleXYZ XrotationDegrees YrotationDegrees ZrotationDegrees
    positionXYZ ;;
  SetShaderTexture "floor" ;;
  SetTextureUVScale 4 4 ;;
  draw DrawPlaneMesh ;;
  (* centre cone *)
  let scaleXYZ := Vec3 1 2 1 in
  let positionXYZ := Vec3 0 1 3 in
  SetTransformations scaleXYZ 0 0 0 positionXYZ ;;
  SetShaderTexture "cone" ;;
  draw DrawConeMesh ;;
  (* torus around the centre cone *)
  let scaleXYZ := Vec3 1.6 1.6 1.6 in
  let positionXYZ := Vec3 0 1 3 in
  SetTransformations scaleXYZ 90 0 0 positionXYZ ;;
  SetShaderTexture "cone" ;;
  draw DrawTorusMesh ;;
  (* front row: large cones *)
  let scaleXYZ := Vec3 1.6 2 1.6 in
  let positionXYZ := Vec3 (-6) 0.5 8 in
  SetTransformations scaleXYZ 0 0 0 positionXYZ ;;
  SetShaderTexture "cone" ;;
  draw DrawConeMesh ;;
  let positionXYZ := Vec3 6 0.5 8 in
  SetTransformations scaleXYZ 0 0 0 positionXYZ ;;
  SetShaderTexture "cone" ;;
  draw DrawConeMesh ;;
  (* second row: medium cones *)
  let scaleXYZ := Vec3 1.2 2 1.2 in
  let positionXYZ := Vec3 (-4) 0.5 5 in
  SetTransformations scaleXYZ 0 0 0 positionXYZ ;;
  SetShaderTexture "cone" ;;
  draw DrawConeMesh ;;
  let positionXYZ := Vec3 4 0.5 5 in
  SetTransformations scaleXYZ 0 0 0 positionXYZ ;;
  SetShaderTexture "cone" ;;
  draw DrawConeMesh ;;
  (* third row: small cones *)
  let scaleXYZ := Vec3 0.9 2 0.9 in
  let positionXYZ := Vec3 (-2) 0.5 (-3) in
  SetTransformations scaleXYZ 0 0 0 positionXYZ ;;
  SetShaderTexture "cone" ;;
  draw DrawConeMesh ;;
  let positionXYZ := Vec3 2 0.5 (-3) in
  SetTransformations scaleXYZ 0 0 0 positionXYZ ;;
  SetShaderTexture "cone" ;;
  draw DrawConeMesh ;;
  (* box *)
  let scaleXYZ := Vec3 0.3 2 3.5 in
  let positionXYZ := Vec3 (-5) 0.6 6.5 in
  SetTransformations scaleXYZ 0 0 0 positionXYZ ;;
  SetShaderTexture "box" ;;
  draw DrawBoxMesh.

End Environment.

(** ** The main program *)

(** What one loop iteration reads from outside: the clock, the key table,
    the callbacks [glfwPollEvents] delivers and whether the user asked to
    close the window meanwhile. *)
Record frame_input := mkFrame {
  glfwGetTime : R;
  keys : key -> key_state;
  polled : list callback;
  close_requested : bool
}.

Definition EXIT_SUCCESS : Z := 0%Z.
Definition EXIT_FAILURE : Z := 1%Z.

(** How far a run over finitely many recorded frames gets: the program has
    exited with a status, or it is still in its loop, the window open. *)
Inductive outcome := exited (status : Z) | running.

(** The projection matrix of a frame. *)
Definition projection_of (g : Globals) : mat4 :=
  if useOrtho g then
    let aspect := 800 / 600 in
    let orthoSize := 10 in
    ortho (- orthoSize * aspect) (orthoSize * aspect) (- orthoSize) orthoSize 0.1 100
  else
    perspective (radians (fov g)) (800 / 600) 0.1 100.

Section MainProgram.

Variable stbi_load_result : string -> option stb_image.
Variable gl_texture_name : nat -> GLuint.

(** The body of the [while] loop of [main]. *)
Definition loop_body (f : frame_input) (g : Globals) : M Globals :=
  let g := begin_frame (glfwGetTime f) (keys f) g in
  emit glEnable_GL_DEPTH_TEST ;;
  emit (glClearColor 0 0 0 1) ;;
  emit glClear ;;
  emit PrepareSceneView ;;
  let view := lookAt (cameraPos g) (cameraPos g +v cameraFront g) (cameraUp g) in
  let projection := projection_of g in
  emit (setMat4Value "view" view) ;;
  emit (setMat4Value "projection" projection) ;;
  RenderScene ;;
  emit glfwSwapBuffers ;;
  emit glfwPollEvents ;;
  let g := fold_left deliver (polled f) g in
  ret (if close_requested f then set_windowShouldClose true g else g).

(** The iterations of [while (!glfwWindowShouldClose(g_Window))] over the
    frames recorded.  The loop is left when the close flag is found set; when
    the recorded frames run out first, the globals returned have the flag
    clear and the loop is still running ([main] tells the two apart). *)
Fixpoint main_loop (fs : list frame_input) (g : Globals) : M Globals :=
  if windowShouldClose g then ret g
  else match fs with
       | [] => ret g
       | f :: fs' => g' <- loop_body f g ;; main_loop fs' g'
       end.

(** Lines 123-127: the objects are deleted, then the program exits. *)
Definition shutdown : M unit :=
  SceneManager_delete ;;
  emit delete_ViewManager ;;
  emit delete_ShaderManager.

(** [main].  [glfwInit_ok] and [glewInit_ok] are the outcomes of the two
    library initialisations; [textureIDs] and [loadedTextures] are the
    initial values of the SceneManager members (see [SceneManager_new]).
    The result is how far the program got over the recorded frames, with
    the calls made: the loop is left, and lines 123-127 run, only once the
    close flag is set. *)
Definition main (glfwInit_ok glewInit_ok : bool)
  (textureIDs : list TEXTURE_INFO) (loadedTextures : Z)
  (fs : list frame_input) : option (outcome * list call) :=
  if negb glfwInit_ok then Some (exited EXIT_FAILURE, [glfwInit])
  else
    let window :=
      [glfwInit;
       (* the hints compiled when __APPLE__ is not defined *)
       glfwWindowHint GLFW_CONTEXT_VERSION_MAJOR (hint_int 4);
       glfwWindowHint GLFW_CONTEXT_VERSION_MINOR (hint_int 6);
       glfwWindowHint GLFW_OPENGL_PROFILE GLFW_OPENGL_CORE_PROFILE;
       new_ShaderManager; new_ViewManager; CreateDisplayWindow WINDOW_TITLE;
       glfwSetInputMode_cursor_normal; glfwSetCursorPosCallback;
       glfwSetScrollCallback; glewInit] in
    if negb glewInit_ok then Some (exited EXIT_FAILURE, window ++ [glewGetErrorString])
    else
      let shaders :=
        [glGetString_GL_VERSION;
         LoadShaders "../../Utilities/shaders/vertexShader.glsl"
                     "../../Utilities/shaders/fragmentShader.glsl"; use] in
      let (scene, made) := SceneManager_new textureIDs loadedTextures allocated in
      match (PrepareScene stbi_load_result gl_texture_name ;;
             g <- main_loop fs initial_globals ;;
             if windowShouldClose g
             then shutdown ;; ret (exited EXIT_SUCCESS)
             else ret running) (mkWorld scene 0) with
      | None => None
      | Some (result, _, cs) => Some (result, window ++ shaders ++ made ++ cs)
      end.

End MainProgram.

(** ** Reading a list of calls *)

Inductive mesh := Plane | Cone | Torus | Box.

Definition loaded_mesh (c : call) : option mesh :=
  match c with
  | LoadPlaneMesh => Some Plane
  | LoadConeMesh => Some Cone
  | LoadTorusMesh => Some Torus
  | LoadBoxMesh => Some Box
  | _ => None
  end.

Definition drawn_mesh (c : call) : option mesh :=
  match c with
  | DrawPlaneMesh => Some Plane
  | DrawConeMesh => Some Cone
  | DrawTorusMesh => Some Torus
  | DrawBoxMesh => Some Box
  | _ => None
  end.

Fixpoint collect {A} (f : call -> option A) (cs : list call) : list A :=
  match cs with
  | [] => []
  | c :: cs' =>
      match f c with
      | Some a => a :: collect f cs'
      | None => collect f cs'
      end
  end.

(** The meshes loaded, and the meshes drawn, in order. *)
Definition loads (cs : list call) : list mesh := collect loaded_mesh cs.
Definition drawn (cs : list call) : list mesh := collect drawn_mesh cs.

Definition mesh_eqb (a b : mesh) : bool :=
  match a, b with
  | Plane, Plane | Cone, Cone | Torus, Torus | Box, Box => true
  | _, _ => false
  end.

Definition count_mesh (m : mesh) (ms : list mesh) : nat :=
  List.length (filter (mesh_eqb m) ms).

(** Texture names created and deleted. *)
Definition generated_name (c : call) : option GLuint :=
  match c with glGenTextures t => Some t | _ => None end.

Definition deleted_name (c : call) : option GLuint :=
  match c with glDeleteTextures t => Some t | _ => None end.

Definition generated_textures (cs : list call) : list GLuint := collect generated_name cs.
Definition deleted_textures (cs : list call) : list GLuint := collect deleted_name cs.

(** The matrices sent to the uniform [name]. *)
Definition mat4_named (name : string) (c : call) : option mat4 :=
  match c with
  | setMat4Value n v => if String.eqb n name then Some v else None
  | _ => None
  end.

Definition mat4_sent (name : string) (cs : list call) : list mat4 :=
  collect (mat4_named name) cs.

(** An installation where every image decodes to three channels, OpenGL
    numbers its textures 1, 2, 3, ... and the texture array has sixteen
    slots, none in use. *)
Definition rgb_images : string -> option stb_image :=
  fun _ => Some (mkImage 512 512 3).

Definition counting_names : nat -> GLuint := fun k => Z.of_nat (S k).

Definition sixteen_slots : list TEXTURE_INFO := repeat (mkTexture 0%Z "") 16.

Definition fresh_world : World :=
  mkWorld (mkScene allocated allocated sixteen_slots 0%Z []) 0.

(** The shader uniforms a draw call depends on, as last set. *)
Record uniforms := mkUniforms {
  model : option mat4;
  bUseTexture : option Z;
  objectTexture : option Z;
  UVscale : option vec2
}.

Definition no_uniforms : uniforms := mkUniforms None None None None.

Definition set_uniform (u : uniforms) (c : call) : uniforms :=
  match c with
  | setMat4Value n v =>
      if String.eqb n "model"
      then mkUniforms (Some v) (bUseTexture u) (objectTexture u) (UVscale u) else u
  | setIntValue n v =>
      if String.eqb n "bUseTexture"
      then mkUniforms (model u) (Some v) (objectTexture u) (UVscale u) else u
  | setSampler2DValue n v =>
      if String.eqb n "objectTexture"
      then mkUniforms (model u) (bUseTexture u) (Some v) (UVscale u) else u
  | setVec2Value n v =>
      if String.eqb n "UVscale"
      then mkUniforms (model u) (bUseTexture u) (objectTexture u) (Some v) else u
  | _ => u
  end.

(** Each draw call with the uniforms in force when it is issued. *)
Fixpoint draws (u : uniforms) (cs : list call) : list (mesh * uniforms) :=
  match cs with
  | [] => []
  | c :: cs' =>
      match drawn_mesh c with
      | Some m => (m, u) :: draws u cs'
      | None => draws (set_uniform u c) cs'
      end
  end.

(** A drawn object as the scene description gives it: the mesh, the
    texture slot sampled and the UV scale. *)
Definition textured (d : mesh * uniforms) : mesh * option Z * option vec2 :=
  (fst d,
   match bUseTexture (snd d) with
   | Some 1%Z => objectTexture (snd d)
   | _ => None
   end,
   UVscale (snd d)).

(** The slot [FindTextureSlot] computes, as a function of the object. *)
Definition slot_of (s : SceneManager) (tag0 : string) : option Z :=
  match find_texture s tag0 0 (Z.to_nat (m_loadedTextures s)) with
  | None => None
  | Some (Some (i, _)) => Some i
  | Some None => Some (-1)%Z
  end.

(** The image file uploaded into each texture: every [glTexImage2D], with
    the file last decoded and the texture last bound. *)
Fixpoint uploads_from (file : string) (bound : GLuint) (cs : list call)
  : list (string * GLuint) :=
  match cs with
  | [] => []
  | stbi_load filename :: cs' => uploads_from filename bound cs'
  | glBindTexture t :: cs' => uploads_from file t cs'
  | glTexImage2D _ _ _ :: cs' => (file, bound) :: uploads_from file bound cs'
  | _ :: cs' => uploads_from file bound cs'
  end.

Definition uploads (cs : list call) : list (string * GLuint) :=
  uploads_from "" 0%Z cs.

(** The texture bound to a texture unit, the latest binding first. *)
Definition bound_to (units : list (Z * GLuint)) (unit : Z) : option GLuint :=
  match find (fun p => (fst p =? unit)%Z) units with
  | Some p => Some (snd p)
  | None => None
  end.

(** Each draw call with the texture it samples: the texture bound to the
    unit the sampler uniform names, when texturing is switched on. *)
Fixpoint sampled_from (active : Z) (units : list (Z * GLuint)) (u : uniforms)
  (cs : list call) : list (mesh * option GLuint) :=
  match cs with
  | [] => []
  | glActiveTexture a :: cs' => sampled_from a units u cs'
  | glBindTexture t :: cs' => sampled_from active ((active, t) :: units) u cs'
  | c :: cs' =>
      match drawn_mesh c with
      | Some m =>
          (m, match bUseTexture u, objectTexture u with
              | Some 1%Z, Some slot => bound_to units slot
              | _, _ => None
              end) :: sampled_from active units u cs'
      | None => sampled_from active units (set_uniform u c) cs'
      end
  end.

(** From the state of a new OpenGL context: unit 0 active, nothing bound. *)
Definition sampled (cs : list call) : list (mesh * option GLuint) :=
  sampled_from 0%Z [] no_uniforms cs.

(** The events one loop iteration feeds the globals: the head of the
    iteration, then the callbacks [glfwPollEvents] delivers. *)
Definition events_of (f : frame_input) : list event :=
  Tick (glfwGetTime f) (keys f) :: map Callback (polled f).

(** A frame in which nothing asks the window to close. *)
Definition stays_open (f : frame_input) : Prop :=
  keys f GLFW_KEY_ESCAPE = GLFW_RELEASE /\ close_requested f = false.

(** The file decodes to an image [CreateGLTexture] accepts. *)
Definition usable (stbi_load_result : string -> option stb_image) (filename : string)
  : bool :=
  match stbi_load_result filename with
  | Some image => (colorChannels image =? 3)%Z || (colorChannels image =? 4)%Z
  | None => false
  end.

(** Two vectors are collinear when their cross product vanishes. *)
Definition collinear (a b : vec3) : Prop := cross a b = Vec3 0 0 0.

(** The vector [processInput] strafes along. *)
Definition strafe (g : Globals) : vec3 :=
  normalize (cross (cameraFront g) (cameraUp g)).

(** The displacement a movement key contributes in a frame. *)
Definition if_pressed (a : key_state) (v : vec3) : vec3 :=
  if is_press a then v else Vec3 0 0 0.

(** ** Predicates used in the statements *)

(** The camera invariant of a run. *)
Definition camera_ok (g : Globals) : Prop :=
  -89 <= pitch g <= 89 /\
  cameraUp g = Vec3 0 1 0 /\
  ~ collinear (cameraFront g) (cameraUp g) /\
  0.5 <= movementSpeed g <= 10 /\
  1 <= fov g <= 45.

(** A movement statement adds its displacement and keeps the front and
    up vectors. *)
Definition moved (g0 g1 : Globals) (d : vec3) : Prop :=
  cameraPos g1 = cameraPos g0 +v d /\
  cameraFront g1 = cameraFront g0 /\ cameraUp g1 = cameraUp g0.

(** The matrix [SetTransformations] composes. *)
Definition model_matrix (scaleXYZ : vec3) (rx ry rz : R) (positionXYZ : vec3) : mat4 :=
  translate positionXYZ *m
  rotate (radians rx) (Vec3 1 0 0) *m
  rotate (radians ry) (Vec3 0 1 0) *m
  rotate (radians rz) (Vec3 0 0 1) *m
  scale scaleXYZ.

(** A scene whose mesh object exists and whose texture count fits the
    array. *)
Definition scene_ok (s : SceneManager) : Prop :=
  m_basicMeshes s = allocated /\
  (m_loadedTextures s <= Z.of_nat (List.length (m_textureIDs s)))%Z.

(** From every world satisfying [P] the method returns, in a world
    satisfying [Q]. *)
Definition runs {A} (P : World -> Prop) (m : M A) (Q : A -> World -> Prop) : Prop :=
  forall w, P w -> exists a w' cs, m w = Some (a, w', cs) /\ Q a w'.

(** Whenever the method returns, the calls it made project to [l]. *)
Definition emits {A B} (f : call -> option B) (m : M A) (l : list B) : Prop :=
  forall w a w' cs, m w = Some (a, w', cs) -> collect f cs = l.

(** The registry of [s'] is that of [s] with one more texture, named
    [textureID] and tagged [tag0], in the first free slot. *)
Definition registered (s s' : SceneManager) (textureID : GLuint) (tag0 : string)
  : Prop :=
  m_loadedTextures s' = (m_loadedTextures s + 1)%Z /\
  texture_at s' (m_loadedTextures s) = Some (mkTexture textureID tag0) /\
  (forall i, i <> m_loadedTextures s -> texture_at s' i = texture_at s i) /\
  List.length (m_textureIDs s') = List.length (m_textureIDs s) /\
  m_pShaderManager s' = m_pShaderManager s /\
  m_basicMeshes s' = m_basicMeshes s /\
  m_objectMaterials s' = m_objectMaterials s.

(** The slot [m_textureIDs[m_loadedTextures]] exists. *)
Definition has_room (s : SceneManager) : Prop :=
  (0 <= m_loadedTextures s < Z.of_nat (List.length (m_textureIDs s)))%Z.

(** Both pointers are set and [k] more textures fit the array. *)
Definition room (k : Z) (w : World) : Prop :=
  m_pShaderManager (this w) = allocated /\
  m_basicMeshes (this w) = allocated /\
  (0 <= m_loadedTextures (this w))%Z /\
  (m_loadedTextures (this w) + k <= Z.of_nat (List.length (m_textureIDs (this w))))%Z.

(** Key tables and inputs used as examples. *)
Definition A_down : key -> key_state :=
  fun k => match k with GLFW_KEY_A => GLFW_PRESS | _ => GLFW_RELEASE end.

Definition W_and_A_down : key -> key_state :=
  fun k => match k with GLFW_KEY_W | GLFW_KEY_A => GLFW_PRESS | _ => GLFW_RELEASE end.

Definition P_down : key -> key_state :=
  fun k => match k with GLFW_KEY_P => GLFW_PRESS | _ => GLFW_RELEASE end.

(** The globals when the first frame lasted one second. *)
Definition after_one_second : Globals := set_deltaTime 1 initial_globals.

(** A first frame, one second in, with P held and nothing polled; the
    frame after it, P still held; and a first frame with Escape down. *)
Definition P_frame : frame_input := mkFrame 1 P_down [] false.

Definition P_held_frame : frame_input := mkFrame 2 P_down [] false.

Definition Escape_down : key -> key_state :=
  fun k => match k with GLFW_KEY_ESCAPE => GLFW_PRESS | _ => GLFW_RELEASE end.

Definition Escape_frame : frame_input := mkFrame 1 Escape_down [] false.

(** ** Vocabulary of the further properties *)

(** The texture bound to each texture unit by a list of calls, the unit
    [active] being selected at the start. *)
Fixpoint bindings (active : Z) (cs : list call) : list (Z * GLuint) :=
  match cs with
  | [] => []
  | glActiveTexture u :: cs' => bindings u cs'
  | glBindTexture t :: cs' => (active, t) :: bindings active cs'
  | _ :: cs' => bindings active cs'
  end.

(** The textures of a table paired with consecutive units from [i] on. *)
Fixpoint units_from (i : Z) (ts : list TEXTURE_INFO) : list (Z * GLuint) :=
  match ts with
  | [] => []
  | t :: ts' => (i, ID t) :: units_from (i + 1) ts'
  end.

(** The meshes of one rendered frame, in drawing order. *)
Definition scene_meshes : list mesh :=
  [Plane; Cone; Torus; Cone; Cone; Cone; Cone; Cone; Cone; Box].

(** The six materials [PrepareScene] defines. *)
Definition scene_materials : list OBJECT_MATERIAL :=
  [goldMaterial; cementMaterial; woodMaterial; tileMaterial; glassMaterial;
   clayMaterial].

(** The first material of a list carrying a tag. *)
Definition first_material (tag0 : string) (mats : list OBJECT_MATERIAL)
  : option OBJECT_MATERIAL :=
  find (fun mat => String.eqb (material_tag mat) tag0) mats.

(** The calls that carry a material or a flat colour to the shader. *)
Definition material_or_colour (c : call) : option call :=
  match c with
  | setVec3Value _ _ | setFloatValue _ _ | setVec4Value _ _ => Some c
  | _ => None
  end.

(** The five uniforms [SetShaderMaterial] sends for a material. *)
Definition material_calls (material : OBJECT_MATERIAL) : list call :=
  [setVec3Value "material.ambientColor" (ambientColor material);
   setFloatValue "material.ambientStrength" (ambientStrength material);
   setVec3Value "material.diffuseColor" (diffuseColor material);
   setVec3Value "material.specularColor" (specularColor material);
   setFloatValue "material.shininess" (shininess material)].

(** [b] as the integer C++ converts it to. *)
Definition b2z (b : bool) : Z := if b then 1%Z else 0%Z.

(** [room] together with the texture count and the material list. *)
Definition prepared (k n : Z) (mats : list OBJECT_MATERIAL) (w : World) : Prop :=
  room k w /\ m_loadedTextures (this w) = n /\ m_objectMaterials (this w) = mats.

(** A frame that asks the window to close: Escape is down when the keys
    are read, or a close request arrives while the events are polled. *)
Definition closes (f : frame_input) : bool :=
  is_press (keys f GLFW_KEY_ESCAPE) || close_requested f.

(** Example inputs.  A SceneManager with three textures loaded into a
    table of sixteen slots, two of them under the same tag; one whose
    sixteen slots are all in use; and one whose only material is gold but
    whose shader manager is missing. *)
Definition loaded_world : World :=
  mkWorld (mkScene allocated allocated
             ([mkTexture 1%Z "floor"; mkTexture 2%Z "cone"; mkTexture 3%Z "cone"]
              ++ repeat (mkTexture 0%Z "") 13)
             3%Z [])
          3.

Definition full_world : World :=
  mkWorld (mkScene allocated allocated
             (map (fun k => mkTexture (Z.of_nat (S k)) "cone") (seq 0 16))
             16%Z [])
          16.

Definition headless_world : World :=
  mkWorld (mkScene NULL allocated sixteen_slots 0%Z [goldMaterial]) 0.

(** * Properties *)

(** ** GLM facts *)

Lemma vec3_eq (a b : vec3) : x a = x b -> y a = y b -> z a = z b -> a = b.
Proof. destruct a, b; simpl; intros; subst; reflexivity. Qed.

Lemma vec4_eq (a b : vec4) :
  x4 a = x4 b -> y4 a = y4 b -> z4 a = z4 b -> w4 a = w4 b -> a = b.
Proof. destruct a, b; simpl; intros; subst; reflexivity. Qed.

Ltac vec_ring :=
  first [ apply vec4_eq | apply vec3_eq ]; simpl; try ring.

(** Applying a product is applying the factors right to left. *)
Lemma mulv_mul (a b : mat4) (v : vec4) : mulv (a *m b) v = mulv a (mulv b v).
Proof. vec_ring. Qed.

Lemma mulv_translate (p : vec3) (v : vec4) :
  mulv (translate p) v =
  Vec4 (x4 v + x p * w4 v) (y4 v + y p * w4 v) (z4 v + z p * w4 v) (w4 v).
Proof. vec_ring. Qed.

Lemma mulv_scale (s : vec3) (v : vec4) :
  mulv (scale s) v = Vec4 (x s * x4 v) (y s * y4 v) (z s * z4 v) (w4 v).
Proof. vec_ring. Qed.

Lemma inversesqrt_1 : inversesqrt 1 = 1.
Proof. unfold inversesqrt. rewrite sqrt_1. field. Qed.

Lemma normalize_unit (a : vec3) : dot a a = 1 -> normalize a = a.
Proof.
  intros H. unfold normalize. rewrite H, inversesqrt_1.
  destruct a; unfold scale3; simpl. f_equal; ring.
Qed.

Lemma normalize_X : normalize (Vec3 1 0 0) = Vec3 1 0 0.
Proof. apply normalize_unit. unfold dot; simpl; ring. Qed.

Lemma normalize_Y : normalize (Vec3 0 1 0) = Vec3 0 1 0.
Proof. apply normalize_unit. unfold dot; simpl; ring. Qed.

Lemma normalize_Z : normalize (Vec3 0 0 1) = Vec3 0 0 1.
Proof. apply normalize_unit. unfold dot; simpl; ring. Qed.

Lemma mulv_rotate_X (a : R) (v : vec4) :
  mulv (rotate a (Vec3 1 0 0)) v =
  Vec4 (x4 v) (cos a * y4 v - sin a * z4 v) (sin a * y4 v + cos a * z4 v) (w4 v).
Proof. unfold rotate, rotate_m. rewrite normalize_X. vec_ring. Qed.

Lemma mulv_rotate_Y (a : R) (v : vec4) :
  mulv (rotate a (Vec3 0 1 0)) v =
  Vec4 (cos a * x4 v + sin a * z4 v) (y4 v) (cos a * z4 v - sin a * x4 v) (w4 v).
Proof. unfold rotate, rotate_m. rewrite normalize_Y. vec_ring. Qed.

Lemma mulv_rotate_Z (a : R) (v : vec4) :
  mulv (rotate a (Vec3 0 0 1)) v =
  Vec4 (cos a * x4 v - sin a * y4 v) (sin a * x4 v + cos a * y4 v) (z4 v) (w4 v).
Proof. unfold rotate, rotate_m. rewrite normalize_Z. vec_ring. Qed.

Lemma clamp_bounds (v lo hi : R) : lo <= hi -> lo <= clamp v lo hi <= hi.
Proof.
  intros H. unfold clamp, min, max.
  destruct (Rlt_dec v lo); destruct (Rlt_dec hi _); lra.
Qed.

Lemma look_direction_unit (yaw_deg pitch_deg : R) :
  dot (look_direction yaw_deg pitch_deg) (look_direction yaw_deg pitch_deg) = 1.
Proof.
  unfold look_direction, dot; simpl.
  pose proof (sin2_cos2 (radians yaw_deg)) as Hy.
  pose proof (sin2_cos2 (radians pitch_deg)) as Hp.
  unfold Rsqr in *. nra.
Qed.

(** ** The camera callbacks *)

(** A property kept by every statement of [processInput] is kept by
    [processInput]. *)
Lemma when_keeps (P : Globals -> Prop) cond body g :
  (forall g0, P g0 -> P (body g0)) -> P g -> P (when cond body g).
Proof. intros Hb Hg. unfold when. destruct (cond g); auto. Qed.

(** [processInput] writes the position, the projection toggle with its
    latch, and the close flag; nothing else. *)
Lemma processInput_frame (k : key -> key_state) (g : Globals) :
  let g' := processInput k g in
  cameraFront g' = cameraFront g /\ cameraUp g' = cameraUp g /\
  yaw g' = yaw g /\ pitch g' = pitch g /\
  lastX g' = lastX g /\ lastY g' = lastY g /\ firstMouse g' = firstMouse g /\
  deltaTime g' = deltaTime g /\ lastFrame g' = lastFrame g /\
  movementSpeed g' = movementSpeed g /\ fov g' = fov g.
Proof.
  cbv zeta.
  set (P := fun g' : Globals =>
    cameraFront g' = cameraFront g /\ cameraUp g' = cameraUp g /\
    yaw g' = yaw g /\ pitch g' = pitch g /\
    lastX g' = lastX g /\ lastY g' = lastY g /\ firstMouse g' = firstMouse g /\
    deltaTime g' = deltaTime g /\ lastFrame g' = lastFrame g /\
    movementSpeed g' = movementSpeed g /\ fov g' = fov g).
  change (P (processInput k g)). unfold processInput. cbv zeta.
  repeat (apply when_keeps; [intros g0 H; exact H |]).
  unfold P. repeat split; reflexivity.
Qed.

Lemma begin_frame_frame (t : R) (k : key -> key_state) (g : Globals) :
  let g' := begin_frame t k g in
  cameraFront g' = cameraFront g /\ cameraUp g' = cameraUp g /\
  pitch g' = pitch g /\ movementSpeed g' = movementSpeed g /\ fov g' = fov g.
Proof.
  unfold begin_frame.
  destruct (processInput_frame k
              (set_lastFrame t (set_deltaTime (t - lastFrame g) g)))
    as (Hf & Hu & _ & Hp & _ & _ & _ & _ & _ & Hm & Hv).
  cbv zeta in *. rewrite Hf, Hu, Hp, Hm, Hv. repeat split; reflexivity.
Qed.

Lemma scroll_callback_frame (xo yo : R) (g : Globals) :
  let g' := scroll_callback xo yo g in
  cameraFront g' = cameraFront g /\ cameraUp g' = cameraUp g /\
  pitch g' = pitch g /\ useOrtho g' = useOrtho g /\ pKeyPressed g' = pKeyPressed g.
Proof. simpl. repeat split; reflexivity. Qed.

Lemma mouse_callback_pitch (xpos ypos : R) (g : Globals) :
  pitch (mouse_callback xpos ypos g) =
  let lastY0 := if firstMouse g then ypos else lastY g in
  let p := pitch g + (lastY0 - ypos) * 0.12 in
  if Rlt_dec 89 p then 89 else if Rlt_dec p (-89) then -89 else p.
Proof.
  unfold mouse_callback. destruct (firstMouse g); simpl.
  - destruct (Rlt_dec 89 _); simpl.
    + destruct (Rlt_dec 89 (-89)); [lra | reflexivity].
    + destruct (Rlt_dec _ (-89)); reflexivity.
  - destruct (Rlt_dec 89 _); simpl.
    + destruct (Rlt_dec 89 (-89)); [lra | reflexivity].
    + destruct (Rlt_dec _ (-89)); reflexivity.
Qed.

Lemma mouse_callback_yaw (xpos ypos : R) (g : Globals) :
  yaw (mouse_callback xpos ypos g) =
  yaw g + (xpos - (if firstMouse g then xpos else lastX g)) * 0.12.
Proof.
  unfold mouse_callback. destruct (firstMouse g); simpl;
    destruct (Rlt_dec 89 _); simpl; destruct (Rlt_dec _ (-89)); reflexivity.
Qed.

Lemma mouse_callback_front (xpos ypos : R) (g : Globals) :
  cameraFront (mouse_callback xpos ypos g) =
  normalize (look_direction (yaw (mouse_callback xpos ypos g))
                            (pitch (mouse_callback xpos ypos g))).
Proof.
  unfold mouse_callback. destruct (firstMouse g); simpl;
    destruct (Rlt_dec 89 _); simpl; destruct (Rlt_dec _ (-89)); reflexivity.
Qed.

Lemma mouse_callback_frame (xpos ypos : R) (g : Globals) :
  let g' := mouse_callback xpos ypos g in
  cameraUp g' = cameraUp g /\ cameraPos g' = cameraPos g /\
  movementSpeed g' = movementSpeed g /\ fov g' = fov g /\
  useOrtho g' = useOrtho g /\ pKeyPressed g' = pKeyPressed g.
Proof.
  unfold mouse_callback. destruct (firstMouse g); simpl;
    destruct (Rlt_dec 89 _); simpl; destruct (Rlt_dec _ (-89));
    repeat split; reflexivity.
Qed.

Lemma mouse_callback_pitch_bounds (xpos ypos : R) (g : Globals) :
  -89 <= pitch (mouse_callback xpos ypos g) <= 89.
Proof.
  rewrite mouse_callback_pitch. cbv zeta.
  destruct (Rlt_dec 89 _); [lra |]. destruct (Rlt_dec _ (-89)); lra.
Qed.

(** Within 89 degrees of the horizon the cosine of the pitch is positive. *)
Lemma cos_pitch_pos (p : R) : -89 <= p <= 89 -> 0 < cos (radians p).
Proof.
  intros H. pose proof PI_RGT_0 as HPI.
  apply cos_gt_0; unfold radians; nra.
Qed.

(** A look direction whose pitch is within 89 degrees is not collinear
    with the world up vector. *)
Lemma look_direction_not_vertical (yaw_deg pitch_deg : R) :
  -89 <= pitch_deg <= 89 ->
  ~ collinear (normalize (look_direction yaw_deg pitch_deg)) (Vec3 0 1 0).
Proof.
  intros Hp Hc.
  rewrite (normalize_unit _ (look_direction_unit yaw_deg pitch_deg)) in Hc.
  unfold collinear, cross, look_direction in Hc; simpl in Hc.
  injection Hc as Hx _ Hz.
  pose proof (cos_pitch_pos _ Hp) as Hcos.
  pose proof (sin2_cos2 (radians yaw_deg)) as Hy. unfold Rsqr in Hy.
  assert (Hs : sin (radians yaw_deg) = 0) by nra.
  assert (Hc' : cos (radians yaw_deg) = 0) by nra.
  rewrite Hs, Hc' in Hy. lra.
Qed.

Lemma camera_ok_initial : camera_ok initial_globals.
Proof.
  unfold camera_ok, initial_globals, collinear, cross; simpl.
  repeat split; try lra.
  intros H. injection H as H _ _. lra.
Qed.

Lemma scroll_callback_bounds (xo yo : R) (g : Globals) :
  0.5 <= movementSpeed (scroll_callback xo yo g) <= 10 /\
  1 <= fov (scroll_callback xo yo g) <= 45.
Proof.
  unfold scroll_callback; simpl. split; apply clamp_bounds; lra.
Qed.

Lemma camera_ok_step (g : Globals) (e : event) : camera_ok g -> camera_ok (step g e).
Proof.
  intros (Hp & Hu & Hc & Hm & Hf). destruct e as [t k | [xpos ypos | xo yo]]; simpl.
  - destruct (begin_frame_frame t k g) as (E1 & E2 & E3 & E4 & E5).
    cbv zeta in *. unfold camera_ok. rewrite E1, E2, E3, E4, E5. auto.
  - destruct (mouse_callback_frame xpos ypos g) as (E1 & _ & E3 & E4 & _).
    cbv zeta in *. unfold camera_ok. rewrite E1, E3, E4, Hu.
    repeat split; try tauto; try apply mouse_callback_pitch_bounds.
    rewrite mouse_callback_front.
    apply look_direction_not_vertical, mouse_callback_pitch_bounds.
  - destruct (scroll_callback_frame xo yo g) as (E1 & E2 & E3 & _).
    cbv zeta in *. unfold camera_ok. rewrite E1, E2, E3.
    pose proof (scroll_callback_bounds xo yo g). tauto.
Qed.

Lemma camera_ok_run (es : list event) (g : Globals) : camera_ok g -> camera_ok (run g es).
Proof.
  revert g. induction es as [| e es IH]; intros g H; simpl.
  - exact H.
  - apply IH, camera_ok_step, H.
Qed.

(** C2.  After [mouse_callback] the camera front vector is the normalized
    Euler-angle look direction (cos yaw cos pitch, sin pitch, sin yaw cos
    pitch) of the updated yaw and pitch: the yaw advanced by 0.12 times the
    horizontal cursor movement, the pitch by 0.12 times the vertical one and
    then clamped.  That direction has length one, so normalizing leaves it
    as it is. *)
Theorem mouse_callback_look_direction (xpos ypos : R) (g : Globals) :
  let g' := mouse_callback xpos ypos g in
  let yaw' := radians (yaw g') in
  let pitch' := radians (pitch g') in
  cameraFront g' =
    normalize (Vec3 (cos yaw' * cos pitch') (sin pitch') (sin yaw' * cos pitch')) /\
  cameraFront g' = Vec3 (cos yaw' * cos pitch') (sin pitch') (sin yaw' * cos pitch') /\
  glm.length (cameraFront g') = 1 /\
  yaw g' = yaw g + (xpos - (if firstMouse g then xpos else lastX g)) * 0.12 /\
  pitch g' =
    (let p := pitch g + ((if firstMouse g then ypos else lastY g) - ypos) * 0.12 in
     if Rlt_dec 89 p then 89 else if Rlt_dec p (-89) then -89 else p).
Proof.
  cbv zeta.
  pose proof (mouse_callback_front xpos ypos g) as Hf.
  pose proof (look_direction_unit (yaw (mouse_callback xpos ypos g))
                (pitch (mouse_callback xpos ypos g))) as Hu.
  pose proof (normalize_unit _ Hu) as Hn.
  unfold look_direction in Hf, Hu, Hn.
  split; [| split; [| split; [| split]]].
  - exact Hf.
  - rewrite Hf. exact Hn.
  - unfold glm.length. rewrite Hf, Hn, Hu. apply sqrt_1.
  - apply mouse_callback_yaw.
  - apply mouse_callback_pitch.
Qed.

(** C9.  Every invocation of [mouse_callback] leaves the pitch in
    [-89, 89], whatever the state before; and in every state a run reaches
    from the initial globals the pitch is in [-89, 89] and the camera front
    vector is not collinear with the up vector (0, 1, 0). *)
Theorem pitch_stays_clamped :
  (forall xpos ypos g, -89 <= pitch (mouse_callback xpos ypos g) <= 89) /\
  (forall es,
     let g := run initial_globals es in
     -89 <= pitch g <= 89 /\
     cameraUp g = Vec3 0 1 0 /\
     ~ collinear (cameraFront g) (Vec3 0 1 0)).
Proof.
  split.
  - intros. apply mouse_callback_pitch_bounds.
  - intros es g.
    destruct (camera_ok_run es initial_globals camera_ok_initial)
      as (Hp & Hu & Hc & _).
    fold g in Hp, Hu, Hc. rewrite Hu in Hc. auto.
Qed.

(** C10.  Every invocation of [scroll_callback] leaves the movement speed
    in [0.5, 10] and the field of view in [1, 45], whatever the state before
    and whatever the offsets; hence so does every run from the initial
    globals (speed 4, fov 45). *)
Theorem scroll_stays_clamped :
  (forall xoffset yoffset g,
     let g' := scroll_callback xoffset yoffset g in
     0.5 <= movementSpeed g' <= 10 /\ 1 <= fov g' <= 45) /\
  (forall offsets : list (R * R),
     let g := fold_left (fun g o => scroll_callback (fst o) (snd o) g)
                offsets initial_globals in
     0.5 <= movementSpeed g <= 10 /\ 1 <= fov g <= 45) /\
  (forall es,
     let g := run initial_globals es in
     0.5 <= movementSpeed g <= 10 /\ 1 <= fov g <= 45).
Proof.
  split; [| split].
  - intros. apply scroll_callback_bounds.
  - intros offsets.
    assert (H : forall g0, (0.5 <= movementSpeed g0 <= 10 /\ 1 <= fov g0 <= 45) ->
              let g := fold_left (fun g o => scroll_callback (fst o) (snd o) g)
                         offsets g0 in
              0.5 <= movementSpeed g <= 10 /\ 1 <= fov g <= 45).
    { induction offsets as [| o os IH]; intros g0 H0; simpl.
      - exact H0.
      - apply IH, scroll_callback_bounds. }
    apply H. simpl. lra.
  - intros es g.
    destruct (camera_ok_run es initial_globals camera_ok_initial)
      as (_ & _ & _ & Hm & Hf).
    auto.
Qed.

Lemma moved_trans g0 g1 g2 d1 d2 :
  moved g0 g1 d1 -> moved g1 g2 d2 ->
  cameraPos g2 = cameraPos g0 +v d1 +v d2 /\
  cameraFront g2 = cameraFront g0 /\ cameraUp g2 = cameraUp g0.
Proof. intros (P1 & F1 & U1) (P2 & F2 & U2). rewrite P2, F2, U2, P1. auto. Qed.

Lemma when_moves (a : key_state) (d : Globals -> vec3) (body : Globals -> Globals) g :
  cameraPos (body g) = cameraPos g +v d g ->
  cameraFront (body g) = cameraFront g -> cameraUp (body g) = cameraUp g ->
  moved g (when (fun _ => is_press a) body g) (if_pressed a (d g)).
Proof.
  intros HP HF HU. unfold when, moved, if_pressed. destruct (is_press a).
  - auto.
  - repeat split. vec_ring.
Qed.

Lemma when_stays cond (body : Globals -> Globals) g :
  (forall g0, cameraPos (body g0) = cameraPos g0 /\
              cameraFront (body g0) = cameraFront g0 /\
              cameraUp (body g0) = cameraUp g0) ->
  moved g (when cond body g) (Vec3 0 0 0).
Proof.
  intros H. unfold when, moved. destruct (cond g).
  - destruct (H g) as (-> & -> & ->). repeat split. vec_ring.
  - repeat split. vec_ring.
Qed.

(** The position [processInput] leaves, key by key. *)
Lemma processInput_position (k : key -> key_state) (g : Globals) :
  let speed := movementSpeed g * deltaTime g in
  cameraPos (processInput k g) =
    cameraPos g
    +v if_pressed (k GLFW_KEY_W) (cameraFront g *s speed)
    -v if_pressed (k GLFW_KEY_S) (cameraFront g *s speed)
    -v if_pressed (k GLFW_KEY_A) (strafe g *s speed)
    +v if_pressed (k GLFW_KEY_D) (strafe g *s speed)
    +v if_pressed (k GLFW_KEY_Q) (Vec3 0 speed 0)
    -v if_pressed (k GLFW_KEY_E) (Vec3 0 speed 0).
Proof.
  intros speed. unfold processInput. cbv zeta. fold speed.
  set (g1 := when _ (set_windowShouldClose true) g).
  assert (H1 : moved g g1 (Vec3 0 0 0)).
  { apply when_stays. intros; repeat split; reflexivity. }
  clearbody g1.
  set (g2 := when _ _ g1).
  assert (H2 : moved g1 g2 (if_pressed (k GLFW_KEY_W) (cameraFront g1 *s speed))).
  { apply (when_moves _ (fun g => cameraFront g *s speed)); reflexivity. }
  clearbody g2.
  set (g3 := when _ _ g2).
  assert (H3 : moved g2 g3
                 (if_pressed (k GLFW_KEY_S) (Vec3 0 0 0 -v cameraFront g2 *s speed))).
  { apply (when_moves _ (fun g => Vec3 0 0 0 -v cameraFront g *s speed));
      [vec_ring | reflexivity | reflexivity]. }
  clearbody g3.
  set (g4 := when _ _ g3).
  assert (H4 : moved g3 g4
                 (if_pressed (k GLFW_KEY_A) (Vec3 0 0 0 -v strafe g3 *s speed))).
  { apply (when_moves _ (fun g => Vec3 0 0 0 -v strafe g *s speed));
      [unfold strafe; vec_ring | reflexivity | reflexivity]. }
  clearbody g4.
  set (g5 := when _ _ g4).
  assert (H5 : moved g4 g5 (if_pressed (k GLFW_KEY_D) (strafe g4 *s speed))).
  { apply (when_moves _ (fun g => strafe g *s speed)); reflexivity. }
  clearbody g5.
  set (g6 := when _ _ g5).
  assert (H6 : moved g5 g6 (if_pressed (k GLFW_KEY_Q) (Vec3 0 speed 0))).
  { apply (when_moves _ (fun _ => Vec3 0 speed 0));
      [vec_ring | reflexivity | reflexivity]. }
  clearbody g6.
  set (g7 := when _ _ g6).
  assert (H7 : moved g6 g7 (if_pressed (k GLFW_KEY_E) (Vec3 0 (- speed) 0))).
  { apply (when_moves _ (fun _ => Vec3 0 (- speed) 0));
      [vec_ring | reflexivity | reflexivity]. }
  clearbody g7.
  set (g8 := when _ _ g7).
  assert (H8 : moved g7 g8 (Vec3 0 0 0)).
  { apply when_stays. intros; repeat split; reflexivity. }
  clearbody g8.
  set (g9 := when _ _ g8).
  assert (H9 : moved g8 g9 (Vec3 0 0 0)).
  { apply when_stays. intros; repeat split; reflexivity. }
  clearbody g9.
  destruct H1 as (P1 & F1 & U1), H2 as (P2 & F2 & U2), H3 as (P3 & F3 & U3),
    H4 as (P4 & F4 & U4), H5 as (P5 & F5 & U5), H6 as (P6 & F6 & U6),
    H7 as (P7 & F7 & U7), H8 as (P8 & F8 & U8), H9 as (P9 & F9 & U9).
  assert (S3 : strafe g3 = strafe g) by (unfold strafe; congruence).
  assert (S4 : strafe g4 = strafe g) by (unfold strafe; congruence).
  rewrite P9, P8, P7, P6, P5, P4, P3, P2, P1, S3, S4, F2, F1.
  unfold if_pressed.
  destruct (is_press (k GLFW_KEY_W)), (is_press (k GLFW_KEY_S)),
    (is_press (k GLFW_KEY_A)), (is_press (k GLFW_KEY_D)),
    (is_press (k GLFW_KEY_Q)), (is_press (k GLFW_KEY_E)); vec_ring.
Qed.

(** C6, amended.  In every frame [processInput] displaces the camera
    position by minus (A) and plus (D) the strafe vector
    normalize(cross(cameraFront, cameraUp)) times movementSpeed * deltaTime,
    added to the displacements of the other keys held in that frame (W and S
    along the front vector, Q and E along the y axis); with A, respectively
    D, the only movement key held the position moves by exactly minus,
    respectively plus, that vector.  The front and up vectors are unchanged. *)
Theorem processInput_strafe (k : key -> key_state) (g : Globals) :
  let g' := processInput k g in
  let speed := movementSpeed g * deltaTime g in
  let side := normalize (cross (cameraFront g) (cameraUp g)) *s speed in
  cameraPos g' =
    cameraPos g
    +v if_pressed (k GLFW_KEY_W) (cameraFront g *s speed)
    -v if_pressed (k GLFW_KEY_S) (cameraFront g *s speed)
    -v if_pressed (k GLFW_KEY_A) side
    +v if_pressed (k GLFW_KEY_D) side
    +v if_pressed (k GLFW_KEY_Q) (Vec3 0 speed 0)
    -v if_pressed (k GLFW_KEY_E) (Vec3 0 speed 0) /\
  (k GLFW_KEY_W = GLFW_RELEASE -> k GLFW_KEY_S = GLFW_RELEASE ->
   k GLFW_KEY_Q = GLFW_RELEASE -> k GLFW_KEY_E = GLFW_RELEASE ->
   (k GLFW_KEY_A = GLFW_PRESS -> k GLFW_KEY_D = GLFW_RELEASE ->
    cameraPos g' = cameraPos g -v side) /\
   (k GLFW_KEY_D = GLFW_PRESS -> k GLFW_KEY_A = GLFW_RELEASE ->
    cameraPos g' = cameraPos g +v side)) /\
  cameraFront g' = cameraFront g /\
  cameraUp g' = cameraUp g.
Proof.
  cbv zeta. pose proof (processInput_position k g) as Hpos.
  destruct (processInput_frame k g) as (Hf & Hu & _).
  cbv zeta in *. unfold strafe in Hpos.
  split; [exact Hpos |]. split; [| split; assumption].
  intros HW HS HQ HE. rewrite Hpos, HW, HS, HQ, HE.
  split; intros H1 H2; rewrite H1, H2; unfold if_pressed; simpl; vec_ring.
Qed.

Lemma processInput_strafe_witness :
  cameraPos (processInput A_down after_one_second) =
  cameraPos after_one_second
  -v normalize (cross (cameraFront after_one_second) (cameraUp after_one_second))
     *s (movementSpeed after_one_second * deltaTime after_one_second).
Proof.
  destruct (processInput_strafe A_down after_one_second) as (_ & H & _).
  apply H; reflexivity.
Defined.

(** The claim as stated fails when another movement key is held too: with
    W and A down the camera also advances along the front vector. *)
Lemma processInput_A_and_W_pressed :
  W_and_A_down GLFW_KEY_A = GLFW_PRESS /\
  cameraPos (processInput W_and_A_down after_one_second) <>
  cameraPos after_one_second
  -v normalize (cross (cameraFront after_one_second) (cameraUp after_one_second))
     *s (movementSpeed after_one_second * deltaTime after_one_second).
Proof.
  split; [reflexivity |].
  rewrite processInput_position. intros H.
  apply (f_equal z) in H. unfold if_pressed, strafe in H. simpl in H. lra.
Qed.

(** ** Running SceneManager methods *)

Lemma bind_Some {A B} (m : M A) (k : A -> M B) w a w1 cs1 b w2 cs2 :
  m w = Some (a, w1, cs1) ->
  k a w1 = Some (b, w2, cs2) ->
  bind m k w = Some (b, w2, cs1 ++ cs2).
Proof. intros H1 H2. unfold bind. rewrite H1, H2. reflexivity. Qed.

Lemma bind_inv {A B} (m : M A) (k : A -> M B) w b w2 cs :
  bind m k w = Some (b, w2, cs) ->
  exists a w1 cs1 cs2,
    m w = Some (a, w1, cs1) /\ k a w1 = Some (b, w2, cs2) /\ cs = cs1 ++ cs2.
Proof.
  unfold bind. destruct (m w) as [[[a w1] cs1] |] eqn:E1; [| discriminate].
  destruct (k a w1) as [[[b' w2'] cs2] |] eqn:E2; [| discriminate].
  intros H. injection H as Hb Hw Hcs. subst b' w2' cs.
  exists a, w1, cs1, cs2. repeat split. exact E2.
Qed.

Lemma SetTransformations_run scaleXYZ rx ry rz positionXYZ w :
  SetTransformations scaleXYZ rx ry rz positionXYZ w =
  Some (tt, w,
        if non_null (m_pShaderManager (this w))
        then [setMat4Value "model" (model_matrix scaleXYZ rx ry rz positionXYZ)]
        else []).
Proof. destruct w as [[[|] p2 ids n mats] gen]; reflexivity. Qed.

Lemma SetTextureUVScale_run u v w :
  SetTextureUVScale u v w =
  Some (tt, w,
        if non_null (m_pShaderManager (this w))
        then [setVec2Value "UVscale" (Vec2 u v)] else []).
Proof. destruct w as [[[|] p2 ids n mats] gen]; reflexivity. Qed.

Lemma SetShaderTexture_run textureTag w i :
  slot_of (this w) textureTag = Some i ->
  SetShaderTexture textureTag w =
  Some (tt, w,
        if non_null (m_pShaderManager (this w))
        then [setIntValue "bUseTexture" 1; setSampler2DValue "objectTexture" i]
        else []).
Proof.
  destruct w as [[[|] p2 ids n mats] gen]; [reflexivity |].
  unfold slot_of, SetShaderTexture, FindTextureSlot, bind, get_this, when_non_null.
  simpl. destruct (find_texture _ _ _ _) as [[[j t] |] |]; intros H;
    try discriminate; injection H as ->; reflexivity.
Qed.

Lemma draw_run c w :
  m_basicMeshes (this w) = allocated -> draw c w = Some (tt, w, [c]).
Proof. destruct w as [[p1 p2 ids n mats] gen]; simpl. intros ->. reflexivity. Qed.

Lemma find_texture_total s tag0 (count : nat) :
  forall i, (0 <= i)%Z ->
    (i + Z.of_nat count <= Z.of_nat (List.length (m_textureIDs s)))%Z ->
    exists r, find_texture s tag0 i count = Some r.
Proof.
  induction count as [| count IH]; intros i Hi Hle; simpl.
  - eauto.
  - unfold texture_at. destruct (Z.ltb_spec i 0); [lia |].
    destruct (nth_error (m_textureIDs s) (Z.to_nat i)) as [t |] eqn:E.
    + destruct (String.eqb (tag t) tag0); [eauto |]. apply IH; lia.
    + apply nth_error_None in E. lia.
Qed.

Lemma slot_of_total s tag0 : scene_ok s -> exists i, slot_of s tag0 = Some i.
Proof.
  intros [_ H]. unfold slot_of.
  destruct (find_texture_total s tag0 (Z.to_nat (m_loadedTextures s)) 0) as [r E];
    [lia | lia |].
  rewrite E. destruct r as [[i t] |]; eauto.
Qed.

Ltac run_scene :=
  repeat (eapply bind_Some; cbv beta zeta;
          [ first [ apply SetTransformations_run
                  | apply SetTextureUVScale_run
                  | apply SetShaderTexture_run; eassumption
                  | apply draw_run; assumption ]
          | ]);
  cbv beta zeta; apply draw_run; assumption.

Lemma RenderScene_run w fl co bx :
  m_basicMeshes (this w) = allocated ->
  slot_of (this w) "floor" = Some fl ->
  slot_of (this w) "cone" = Some co ->
  slot_of (this w) "box" = Some bx ->
  exists cs,
    RenderScene w = Some (tt, w, cs) /\
    drawn cs = [Plane; Cone; Torus; Cone; Cone; Cone; Cone; Cone; Cone; Box] /\
    (m_pShaderManager (this w) = allocated ->
     map textured (draws no_uniforms cs) =
       [(Plane, Some fl, Some (Vec2 4 4));
        (Cone, Some co, Some (Vec2 4 4));
        (Torus, Some co, Some (Vec2 4 4));
        (Cone, Some co, Some (Vec2 4 4));
        (Cone, Some co, Some (Vec2 4 4));
        (Cone, Some co, Some (Vec2 4 4));
        (Cone, Some co, Some (Vec2 4 4));
        (Cone, Some co, Some (Vec2 4 4));
        (Cone, Some co, Some (Vec2 4 4));
        (Box, Some bx, Some (Vec2 4 4))]).
Proof.
  intros Hm Hfl Hco Hbx. eexists. split; [| split].
  - unfold RenderScene. cbv zeta. run_scene.
  - destruct (non_null (m_pShaderManager (this w))); reflexivity.
  - intros ->. reflexivity.
Qed.

(** ** Total runs and the calls they make *)

Lemma collect_app {A} (f : call -> option A) (cs1 cs2 : list call) :
  collect f (cs1 ++ cs2) = collect f cs1 ++ collect f cs2.
Proof.
  induction cs1 as [| c cs1 IH]; simpl; [reflexivity |].
  destruct (f c); simpl; rewrite IH; reflexivity.
Qed.

Lemma runs_bind {A B} P (m : M A) Q (k : A -> M B) R :
  runs P m Q -> (forall a, runs (Q a) (k a) R) -> runs P (bind m k) R.
Proof.
  intros Hm Hk w HP.
  destruct (Hm w HP) as (a & w1 & cs1 & E1 & HQ).
  destruct (Hk a w1 HQ) as (b & w2 & cs2 & E2 & HR).
  exists b, w2, (cs1 ++ cs2). split; [| exact HR].
  apply bind_Some with a w1; assumption.
Qed.

Lemma runs_weaken {A} (P P' : World -> Prop) (m : M A) (Q Q' : A -> World -> Prop) :
  runs P m Q -> (forall w, P' w -> P w) -> (forall a w, Q a w -> Q' a w) ->
  runs P' m Q'.
Proof.
  intros H HP HQ w Hw. destruct (H w (HP w Hw)) as (a & w' & cs & E & Q0).
  exists a, w', cs. auto.
Qed.

Lemma runs_emit P c : runs P (emit c) (fun _ w => P w).
Proof. intros w H. exists tt, w, [c]. auto. Qed.

Lemma runs_ret {A} P (a : A) : runs P (ret a) (fun _ w => P w).
Proof. intros w H. exists a, w, []. auto. Qed.

Lemma runs_get_this P : runs P get_this (fun s w => P w /\ s = this w).
Proof. intros w H. exists (this w), w, []. auto. Qed.

Lemma emits_bind {A B C} (f : call -> option C) (m : M A) (k : A -> M B) l1 l2 :
  emits f m l1 -> (forall a, emits f (k a) l2) -> emits f (bind m k) (l1 ++ l2).
Proof.
  intros Hm Hk w b w2 cs H.
  apply bind_inv in H. destruct H as (a & w1 & cs1 & cs2 & E1 & E2 & ->).
  rewrite collect_app, (Hm _ _ _ _ E1), (Hk _ _ _ _ _ E2). reflexivity.
Qed.

Lemma emits_ret {A C} (f : call -> option C) (a : A) : emits f (ret a) [].
Proof. intros w a' w' cs H. injection H as _ _ <-. reflexivity. Qed.

Lemma emits_emit {C} (f : call -> option C) c :
  emits f (emit c) (match f c with Some b => [b] | None => [] end).
Proof.
  intros w a' w' cs H. injection H as _ _ <-. simpl. destruct (f c); reflexivity.
Qed.

Lemma emits_get_this {C} (f : call -> option C) : emits f get_this [].
Proof. intros w a' w' cs H. injection H as _ _ <-. reflexivity. Qed.

Lemma emits_put_this {C} (f : call -> option C) s : emits f (put_this s) [].
Proof. intros w a' w' cs H. injection H as _ _ <-. reflexivity. Qed.

Lemma emits_undefined {A C} (f : call -> option C) l : emits f (@undefined A) l.
Proof. intros w a' w' cs H. discriminate. Qed.

Lemma emits_deref {C} (f : call -> option C) p : emits f (deref p) [].
Proof. destruct p; [apply emits_undefined | apply emits_ret]. Qed.

Lemma emits_eq {A C} (f : call -> option C) (m : M A) l l' :
  emits f m l -> l = l' -> emits f m l'.
Proof. intros H <-. exact H. Qed.

Lemma emits_for_from {C} (f : call -> option C) (body : Z -> M unit) count :
  (forall i, emits f (body i) []) -> forall i, emits f (for_from i count body) [].
Proof.
  intros Hb. induction count as [| count IH]; intros i; simpl.
  - apply emits_ret.
  - apply (emits_bind f (body i) _ [] []); [apply Hb | intros _; apply IH].
Qed.

(** ** Texture registration *)

Lemma list_set_Some {A} (l : list A) (n : nat) (a : A) :
  (n < List.length l)%nat ->
  exists l', list_set l n a = Some l' /\
    List.length l' = List.length l /\
    nth_error l' n = Some a /\
    (forall m, m <> n -> nth_error l' m = nth_error l m).
Proof.
  revert n. induction l as [| b l IH]; intros n Hn; simpl in *; [lia |].
  destruct n as [| n].
  - exists (a :: l). repeat split. intros [| m] Hm; [congruence | reflexivity].
  - destruct (IH n) as (l' & E & Hlen & Hn' & Hoth); [lia |].
    rewrite E. exists (b :: l'). simpl. repeat split; try congruence.
    intros [| m] Hm; simpl; [reflexivity | apply Hoth; congruence].
Qed.

Lemma list_set_None {A} (l : list A) (n : nat) (a : A) :
  (List.length l <= n)%nat -> list_set l n a = None.
Proof.
  revert n. induction l as [| b l IH]; intros n Hn; simpl in *; [reflexivity |].
  destruct n as [| n]; [lia |]. rewrite IH; [reflexivity | lia].
Qed.

Lemma register_texture_room textureID tag0 w :
  has_room (this w) ->
  exists s', register_texture textureID tag0 w = Some (tt, mkWorld s' (gl_generated w), []) /\
             registered (this w) s' textureID tag0.
Proof.
  destruct w as [[p1 p2 ids n mats] gen]. unfold has_room; simpl. intros Hn.
  unfold register_texture, set_texture_at; simpl.
  destruct (Z.ltb_spec n 0); [lia |].
  destruct (list_set_Some ids (Z.to_nat n) (mkTexture textureID tag0))
    as (ids' & E & Hlen & Hnth & Hoth); [lia |].
  rewrite E. eexists. split; [reflexivity |].
  unfold registered, texture_at; simpl.
  destruct (Z.ltb_spec n 0); [lia |]. repeat split; auto.
  intros i Hi. destruct (Z.ltb_spec i 0); [reflexivity |].
  apply Hoth. lia.
Qed.

Lemma register_texture_no_room textureID tag0 w :
  ~ has_room (this w) -> register_texture textureID tag0 w = None.
Proof.
  destruct w as [[p1 p2 ids n mats] gen]. unfold has_room; simpl. intros Hn.
  unfold register_texture, set_texture_at; simpl.
  destruct (Z.ltb_spec n 0); [reflexivity |].
  rewrite list_set_None; [reflexivity | lia].
Qed.

Section CreateTexture.

Variable stbi_load_result : string -> option stb_image.
Variable gl_texture_name : nat -> GLuint.

Local Abbreviation create := (CreateGLTexture stbi_load_result gl_texture_name).

(** The file cannot be read or decoded. *)
Lemma CreateGLTexture_undecodable filename tag0 w :
  stbi_load_result filename = None ->
  create filename tag0 w =
  Some (false, w, [stbi_set_flip_vertically_on_load true; stbi_load filename]).
Proof.
  intros H. unfold CreateGLTexture, bind.
  simpl. rewrite H. reflexivity.
Qed.

(** The image has neither three nor four channels: a texture name has
    been generated, the SceneManager is as before. *)
Lemma CreateGLTexture_bad_channels filename tag0 w image :
  stbi_load_result filename = Some image ->
  colorChannels image <> 3%Z -> colorChannels image <> 4%Z ->
  exists cs,
    create filename tag0 w =
    Some (false, mkWorld (this w) (S (gl_generated w)), cs) /\
    generated_textures cs = [gl_texture_name (gl_generated w)].
Proof.
  intros H H3 H4. unfold CreateGLTexture, bind.
  simpl. rewrite H. simpl.
  destruct (Z.eqb_spec (colorChannels image) 3); [contradiction |].
  destruct (Z.eqb_spec (colorChannels image) 4); [contradiction |].
  simpl. eexists. split; reflexivity.
Qed.

Lemma CreateGLTexture_loaded filename tag0 w image :
  stbi_load_result filename = Some image ->
  colorChannels image = 3%Z \/ colorChannels image = 4%Z ->
  has_room (this w) ->
  exists s' cs,
    create filename tag0 w = Some (true, mkWorld s' (S (gl_generated w)), cs) /\
    registered (this w) s' (gl_texture_name (gl_generated w)) tag0 /\
    generated_textures cs = [gl_texture_name (gl_generated w)] /\
    deleted_textures cs = [] /\ loads cs = [].
Proof.
  intros H Hc Hroom.
  destruct (register_texture_room (gl_texture_name (gl_generated w)) tag0
              (mkWorld (this w) (S (gl_generated w))) Hroom) as (s' & E & Hreg).
  simpl in E, Hreg. exists s'.
  unfold CreateGLTexture, bind.
  simpl. rewrite H. simpl.
  destruct (Z.eqb_spec (colorChannels image) 3) as [E3 | N3].
  - simpl. rewrite E. eexists.
    split; [reflexivity | split; [exact Hreg | repeat split]].
  - destruct (Z.eqb_spec (colorChannels image) 4) as [E4 | N4]; [| lia].
    simpl. rewrite E. eexists.
    split; [reflexivity | split; [exact Hreg | repeat split]].
Qed.

(** Writing past the end of [m_textureIDs] is undefined. *)
Lemma CreateGLTexture_overflow filename tag0 w image :
  stbi_load_result filename = Some image ->
  colorChannels image = 3%Z \/ colorChannels image = 4%Z ->
  ~ has_room (this w) ->
  create filename tag0 w = None.
Proof.
  intros H Hc Hroom.
  pose proof (register_texture_no_room (gl_texture_name (gl_generated w)) tag0
                (mkWorld (this w) (S (gl_generated w))) Hroom) as E.
  unfold CreateGLTexture, bind.
  simpl. rewrite H. simpl.
  destruct (Z.eqb_spec (colorChannels image) 3) as [E3 | N3].
  - simpl. rewrite E. reflexivity.
  - destruct (Z.eqb_spec (colorChannels image) 4) as [E4 | N4]; [| lia].
    simpl. rewrite E. reflexivity.
Qed.

End CreateTexture.

(** ** [PrepareScene] returns *)

Lemma runs_deref P p :
  (forall w, P w -> p = allocated) -> runs P (deref p) (fun _ w => P w).
Proof.
  intros H w Hw. rewrite (H w Hw). exists tt, w, []. auto.
Qed.

Lemma runs_push_back k material :
  runs (room k) (push_back material) (fun _ w => room k w).
Proof.
  intros [[p1 p2 ids n mats] gen] H. eexists _, _, _. split; [reflexivity | exact H].
Qed.

Section Prepare.

Variable stbi_load_result : string -> option stb_image.
Variable gl_texture_name : nat -> GLuint.

Lemma runs_CreateGLTexture k filename tag0 :
  (0 <= k)%Z ->
  runs (room (k + 1))
    (CreateGLTexture stbi_load_result gl_texture_name filename tag0)
    (fun _ w => room k w).
Proof.
  intros Hk w (Hs & Hm & H0 & Hn).
  destruct (stbi_load_result filename) as [image |] eqn:E.
  - destruct (Z.eq_dec (colorChannels image) 3) as [E3 | N3];
      [| destruct (Z.eq_dec (colorChannels image) 4) as [E4 | N4]].
    1, 2:
      destruct (CreateGLTexture_loaded stbi_load_result gl_texture_name
                  filename tag0 w image E) as (s' & cs & Hrun & Hreg & _);
      [ auto | unfold has_room; lia
      | destruct Hreg as (R1 & _ & _ & R4 & R5 & R6 & _);
        exists true, (mkWorld s' (S (gl_generated w))), cs;
        split; [exact Hrun |]; unfold room; simpl;
        rewrite R1, R4, R5, R6; repeat split; auto; lia ].
    destruct (CreateGLTexture_bad_channels stbi_load_result gl_texture_name
                filename tag0 w image E N3 N4) as (cs & Hrun & _).
    exists false, (mkWorld (this w) (S (gl_generated w))), cs.
    split; [exact Hrun |]. unfold room; simpl. repeat split; auto; lia.
  - exists false, w, [stbi_set_flip_vertically_on_load true; stbi_load filename].
    split; [apply CreateGLTexture_undecodable; exact E |].
    unfold room. repeat split; auto; lia.
Qed.

Lemma for_from_bind_textures s w (count : nat) :
  forall i, (0 <= i)%Z ->
    (i + Z.of_nat count <= Z.of_nat (List.length (m_textureIDs s)))%Z ->
    exists cs,
      for_from i count (fun i =>
        emit (glActiveTexture i) ;;
        match texture_at s i with
        | Some t => emit (glBindTexture (ID t))
        | None => undefined
        end) w = Some (tt, w, cs).
Proof.
  induction count as [| count IH]; intros i Hi Hle; simpl.
  - eexists. reflexivity.
  - destruct (IH (i + 1)%Z) as (cs & E); [lia | lia |].
    unfold texture_at at 1. destruct (Z.ltb_spec i 0); [lia |].
    destruct (nth_error (m_textureIDs s) (Z.to_nat i)) as [t |] eqn:En.
    + eexists. eapply bind_Some; [reflexivity | exact E].
    + apply nth_error_None in En. lia.
Qed.

Lemma runs_BindGLTextures : runs (room 0) BindGLTextures (fun _ w => room 0 w).
Proof.
  intros w H. pose proof H as (_ & _ & H0 & Hn).
  destruct (for_from_bind_textures (this w) w
              (Z.to_nat (m_loadedTextures (this w))) 0) as (cs & E); [lia | lia |].
  exists tt, w, ([] ++ cs). split; [| exact H].
  unfold BindGLTextures. eapply bind_Some; [reflexivity | exact E].
Qed.

Ltac runs_emits :=
  repeat (eapply runs_bind; [apply runs_emit | intros ?; cbv beta]).

Lemma PrepareScene_runs :
  runs (room 3) (PrepareScene stbi_load_result gl_texture_name)
    (fun _ w => room 0 w).
Proof.
  unfold PrepareScene.
  do 6 (eapply runs_bind; [apply runs_push_back | intros ?; cbv beta]).
  eapply runs_bind; [apply runs_get_this | intros s; cbv beta].
  eapply runs_bind;
    [apply runs_deref; intros w [(H & _) E]; rewrite E; exact H | intros ?; cbv beta].
  runs_emits.
  eapply runs_bind;
    [apply runs_deref; intros w [(_ & H & _) E]; rewrite E; exact H
    | intros ?; cbv beta].
  runs_emits.
  eapply runs_bind;
    [ eapply runs_weaken;
      [ apply (runs_CreateGLTexture 2); lia
      | intros w [H _]; exact H
      | intros r w H; exact H ]
    | intros ?; cbv beta ].
  eapply runs_bind; [apply (runs_CreateGLTexture 1); lia | intros ?; cbv beta].
  eapply runs_bind; [apply (runs_CreateGLTexture 0); lia | intros ?; cbv beta].
  apply runs_BindGLTextures.
Qed.

End Prepare.

(** ** Which calls a run can contain *)

Lemma emits_gen_texture {C} (f : call -> option C) gl_texture_name :
  (forall t, f (glGenTextures t) = None) -> emits f (gen_texture gl_texture_name) [].
Proof.
  intros Hf w a w' cs H. unfold gen_texture in H. injection H as _ _ <-.
  simpl. rewrite Hf. reflexivity.
Qed.

Lemma emits_register_texture {C} (f : call -> option C) textureID tag0 :
  emits f (register_texture textureID tag0) [].
Proof.
  intros w a w' cs H. unfold register_texture in H.
  destruct (set_texture_at _ _ _); [| discriminate].
  injection H as _ _ <-. reflexivity.
Qed.

Lemma emits_FindTextureSlot {C} (f : call -> option C) tag0 :
  emits f (FindTextureSlot tag0) [].
Proof.
  intros w a w' cs H. unfold FindTextureSlot in H.
  destruct (find_texture _ _ _ _) as [[[i t] |] |]; try discriminate;
    injection H as _ _ <-; reflexivity.
Qed.

Ltac emits_case :=
  match goal with
  | |- emits _ (when_non_null ?p _) _ => unfold when_non_null; destruct (non_null p)
  | |- emits _ (match ?c with _ => _ end) _ => destruct c
  end.

Ltac emits_bind_step :=
  eapply emits_eq; [eapply emits_bind; [| intros ?] |].

Ltac emits_leaf :=
  first
    [ apply emits_ret
    | apply emits_get_this
    | apply emits_put_this
    | apply emits_deref
    | apply emits_undefined
    | apply emits_FindTextureSlot
    | apply emits_register_texture
    | apply emits_gen_texture; intros; reflexivity
    | eapply emits_eq; [apply emits_emit | cbn; reflexivity] ].

(** Solves [emits f m l] for a method built from binds, emits, pointer
    tests and the primitives above; [more] handles the calls of other
    methods. *)
Ltac emits_with more :=
  repeat (lazymatch goal with
          | |- emits _ _ _ => first [ more | emits_leaf | emits_case | emits_bind_step ]
          end);
  try reflexivity.

Section NoAccidentalCalls.

Variable stbi_load_result : string -> option stb_image.
Variable gl_texture_name : nat -> GLuint.

Variable C : Type.
Variable f : call -> option C.

(** [f] looks at mesh loading or at texture deletion only. *)
Hypothesis f_only :
  forall c, f c <> None ->
    (exists t, c = glDeleteTextures t) \/
    c = LoadPlaneMesh \/ c = LoadConeMesh \/ c = LoadTorusMesh \/ c = LoadBoxMesh.

Lemma f_other c :
  match c with
  | glDeleteTextures _ | LoadPlaneMesh | LoadConeMesh | LoadTorusMesh
  | LoadBoxMesh => True
  | _ => f c = None
  end.
Proof.
  destruct c; try exact I;
    (destruct (f _) eqn:E; [| reflexivity]);
    (exfalso;
     match type of E with
     | f ?c0 = _ =>
         destruct (f_only c0 ltac:(congruence)) as [[t H] | [H | [H | [H | H]]]]
     end; discriminate).
Qed.

Lemma emits_other c :
  match c with
  | glDeleteTextures _ | LoadPlaneMesh | LoadConeMesh | LoadTorusMesh
  | LoadBoxMesh => True
  | _ => emits f (emit c) []
  end.
Proof.
  pose proof (f_other c) as H.
  destruct c; try exact I;
    (eapply emits_eq; [apply emits_emit | rewrite H; reflexivity]).
Qed.

Ltac other :=
  idtac;
  match goal with
  | |- emits f (emit ?c) _ => apply (emits_other c)
  | |- emits f (gen_texture _) _ =>
      apply emits_gen_texture; intros t; apply (f_other (glGenTextures t))
  end.

Lemma emits_CreateGLTexture filename tag0 :
  emits f (CreateGLTexture stbi_load_result gl_texture_name filename tag0) [].
Proof. unfold CreateGLTexture. cbv zeta. emits_with other. Qed.

Lemma emits_BindGLTextures : emits f BindGLTextures [].
Proof.
  unfold BindGLTextures, for_loop.
  eapply emits_eq; [eapply emits_bind; [apply emits_get_this | intros s] |
                    reflexivity].
  apply emits_for_from. intros i. emits_with other.
Qed.

Lemma emits_SetTransformations sc rx ry rz p :
  emits f (SetTransformations sc rx ry rz p) [].
Proof. unfold SetTransformations. cbv zeta. emits_with other. Qed.

Lemma emits_SetShaderTexture t : emits f (SetShaderTexture t) [].
Proof. unfold SetShaderTexture. emits_with other. Qed.

Lemma emits_SetTextureUVScale u v : emits f (SetTextureUVScale u v) [].
Proof. unfold SetTextureUVScale. emits_with other. Qed.

Lemma emits_draw c : f c = None -> emits f (draw c) [].
Proof.
  intros H. unfold draw.
  eapply emits_eq;
    [ eapply emits_bind; [apply emits_get_this | intros s];
      eapply emits_bind; [apply emits_deref | intros ?]; apply emits_emit
    | rewrite H; reflexivity ].
Qed.

Ltac scene_method :=
  idtac;
  first [ apply emits_SetTransformations
        | apply emits_SetShaderTexture
        | apply emits_SetTextureUVScale
        | apply emits_draw;
          match goal with |- f ?c = None => apply (f_other c) end
        | apply emits_CreateGLTexture
        | apply emits_BindGLTextures
        | other ].

Lemma emits_PrepareScene :
  emits f (PrepareScene stbi_load_result gl_texture_name)
    (collect f [LoadPlaneMesh; LoadConeMesh; LoadTorusMesh; LoadBoxMesh]).
Proof.
  unfold PrepareScene, push_back. emits_with scene_method.
  simpl. destruct (f LoadPlaneMesh), (f LoadConeMesh), (f LoadTorusMesh),
    (f LoadBoxMesh); reflexivity.
Qed.

Lemma emits_RenderScene : emits f RenderScene [].
Proof. unfold RenderScene. cbv zeta. emits_with scene_method. Qed.

Lemma emits_SceneManager_delete : emits f SceneManager_delete [].
Proof. unfold SceneManager_delete. emits_with other. Qed.

Lemma emits_loop_body frame g : emits f (loop_body frame g) [].
Proof.
  unfold loop_body. cbv zeta.
  emits_with ltac:(idtac; first [apply emits_RenderScene | other]).
Qed.

Lemma emits_main_loop fs : forall g, emits f (main_loop fs g) [].
Proof.
  induction fs as [| frame fs IH]; intros g; simpl;
    destruct (windowShouldClose g); try apply emits_ret.
  eapply emits_eq;
    [eapply emits_bind; [apply emits_loop_body | intros g'; apply IH] | reflexivity].
Qed.

Lemma emits_shutdown : emits f shutdown [].
Proof.
  unfold shutdown.
  emits_with ltac:(idtac; first [apply emits_SceneManager_delete | other]).
Qed.

End NoAccidentalCalls.

(** ** The claims about the SceneManager *)

(** C1.  With a shader manager attached, [SetTransformations] sends the
    shader, as its "model" matrix, the product translate(position) * rotateX
    * rotateY * rotateZ * scale, and changes nothing else.  Applied to a
    vertex the product scales first, then rotates about Z, then Y, then X,
    and translates last. *)
Theorem SetTransformations_model
  (scaleXYZ : vec3) (Xdeg Ydeg Zdeg : R) (positionXYZ : vec3) (w : World) :
  m_pShaderManager (this w) = allocated ->
  let T := translate positionXYZ in
  let RX := rotate (radians Xdeg) (Vec3 1 0 0) in
  let RY := rotate (radians Ydeg) (Vec3 0 1 0) in
  let RZ := rotate (radians Zdeg) (Vec3 0 0 1) in
  let S := scale scaleXYZ in
  SetTransformations scaleXYZ Xdeg Ydeg Zdeg positionXYZ w =
    Some (tt, w, [setMat4Value "model" (T *m RX *m RY *m RZ *m S)]) /\
  (forall v, mulv (T *m RX *m RY *m RZ *m S) v =
             mulv T (mulv RX (mulv RY (mulv RZ (mulv S v))))) /\
  (forall v, mulv S v =
             Vec4 (x scaleXYZ * x4 v) (y scaleXYZ * y4 v) (z scaleXYZ * z4 v) (w4 v)) /\
  (forall v, mulv RZ v =
             Vec4 (cos (radians Zdeg) * x4 v - sin (radians Zdeg) * y4 v)
                  (sin (radians Zdeg) * x4 v + cos (radians Zdeg) * y4 v)
                  (z4 v) (w4 v)) /\
  (forall v, mulv RY v =
             Vec4 (cos (radians Ydeg) * x4 v + sin (radians Ydeg) * z4 v)
                  (y4 v)
                  (cos (radians Ydeg) * z4 v - sin (radians Ydeg) * x4 v) (w4 v)) /\
  (forall v, mulv RX v =
             Vec4 (x4 v)
                  (cos (radians Xdeg) * y4 v - sin (radians Xdeg) * z4 v)
                  (sin (radians Xdeg) * y4 v + cos (radians Xdeg) * z4 v) (w4 v)) /\
  (forall v, mulv T v =
             Vec4 (x4 v + x positionXYZ * w4 v) (y4 v + y positionXYZ * w4 v)
                  (z4 v + z positionXYZ * w4 v) (w4 v)).
Proof.
  intros H T RX RY RZ S.
  split; [| split; [| split; [| split; [| split; [| split]]]]].
  - rewrite SetTransformations_run, H. reflexivity.
  - intros v. rewrite !mulv_mul. reflexivity.
  - apply mulv_scale.
  - apply mulv_rotate_Z.
  - apply mulv_rotate_Y.
  - apply mulv_rotate_X.
  - apply mulv_translate.
Qed.

Lemma SetTransformations_model_witness :
  SetTransformations (Vec3 1.6 1.6 1.6) 90 0 0 (Vec3 0 1 3) fresh_world =
  Some (tt, fresh_world,
        [setMat4Value "model"
           (translate (Vec3 0 1 3) *m rotate (radians 90) (Vec3 1 0 0) *m
            rotate (radians 0) (Vec3 0 1 0) *m rotate (radians 0) (Vec3 0 0 1) *m
            scale (Vec3 1.6 1.6 1.6))]).
Proof.
  exact (proj1 (SetTransformations_model (Vec3 1.6 1.6 1.6) 90 0 0 (Vec3 0 1 3)
                  fresh_world eq_refl)).
Defined.

(** C7.  [RenderScene] returns the world it was given: the SceneManager
    (textures, materials, mesh pointer) is not modified; so a second
    invocation makes the same calls as the first. *)
Theorem RenderScene_static (w : World) :
  scene_ok (this w) ->
  exists cs,
    RenderScene w = Some (tt, w, cs) /\
    (RenderScene ;; RenderScene) w = Some (tt, w, cs ++ cs).
Proof.
  intros Hok. pose proof Hok as [Hm _].
  destruct (slot_of_total (this w) "floor" Hok) as [fl Hfl].
  destruct (slot_of_total (this w) "cone" Hok) as [co Hco].
  destruct (slot_of_total (this w) "box" Hok) as [bx Hbx].
  destruct (RenderScene_run w fl co bx Hm Hfl Hco Hbx) as (cs & Hrun & _).
  exists cs. split; [exact Hrun |].
  apply bind_Some with tt w; exact Hrun.
Qed.

Lemma scene_ok_fresh : scene_ok (this fresh_world).
Proof. split; [reflexivity | simpl; lia]. Qed.

Lemma RenderScene_static_witness :
  exists cs,
    RenderScene fresh_world = Some (tt, fresh_world, cs) /\
    (RenderScene ;; RenderScene) fresh_world = Some (tt, fresh_world, cs ++ cs).
Proof. exact (RenderScene_static fresh_world scene_ok_fresh). Defined.

Lemma room_scene_ok w : room 0 w -> scene_ok (this w).
Proof. intros (_ & H & _ & Hn). split; [exact H | lia]. Qed.

(** A usable image is uploaded, in one of the two formats, and the texture
    registered in the first free slot. *)
Lemma CreateGLTexture_usable
  (stbi_load_result : string -> option stb_image) (gl_texture_name : nat -> GLuint)
  (filename : string) :
  usable stbi_load_result filename = true ->
  exists image format,
    forall tag0 w,
      CreateGLTexture stbi_load_result gl_texture_name filename tag0 w =
      match register_texture (gl_texture_name (gl_generated w)) tag0
              (mkWorld (this w) (S (gl_generated w))) with
      | Some (_, w', _) =>
          Some (true, w',
                [stbi_set_flip_vertically_on_load true; stbi_load filename;
                 glGenTextures (gl_texture_name (gl_generated w));
                 glBindTexture (gl_texture_name (gl_generated w));
                 glTexParameteri GL_TEXTURE_WRAP_S GL_REPEAT;
                 glTexParameteri GL_TEXTURE_WRAP_T GL_REPEAT;
                 glTexParameteri GL_TEXTURE_MIN_FILTER GL_LINEAR;
                 glTexParameteri GL_TEXTURE_MAG_FILTER GL_LINEAR;
                 glTexImage2D format (width image) (height image);
                 glGenerateMipmap; stbi_image_free; glBindTexture 0%Z])
      | None => None
      end.
Proof.
  unfold usable. destruct (stbi_load_result filename) as [image |] eqn:E;
    [| discriminate].
  intros Hc. exists image.
  destruct (colorChannels image =? 3)%Z eqn:E3;
    [exists GL_RGB8_RGB | exists GL_RGBA8_RGBA];
    intros tag0 w; unfold CreateGLTexture, bind; simpl; rewrite E; simpl;
    rewrite E3; simpl in Hc |- *; rewrite ?Hc; simpl;
    unfold register_texture;
    destruct (set_texture_at _ _ _); reflexivity.
Qed.

(** Evaluating the accesses to a texture table whose first slots are
    explicit. *)
Ltac run_table :=
  unfold register_texture, set_texture_at, set_loadedTextures;
  cbn -[CreateGLTexture BindGLTextures Pos.to_nat];
  repeat first [ progress change (Pos.to_nat 1) with 1%nat
               | progress change (Pos.to_nat 2) with 2%nat
               | progress change (Pos.to_nat 3) with 3%nat ];
  cbn -[CreateGLTexture BindGLTextures Pos.to_nat].

(** C4, amended.  From a SceneManager with a shader manager and room for
    three textures, [PrepareScene] returns and loads each of the four meshes
    exactly once; every [RenderScene] afterwards leaves the SceneManager as
    it is and draws, in this order, one plane with the texture slot of
    "floor" and UV scale 4 x 4, a cone, the torus and six more cones with
    the slot of "cone", and one box with the slot of "box": seven cones in
    all.  When no texture was loaded before and the three image files
    decode with three or four channels, these slots are 0, 1 and 2,
    [PrepareScene] has uploaded brick.jpg, breadcrust.jpg and
    gold-seamless-texture.jpg into the three textures it generated and left
    them bound to units 0, 1 and 2, so that the plane samples the floor
    texture, the cones and the torus the cone texture and the box the box
    texture. *)
Theorem scene_drawn
  (stbi_load_result : string -> option stb_image) (gl_texture_name : nat -> GLuint)
  (w : World) :
  room 3 w ->
  exists w1 cs1,
    PrepareScene stbi_load_result gl_texture_name w = Some (tt, w1, cs1) /\
    loads cs1 = [Plane; Cone; Torus; Box] /\
    exists cs2 fl co bx,
      RenderScene w1 = Some (tt, w1, cs2) /\
      slot_of (this w1) "floor" = Some fl /\
      slot_of (this w1) "cone" = Some co /\
      slot_of (this w1) "box" = Some bx /\
      map textured (draws no_uniforms cs2) =
        [(Plane, Some fl, Some (Vec2 4 4));
         (Cone, Some co, Some (Vec2 4 4));
         (Torus, Some co, Some (Vec2 4 4));
         (Cone, Some co, Some (Vec2 4 4));
         (Cone, Some co, Some (Vec2 4 4));
         (Cone, Some co, Some (Vec2 4 4));
         (Cone, Some co, Some (Vec2 4 4));
         (Cone, Some co, Some (Vec2 4 4));
         (Cone, Some co, Some (Vec2 4 4));
         (Box, Some bx, Some (Vec2 4 4))] /\
      count_mesh Plane (drawn cs2) = 1%nat /\
      count_mesh Cone (drawn cs2) = 7%nat /\
      count_mesh Torus (drawn cs2) = 1%nat /\
      count_mesh Box (drawn cs2) = 1%nat /\
      (m_loadedTextures (this w) = 0%Z ->
       usable stbi_load_result "../../Utilities/textures/brick.jpg" = true ->
       usable stbi_load_result "../../Utilities/textures/breadcrust.jpg" = true ->
       usable stbi_load_result
         "../../Utilities/textures/gold-seamless-texture.jpg" = true ->
       let floor_texture := gl_texture_name (gl_generated w) in
       let cone_texture := gl_texture_name (S (gl_generated w)) in
       let box_texture := gl_texture_name (S (S (gl_generated w))) in
       fl = 0%Z /\ co = 1%Z /\ bx = 2%Z /\
       uploads cs1 =
         [("../../Utilities/textures/brick.jpg"%string, floor_texture);
          ("../../Utilities/textures/breadcrust.jpg"%string, cone_texture);
          ("../../Utilities/textures/gold-seamless-texture.jpg"%string, box_texture)] /\
       sampled (cs1 ++ cs2) =
         [(Plane, Some floor_texture);
          (Cone, Some cone_texture);
          (Torus, Some cone_texture);
          (Cone, Some cone_texture);
          (Cone, Some cone_texture);
          (Cone, Some cone_texture);
          (Cone, Some cone_texture);
          (Cone, Some cone_texture);
          (Cone, Some cone_texture);
          (Box, Some box_texture)]).
Proof.
  intros Hroom.
  destruct (PrepareScene_runs stbi_load_result gl_texture_name w Hroom)
    as ([] & w1 & cs1 & Hrun1 & Hroom1).
  exists w1, cs1. split; [exact Hrun1 |]. split.
  - apply (emits_PrepareScene stbi_load_result gl_texture_name mesh loaded_mesh)
      in Hrun1; [exact Hrun1 |].
    intros c Hc. destruct c; simpl in Hc; try congruence; auto.
  - pose proof (room_scene_ok w1 Hroom1) as Hok.
    destruct Hroom1 as (Hs & Hm & _).
    destruct (slot_of_total (this w1) "floor" Hok) as [fl Hfl].
    destruct (slot_of_total (this w1) "cone" Hok) as [co Hco].
    destruct (slot_of_total (this w1) "box" Hok) as [bx Hbx].
    eexists _, fl, co, bx.
    split; [unfold RenderScene; cbv zeta; run_scene |].
    rewrite Hs. cbn [non_null].
    do 3 (split; [assumption |]).
    do 5 (split; [reflexivity |]).
    intros Hn Hu1 Hu2 Hu3.
    destruct (CreateGLTexture_usable stbi_load_result gl_texture_name _ Hu1)
      as (image1 & format1 & E1).
    destruct (CreateGLTexture_usable stbi_load_result gl_texture_name _ Hu2)
      as (image2 & format2 & E2).
    destruct (CreateGLTexture_usable stbi_load_result gl_texture_name _ Hu3)
      as (image3 & format3 & E3).
    destruct w as [[p1 p2 ids n mats] gen].
    destruct Hroom as (Hp1 & Hp2 & _ & Hlen). simpl in Hp1, Hp2, Hn, Hlen.
    subst p1 p2 n.
    destruct ids as [| t0 [| t1 [| t2 rest]]]; simpl in Hlen; try lia.
    match type of Hrun1 with
    | PrepareScene _ _ ?w0 = _ =>
        eassert (E : PrepareScene stbi_load_result gl_texture_name w0 = Some (tt, _, _))
    end.
    { unfold PrepareScene, bind.
      cbn -[CreateGLTexture BindGLTextures]. rewrite E1. run_table.
      rewrite E2. run_table. rewrite E3. run_table.
      unfold BindGLTextures, for_loop, texture_at, bind. run_table.
      reflexivity. }
    rewrite E in Hrun1. injection Hrun1 as <- <-.
    cbn in Hfl, Hco, Hbx.
    injection Hfl as <-. injection Hco as <-. injection Hbx as <-.
    cbv zeta. cbn [gl_generated].
    do 3 (split; [reflexivity |]).
    split; reflexivity.
Qed.

Lemma room_fresh : room 3 fresh_world.
Proof. unfold room, fresh_world; simpl. repeat split; lia. Qed.

Lemma scene_drawn_witness :
  exists w1 cs1 cs2,
    PrepareScene rgb_images counting_names fresh_world = Some (tt, w1, cs1) /\
    loads cs1 = [Plane; Cone; Torus; Box] /\
    RenderScene w1 = Some (tt, w1, cs2) /\
    count_mesh Cone (drawn cs2) = 7%nat /\
    sampled (cs1 ++ cs2) =
      [(Plane, Some 1%Z); (Cone, Some 2%Z); (Torus, Some 2%Z); (Cone, Some 2%Z);
       (Cone, Some 2%Z); (Cone, Some 2%Z); (Cone, Some 2%Z); (Cone, Some 2%Z);
       (Cone, Some 2%Z); (Box, Some 3%Z)].
Proof.
  destruct (scene_drawn rgb_images counting_names fresh_world room_fresh)
    as (w1 & cs1 & H1 & H2 & cs2 & fl & co & bx & H3 & _ & _ & _ & _ & _ & H4 & _ & _ & H5).
  destruct (H5 eq_refl eq_refl eq_refl eq_refl) as (_ & _ & _ & _ & H6).
  exists w1, cs1, cs2.
  split; [exact H1 |]. split; [exact H2 |]. split; [exact H3 |].
  split; [exact H4 | exact H6].
Defined.

(** The claim counts six cones; the scene has seven. *)
Lemma RenderScene_not_six_cones :
  exists w1 cs1 cs2,
    PrepareScene rgb_images counting_names fresh_world = Some (tt, w1, cs1) /\
    RenderScene w1 = Some (tt, w1, cs2) /\
    count_mesh Cone (drawn cs2) <> 6%nat.
Proof.
  destruct (PrepareScene_runs rgb_images counting_names fresh_world room_fresh)
    as ([] & w1 & cs1 & Hrun1 & Hroom1).
  pose proof (room_scene_ok w1 Hroom1) as Hok.
  destruct Hroom1 as (Hs & Hm & _).
  destruct (slot_of_total (this w1) "floor" Hok) as [fl Hfl].
  destruct (slot_of_total (this w1) "cone" Hok) as [co Hco].
  destruct (slot_of_total (this w1) "box" Hok) as [bx Hbx].
  destruct (RenderScene_run w1 fl co bx Hm Hfl Hco Hbx) as (cs2 & Hrun2 & Hd & _).
  exists w1, cs1, cs2. rewrite Hd. repeat split; try assumption.
  simpl. discriminate.
Qed.

(** ** Looking a registered texture up *)

Lemma find_texture_ext s s' tag0 (count : nat) :
  forall i,
    (forall j, (i <= j < i + Z.of_nat count)%Z -> texture_at s' j = texture_at s j) ->
    find_texture s' tag0 i count = find_texture s tag0 i count.
Proof.
  induction count as [| count IH]; intros i H; simpl; [reflexivity |].
  rewrite H by lia. destruct (texture_at s i) as [t |]; [| reflexivity].
  destruct (String.eqb (tag t) tag0); [reflexivity |].
  apply IH. intros j Hj. apply H. lia.
Qed.

Lemma find_texture_last s tag0 t (count : nat) :
  forall i j,
    j = (i + Z.of_nat count)%Z ->
    find_texture s tag0 i count = Some None ->
    texture_at s j = Some t ->
    tag t = tag0 ->
    find_texture s tag0 i (S count) = Some (Some (j, t)).
Proof.
  induction count as [| count IH]; intros i j Hj Hnone Hat Htag.
  - assert (E : j = i) by lia. clear Hj. subst j. simpl.
    rewrite Hat, Htag, String.eqb_refl. reflexivity.
  - simpl in Hnone.
    change (find_texture s tag0 i (S (S count)))
      with (match texture_at s i with
            | None => None
            | Some t0 =>
                if String.eqb (tag t0) tag0 then Some (Some (i, t0))
                else find_texture s tag0 (i + 1) (S count)
            end).
    destruct (texture_at s i) as [t0 |]; [| discriminate].
    destruct (String.eqb (tag t0) tag0); [discriminate |].
    apply IH; [lia | assumption ..].
Qed.

(** A texture registered under a tag not used before is found under that
    tag, in the slot it was given. *)
Lemma registered_found s s' textureID tag0 :
  (0 <= m_loadedTextures s)%Z ->
  registered s s' textureID tag0 ->
  slot_of s tag0 = Some (-1)%Z ->
  slot_of s' tag0 = Some (m_loadedTextures s).
Proof.
  intros H0 (Hn & Hat & Hother & _) Hslot. unfold slot_of in *.
  rewrite Hn. replace (Z.to_nat (m_loadedTextures s + 1))
    with (S (Z.to_nat (m_loadedTextures s))) by lia.
  assert (Hnone : find_texture s tag0 0 (Z.to_nat (m_loadedTextures s)) = Some None).
  { destruct (find_texture s tag0 0 (Z.to_nat (m_loadedTextures s)))
      as [[[i t] |] |] eqn:E; try discriminate; [| reflexivity].
    exfalso. injection Hslot as Hi. subst i.
    clear - E. assert (G : forall count j r t0,
      (0 <= j)%Z -> find_texture s tag0 j count = Some (Some (r, t0)) -> (0 <= r)%Z).
    { induction count as [| count IH]; intros j r t0 Hj Hf; simpl in Hf;
        [discriminate |].
      destruct (texture_at s j) as [t1 |]; [| discriminate].
      destruct (String.eqb (tag t1) tag0).
      - injection Hf as <- _. exact Hj.
      - apply (IH (j + 1)%Z r t0); [lia | exact Hf]. }
    specialize (G _ _ _ _ (Z.le_refl 0) E). lia. }
  rewrite <- (find_texture_ext s s') in Hnone by (intros j Hj; apply Hother; lia).
  rewrite (find_texture_last s' tag0 (mkTexture textureID tag0) _ 0
             (m_loadedTextures s)); [reflexivity | lia | exact Hnone | exact Hat |].
  reflexivity.
Qed.

(** C8.  [CreateGLTexture] returns false and leaves the SceneManager, with
    its texture table and count, as it was when the file does not decode or
    the image has neither three nor four channels.  When the image decodes
    with three or four channels and the table has a free slot it returns
    true, the count grows by exactly one and the free slot holds the new
    texture name under the given tag (where a lookup of a tag not used
    before finds it), the other slots being unchanged.  Whatever it returns,
    true goes with that registration and false with an unchanged
    SceneManager. *)
Theorem CreateGLTexture_registry
  (stbi_load_result : string -> option stb_image) (gl_texture_name : nat -> GLuint)
  (filename tag0 : string) (w : World) :
  let create := CreateGLTexture stbi_load_result gl_texture_name filename tag0 in
  let textureID := gl_texture_name (gl_generated w) in
  (stbi_load_result filename = None \/
   (exists image, stbi_load_result filename = Some image /\
                  colorChannels image <> 3%Z /\ colorChannels image <> 4%Z) ->
   exists w' cs, create w = Some (false, w', cs) /\ this w' = this w) /\
  (forall image,
     stbi_load_result filename = Some image ->
     colorChannels image = 3%Z \/ colorChannels image = 4%Z ->
     has_room (this w) ->
     exists w' cs,
       create w = Some (true, w', cs) /\
       generated_textures cs = [textureID] /\
       m_loadedTextures (this w') = (m_loadedTextures (this w) + 1)%Z /\
       texture_at (this w') (m_loadedTextures (this w)) = Some (mkTexture textureID tag0) /\
       (forall i, i <> m_loadedTextures (this w) ->
                  texture_at (this w') i = texture_at (this w) i) /\
       (slot_of (this w) tag0 = Some (-1)%Z ->
        slot_of (this w') tag0 = Some (m_loadedTextures (this w)))) /\
  (forall b w' cs,
     create w = Some (b, w', cs) ->
     if b then registered (this w) (this w') textureID tag0
     else this w' = this w).
Proof.
  intros create textureID. split; [| split].
  - intros [Hnone | (image & Himg & H3 & H4)].
    + exists w, [stbi_set_flip_vertically_on_load true; stbi_load filename].
      split; [apply CreateGLTexture_undecodable; exact Hnone | reflexivity].
    + destruct (CreateGLTexture_bad_channels stbi_load_result gl_texture_name
                  filename tag0 w image Himg H3 H4) as (cs & Hrun & _).
      exists (mkWorld (this w) (S (gl_generated w))), cs.
      split; [exact Hrun | reflexivity].
  - intros image Himg Hc Hroom.
    destruct (CreateGLTexture_loaded stbi_load_result gl_texture_name
                filename tag0 w image Himg Hc Hroom)
      as (s' & cs & Hrun & Hreg & Hgen & _).
    exists (mkWorld s' (S (gl_generated w))), cs.
    pose proof Hreg as (R1 & R2 & R3 & _).
    repeat (split; [assumption |]). simpl.
    apply (registered_found (this w) s' textureID tag0); [apply Hroom | exact Hreg].
  - intros b w' cs Hrun. unfold create in Hrun.
    destruct (stbi_load_result filename) as [image |] eqn:Himg.
    + destruct (Z.eq_dec (colorChannels image) 3) as [E3 | N3];
        [| destruct (Z.eq_dec (colorChannels image) 4) as [E4 | N4]].
      1, 2:
        assert (Hc : colorChannels image = 3%Z \/ colorChannels image = 4%Z) by auto;
        destruct (Z_le_dec 0 (m_loadedTextures (this w))) as [H0 |];
        [ destruct (Z_lt_dec (m_loadedTextures (this w))
                      (Z.of_nat (List.length (m_textureIDs (this w))))) as [Hn |] |];
        [ destruct (CreateGLTexture_loaded stbi_load_result gl_texture_name
                      filename tag0 w image Himg Hc (conj H0 Hn))
            as (s' & cs' & Hrun' & Hreg & _);
          rewrite Hrun' in Hrun; injection Hrun as <- <- _; exact Hreg
        | rewrite (CreateGLTexture_overflow stbi_load_result gl_texture_name
                     filename tag0 w image Himg Hc) in Hrun;
          [discriminate | unfold has_room; lia] .. ].
      destruct (CreateGLTexture_bad_channels stbi_load_result gl_texture_name
                  filename tag0 w image Himg N3 N4) as (cs' & Hrun' & _).
      rewrite Hrun' in Hrun. injection Hrun as <- <- _. reflexivity.
    + rewrite (CreateGLTexture_undecodable stbi_load_result gl_texture_name
                 filename tag0 w Himg) in Hrun.
      injection Hrun as <- <- _. reflexivity.
Qed.

Lemma CreateGLTexture_registry_witness :
  exists w' cs,
    CreateGLTexture rgb_images counting_names
      "../../Utilities/textures/brick.jpg" "floor" fresh_world = Some (true, w', cs) /\
    generated_textures cs = [1%Z] /\
    m_loadedTextures (this w') = 1%Z /\
    texture_at (this w') 0 = Some (mkTexture 1%Z "floor") /\
    slot_of (this w') "floor" = Some 0%Z.
Proof.
  destruct (CreateGLTexture_registry rgb_images counting_names
              "../../Utilities/textures/brick.jpg" "floor" fresh_world)
    as (_ & H & _).
  destruct (H (mkImage 512 512 3) eq_refl (or_introl eq_refl))
    as (w' & cs & H1 & H2 & H3 & H4 & _ & H6).
  { unfold has_room; simpl; lia. }
  exists w', cs. repeat (split; [assumption |]). apply H6. reflexivity.
Defined.

(** ** Freeing the textures *)

Lemma skipn_nth_error {A} (l : list A) (n : nat) (a : A) :
  nth_error l n = Some a -> skipn n l = a :: skipn (S n) l.
Proof.
  revert n. induction l as [| b l IH]; intros [| n] H; simpl in *;
    try discriminate.
  - injection H as ->. reflexivity.
  - apply IH. exact H.
Qed.

Lemma for_from_delete s w (count : nat) :
  forall i, (0 <= i)%Z ->
    (i + Z.of_nat count <= Z.of_nat (List.length (m_textureIDs s)))%Z ->
    for_from i count (fun i =>
      match texture_at s i with
      | Some t => emit (glDeleteTextures (ID t))
      | None => undefined
      end) w =
    Some (tt, w, map (fun t => glDeleteTextures (ID t))
                   (firstn count (skipn (Z.to_nat i) (m_textureIDs s)))).
Proof.
  induction count as [| count IH]; intros i Hi Hle; [reflexivity |].
  cbn [for_from]. unfold texture_at at 1. destruct (Z.ltb_spec i 0); [lia |].
  destruct (nth_error (m_textureIDs s) (Z.to_nat i)) as [t |] eqn:En.
  - rewrite (skipn_nth_error _ _ _ En). cbn [firstn map].
    change (glDeleteTextures (ID t) :: ?l) with ([glDeleteTextures (ID t)] ++ l).
    eapply bind_Some; [reflexivity |].
    rewrite IH by lia. repeat f_equal. lia.
  - apply nth_error_None in En. lia.
Qed.

(** [DestroyGLTextures] deletes the loaded textures, first to last, and
    resets the count. *)
Lemma DestroyGLTextures_frees w :
  (0 <= m_loadedTextures (this w) <= Z.of_nat (List.length (m_textureIDs (this w))))%Z ->
  exists w',
    DestroyGLTextures w =
      Some (tt, w', map (fun t => glDeleteTextures (ID t))
                      (firstn (Z.to_nat (m_loadedTextures (this w)))
                         (m_textureIDs (this w)))) /\
    m_loadedTextures (this w') = 0%Z /\
    m_textureIDs (this w') = m_textureIDs (this w).
Proof.
  intros H. eexists. split.
  - unfold DestroyGLTextures, for_loop.
    replace (map _ _) with
      ([] ++ map (fun t => glDeleteTextures (ID t))
               (firstn (Z.to_nat (m_loadedTextures (this w)))
                  (skipn (Z.to_nat 0) (m_textureIDs (this w)))) ++ [] ++ [])
      by (simpl; rewrite app_nil_r; reflexivity).
    eapply bind_Some; [reflexivity |]. cbv beta.
    eapply bind_Some; [apply for_from_delete; lia |].
    eapply bind_Some; reflexivity.
  - split; reflexivity.
Qed.

(** With three decodable images [PrepareScene] creates textures 1, 2, 3
    and registers them in slots 0, 1, 2 under "floor", "cone", "box". *)
Lemma PrepareScene_three_textures :
  match PrepareScene rgb_images counting_names fresh_world with
  | Some (_, w1, cs1) =>
      generated_textures cs1 = [1; 2; 3]%Z /\
      m_loadedTextures (this w1) = 3%Z /\
      firstn 3 (m_textureIDs (this w1)) =
        [mkTexture 1%Z "floor"; mkTexture 2%Z "cone"; mkTexture 3%Z "box"] /\
      slot_of (this w1) "floor" = Some 0%Z /\
      slot_of (this w1) "cone" = Some 1%Z /\
      slot_of (this w1) "box" = Some 2%Z
  | None => False
  end.
Proof. vm_compute. repeat split; reflexivity. Qed.

(** Had [DestroyGLTextures] run after that, the three textures would be
    deleted and the count back at zero. *)
Lemma DestroyGLTextures_after_PrepareScene :
  match (PrepareScene rgb_images counting_names ;; DestroyGLTextures) fresh_world with
  | Some (_, w2, cs) =>
      deleted_textures cs = [1; 2; 3]%Z /\ m_loadedTextures (this w2) = 0%Z
  | None => False
  end.
Proof. vm_compute. split; reflexivity. Qed.

Lemma deleted_name_only c :
  deleted_name c <> None ->
  (exists t, c = glDeleteTextures t) \/
  c = LoadPlaneMesh \/ c = LoadConeMesh \/ c = LoadTorusMesh \/ c = LoadBoxMesh.
Proof. destruct c; simpl; intros H; try congruence. eauto. Qed.

(** No run of [main] deletes a texture. *)
Lemma main_deletes_nothing stbi_load_result gl_texture_name
  glfwInit_ok glewInit_ok textureIDs loadedTextures fs status cs :
  main stbi_load_result gl_texture_name glfwInit_ok glewInit_ok
    textureIDs loadedTextures fs = Some (status, cs) ->
  deleted_textures cs = [].
Proof.
  unfold main. destruct glfwInit_ok; simpl; [| intros H; injection H as _ <-; reflexivity].
  destruct glewInit_ok; simpl; [| intros H; injection H as _ <-; reflexivity].
  match goal with
  | |- match ?m with Some _ => _ | None => _ end = _ -> _ =>
      destruct m as [[[u w'] cs'] |] eqn:E; [| discriminate]
  end.
  intros H. injection H as _ <-.
  apply bind_inv in E. destruct E as (a1 & w1 & cs1 & cs2 & E1 & E2 & ->).
  apply bind_inv in E2. destruct E2 as (g2 & w2 & cs3 & cs4 & E2 & E3 & ->).
  apply (emits_PrepareScene _ _ _ deleted_name deleted_name_only) in E1.
  apply (emits_main_loop _ deleted_name deleted_name_only) in E2.
  assert (E4 : collect deleted_name cs4 = []).
  { destruct (windowShouldClose g2).
    - apply bind_inv in E3. destruct E3 as (a3 & w3 & cs5 & cs6 & E3 & E5 & ->).
      apply (emits_shutdown _ deleted_name deleted_name_only) in E3.
      injection E5 as _ _ <-. rewrite collect_app, E3. reflexivity.
    - injection E3 as _ _ <-. reflexivity. }
  unfold deleted_textures. simpl. rewrite !collect_app, E1, E2, E4. reflexivity.
Qed.

(** With three decodable images and Escape pressed in the first frame the
    program exits, having generated textures 1, 2, 3 and deleted none. *)
Lemma main_Escape_run :
  match main rgb_images counting_names true true sixteen_slots 0 [Escape_frame] with
  | Some (exited status, cs) =>
      status = EXIT_SUCCESS /\
      generated_textures cs = [1; 2; 3]%Z /\ deleted_textures cs = []
  | _ => False
  end.
Proof. vm_compute. repeat split; reflexivity. Qed.

(** C5: what the shutdown path does.  The destructor, which is all that
    [main] runs on a SceneManager before exiting, deletes the mesh object
    and clears the two pointers; the texture count and table are as before
    and no [glDeleteTextures] is issued in any run.  With three decodable
    images and the window closed by Escape in the first frame, the run
    generates textures 1, 2, 3, deletes none and exits with EXIT_SUCCESS. *)
Theorem shutdown_keeps_textures :
  (forall w,
     exists s',
       SceneManager_delete w =
         Some (tt, mkWorld s' (gl_generated w), [delete_ShapeMeshes]) /\
       m_loadedTextures s' = m_loadedTextures (this w) /\
       m_textureIDs s' = m_textureIDs (this w)) /\
  (forall stbi_load_result gl_texture_name glfwInit_ok glewInit_ok
          textureIDs loadedTextures fs,
     match main stbi_load_result gl_texture_name glfwInit_ok glewInit_ok
             textureIDs loadedTextures fs with
     | Some (_, cs) => deleted_textures cs = []
     | None => True
     end) /\
  (exists cs,
     main rgb_images counting_names true true sixteen_slots 0 [Escape_frame] =
       Some (exited EXIT_SUCCESS, cs) /\
     generated_textures cs = [1; 2; 3]%Z /\
     deleted_textures cs = []).
Proof.
  split; [| split].
  - intros [[p1 p2 ids n mats] gen]. eexists. split; [reflexivity |].
    split; reflexivity.
  - intros. destruct (main _ _ _ _ _ _ _) as [[status cs] |] eqn:E; [| exact I].
    eapply main_deletes_nothing. exact E.
  - pose proof main_Escape_run as H.
    destruct (main rgb_images counting_names true true sixteen_slots 0 [Escape_frame])
      as [[[status |] cs] |]; try contradiction.
    destruct H as (-> & Hg & Hd). exists cs. repeat split; assumption.
Qed.

(** ** The projection toggle *)

Lemma processInput_toggle (k : key -> key_state) (g : Globals) :
  let g' := processInput k g in
  match k GLFW_KEY_P with
  | GLFW_PRESS =>
      useOrtho g' = (if pKeyPressed g then useOrtho g else negb (useOrtho g)) /\
      pKeyPressed g' = true
  | GLFW_RELEASE =>
      useOrtho g' = useOrtho g /\ pKeyPressed g' = false
  end.
Proof.
  unfold processInput. cbv zeta.
  match goal with
  | |- context [when (fun g => is_press _ && _) _ ?inner] => set (g7 := inner)
  end.
  assert (H7 : useOrtho g7 = useOrtho g /\ pKeyPressed g7 = pKeyPressed g).
  { set (P := fun g' : Globals =>
              useOrtho g' = useOrtho g /\ pKeyPressed g' = pKeyPressed g).
    change (P g7). unfold g7.
    repeat (apply when_keeps; [intros g0 H; exact H |]).
    split; reflexivity. }
  clearbody g7. destruct H7 as [<- <-].
  unfold when. destruct (k GLFW_KEY_P); destruct (pKeyPressed g7) eqn:E; simpl;
    rewrite ?E; auto.
Qed.

Lemma begin_frame_toggle (t : R) (k : key -> key_state) (g : Globals) :
  let g' := begin_frame t k g in
  match k GLFW_KEY_P with
  | GLFW_PRESS =>
      useOrtho g' = (if pKeyPressed g then useOrtho g else negb (useOrtho g)) /\
      pKeyPressed g' = true
  | GLFW_RELEASE =>
      useOrtho g' = useOrtho g /\ pKeyPressed g' = false
  end.
Proof.
  unfold begin_frame.
  exact (processInput_toggle k (set_lastFrame t (set_deltaTime (t - lastFrame g) g))).
Qed.

(** Over a run the projection mode flips once for every press of P. *)
Lemma run_toggle (es : list event) :
  forall g,
    useOrtho (run g es) =
    xorb (useOrtho g) (Nat.odd (presses (pKeyPressed g) (p_samples es))).
Proof.
  induction es as [| e es IH]; intros g.
  - simpl. destruct (useOrtho g); reflexivity.
  - change (run g (e :: es)) with (run (step g e) es). rewrite IH.
    destruct e as [t k | c]; cbn [step p_samples].
    + pose proof (begin_frame_toggle t k g) as H. cbv zeta in H.
      destruct (k GLFW_KEY_P); destruct H as [-> ->]; cbn [presses];
        [reflexivity |].
      destruct (pKeyPressed g); [reflexivity |].
      change (1 + ?n)%nat with (S n). rewrite Nat.odd_succ, <- Nat.negb_odd.
      destruct (useOrtho g), (Nat.odd _); reflexivity.
    + destruct c as [xpos ypos | xo yo]; cbn [deliver].
      * destruct (mouse_callback_frame xpos ypos g) as (_ & _ & _ & _ & -> & ->).
        reflexivity.
      * destruct (scroll_callback_frame xo yo g) as (_ & _ & _ & -> & ->).
        reflexivity.
Qed.

Lemma RenderScene_sends_model_only name :
  String.eqb "model" name = false -> emits (mat4_named name) RenderScene [].
Proof.
  intros Hname.
  assert (Hm : forall v, emits (mat4_named name) (emit (setMat4Value "model" v)) []).
  { intros v. eapply emits_eq; [apply emits_emit |].
    unfold mat4_named. rewrite Hname. reflexivity. }
  unfold RenderScene, SetTransformations, SetShaderTexture, SetTextureUVScale, draw.
  cbv zeta. emits_with ltac:(idtac; apply Hm).
Qed.

(** One loop iteration: the matrices it sends and the state it leaves. *)
Lemma loop_body_run (f : frame_input) (g : Globals) (w : World) :
  scene_ok (this w) ->
  let g1 := begin_frame (glfwGetTime f) (keys f) g in
  let g2 := fold_left deliver (polled f) g1 in
  exists cs,
    loop_body f g w =
      Some (if close_requested f then set_windowShouldClose true g2 else g2, w, cs) /\
    mat4_sent "projection" cs = [projection_of g1] /\
    mat4_sent "view" cs =
      [lookAt (cameraPos g1) (cameraPos g1 +v cameraFront g1) (cameraUp g1)].
Proof.
  intros Hok g1 g2. pose proof Hok as [Hm _].
  destruct (slot_of_total (this w) "floor" Hok) as [fl Hfl].
  destruct (slot_of_total (this w) "cone" Hok) as [co Hco].
  destruct (slot_of_total (this w) "box" Hok) as [bx Hbx].
  destruct (RenderScene_run w fl co bx Hm Hfl Hco Hbx) as (cs & Hrun & _).
  pose proof (RenderScene_sends_model_only "projection" eq_refl _ _ _ _ Hrun) as Hp.
  pose proof (RenderScene_sends_model_only "view" eq_refl _ _ _ _ Hrun) as Hv.
  eexists. split.
  - unfold loop_body. cbv zeta. fold g1. fold g2.
    do 6 (eapply bind_Some; [reflexivity | cbv beta]).
    eapply bind_Some; [exact Hrun | cbv beta].
    do 2 (eapply bind_Some; [reflexivity | cbv beta]).
    reflexivity.
  - unfold mat4_sent in *. split.
    + simpl. rewrite collect_app, Hp. reflexivity.
    + simpl. rewrite collect_app, Hv. reflexivity.
Qed.

(** *** The close flag *)

Lemma processInput_close (k : key -> key_state) (g : Globals) :
  windowShouldClose (processInput k g) =
  is_press (k GLFW_KEY_ESCAPE) || windowShouldClose g.
Proof.
  unfold processInput. cbv zeta.
  match goal with
  | |- context [when ?c (set_windowShouldClose true) g] =>
      set (g1 := when c (set_windowShouldClose true) g)
  end.
  transitivity (windowShouldClose g1).
  - set (P := fun g' : Globals => windowShouldClose g' = windowShouldClose g1).
    change (P (when (fun _ => is_release (k GLFW_KEY_P)) (set_pKeyPressed false)
                 (when (fun g0 => is_press (k GLFW_KEY_P) && negb (pKeyPressed g0))
                    (fun g0 => set_pKeyPressed true
                                 (set_useOrtho (negb (useOrtho g0)) g0))
                    (when (fun _ => is_press (k GLFW_KEY_E))
                       (fun g0 => set_cameraPos
                          (Vec3 (x (cameraPos g0))
                             (y (cameraPos g0) - movementSpeed g * deltaTime g)
                             (z (cameraPos g0))) g0)
                       (when (fun _ => is_press (k GLFW_KEY_Q))
                          (fun g0 => set_cameraPos
                             (Vec3 (x (cameraPos g0))
                                (y (cameraPos g0) + movementSpeed g * deltaTime g)
                                (z (cameraPos g0))) g0)
                          (when (fun _ => is_press (k GLFW_KEY_D))
                             (fun g0 => set_cameraPos
                                (cameraPos g0
                                 +v normalize (cross (cameraFront g0) (cameraUp g0))
                                    *s (movementSpeed g * deltaTime g)) g0)
                             (when (fun _ => is_press (k GLFW_KEY_A))
                                (fun g0 => set_cameraPos
                                   (cameraPos g0
                                    -v normalize (cross (cameraFront g0) (cameraUp g0))
                                       *s (movementSpeed g * deltaTime g)) g0)
                                (when (fun _ => is_press (k GLFW_KEY_S))
                                   (fun g0 => set_cameraPos
                                      (cameraPos g0
                                       -v cameraFront g0
                                          *s (movementSpeed g * deltaTime g)) g0)
                                   (when (fun _ => is_press (k GLFW_KEY_W))
                                      (fun g0 => set_cameraPos
                                         (cameraPos g0
                                          +v cameraFront g0
                                             *s (movementSpeed g * deltaTime g)) g0)
                                      g1))))))))).
    do 8 (apply when_keeps; [intros g0 H0; exact H0 |]).
    reflexivity.
  - unfold g1, when. destruct (is_press (k GLFW_KEY_ESCAPE)); reflexivity.
Qed.

Lemma deliver_close (c : callback) (g : Globals) :
  windowShouldClose (deliver g c) = windowShouldClose g.
Proof.
  destruct c as [xpos ypos | xo yo]; cbn [deliver]; [| reflexivity].
  unfold mouse_callback. destruct (firstMouse g); simpl;
    destruct (Rlt_dec 89 _); simpl; destruct (Rlt_dec _ (-89)); reflexivity.
Qed.

Lemma polled_close (cs : list callback) :
  forall g, windowShouldClose (fold_left deliver cs g) = windowShouldClose g.
Proof.
  induction cs as [| c cs IH]; intros g; simpl; [reflexivity |].
  rewrite IH. apply deliver_close.
Qed.

Lemma begin_frame_close (t : R) (k : key -> key_state) (g : Globals) :
  windowShouldClose (begin_frame t k g) =
  is_press (k GLFW_KEY_ESCAPE) || windowShouldClose g.
Proof. unfold begin_frame. rewrite processInput_close. reflexivity. Qed.

Lemma run_close (es : list event) :
  forall g, windowShouldClose g = true -> windowShouldClose (run g es) = true.
Proof.
  induction es as [| e es IH]; intros g H; [exact H |].
  change (run g (e :: es)) with (run (step g e) es). apply IH.
  destruct e as [t k | c]; cbn [step].
  - rewrite begin_frame_close, H. apply orb_true_r.
  - rewrite deliver_close. exact H.
Qed.

(** *** The loop as a run of events *)

Lemma run_app (es1 es2 : list event) (g : Globals) :
  run g (es1 ++ es2) = run (run g es1) es2.
Proof. apply fold_left_app. Qed.

Lemma run_callbacks (cs : list callback) :
  forall g, run g (map Callback cs) = fold_left deliver cs g.
Proof. induction cs as [| c cs IH]; intros g; [reflexivity | apply IH]. Qed.

Lemma run_events_of (f : frame_input) (g : Globals) :
  run g (events_of f) =
  fold_left deliver (polled f) (begin_frame (glfwGetTime f) (keys f) g).
Proof. unfold events_of. apply run_callbacks. Qed.

Lemma p_samples_app (es1 es2 : list event) :
  p_samples (es1 ++ es2) = p_samples es1 ++ p_samples es2.
Proof.
  induction es1 as [| [t k | c] es1 IH]; simpl; [reflexivity | | exact IH].
  rewrite IH. reflexivity.
Qed.

Lemma p_samples_callbacks (cs : list callback) : p_samples (map Callback cs) = [].
Proof. induction cs as [| c cs IH]; [reflexivity | exact IH]. Qed.

Lemma p_samples_frames (fs : list frame_input) :
  p_samples (flat_map events_of fs) = map (fun f => keys f GLFW_KEY_P) fs.
Proof.
  induction fs as [| f fs IH]; [reflexivity |].
  cbn [flat_map map]. rewrite p_samples_app, IH. unfold events_of.
  cbn [p_samples]. rewrite p_samples_callbacks. reflexivity.
Qed.

Lemma polled_useOrtho (cs : list callback) :
  forall g, useOrtho (fold_left deliver cs g) = useOrtho g.
Proof.
  induction cs as [| c cs IH]; intros g; [reflexivity |].
  cbn [fold_left]. rewrite IH.
  destruct c as [xpos ypos | xo yo]; cbn [deliver].
  - destruct (mouse_callback_frame xpos ypos g) as (_ & _ & _ & _ & H & _). exact H.
  - reflexivity.
Qed.

Lemma main_loop_nil (g : Globals) (w : World) : main_loop [] g w = Some (g, w, []).
Proof. cbn [main_loop]. destruct (windowShouldClose g); reflexivity. Qed.

Lemma main_loop_cons (f : frame_input) (fs : list frame_input) (g : Globals)
  (w : World) :
  windowShouldClose g = false ->
  main_loop (f :: fs) g w = bind (loop_body f g) (main_loop fs) w.
Proof. intros H. cbn [main_loop]. rewrite H. reflexivity. Qed.

(** While the window stays open the loop consumes its frames one by one. *)
Lemma main_loop_app (fs fs' : list frame_input) :
  forall g w g1 w1 cs,
    main_loop fs g w = Some (g1, w1, cs) ->
    windowShouldClose g1 = false ->
    main_loop (fs ++ fs') g w =
    match main_loop fs' g1 w1 with
    | Some (g2, w2, cs') => Some (g2, w2, cs ++ cs')
    | None => None
    end.
Proof.
  induction fs as [| f fs IH]; intros g w g1 w1 cs H Hopen.
  - rewrite main_loop_nil in H. injection H as <- <- <-. simpl.
    destruct (main_loop fs' g w) as [[[g2 w2] cs'] |]; reflexivity.
  - cbn [main_loop app] in *.
    destruct (windowShouldClose g) eqn:Eg.
    + injection H as <- <- <-. congruence.
    + apply bind_inv in H. destruct H as (g0 & w0 & cs0 & cs1 & E0 & E1 & ->).
      unfold bind. rewrite E0, (IH g0 w0 g1 w1 cs1 E1 Hopen).
      destruct (main_loop fs' g1 w1) as [[[g2 w2] cs'] |]; [| reflexivity].
      rewrite app_assoc. reflexivity.
Qed.

(** Over frames in which nothing asks the window to close, the loop leaves
    the globals in the state the run of their events leaves them in, and
    has sent one projection matrix per frame. *)
Lemma main_loop_open (fs : list frame_input) :
  forall g w,
    scene_ok (this w) ->
    windowShouldClose g = false ->
    Forall stays_open fs ->
    exists cs,
      main_loop fs g w = Some (run g (flat_map events_of fs), w, cs) /\
      windowShouldClose (run g (flat_map events_of fs)) = false /\
      List.length (mat4_sent "projection" cs) = List.length fs.
Proof.
  induction fs as [| f fs IH]; intros g w Hok Hopen Hall.
  - exists []. rewrite main_loop_nil. repeat split. exact Hopen.
  - inversion Hall as [| f0 fs0 [Hesc Hreq] Hall']; subst.
    destruct (loop_body_run f g w Hok) as (cs1 & Hbody & Hp & _).
    rewrite Hreq, <- run_events_of in Hbody.
    assert (Hopen1 : windowShouldClose (run g (events_of f)) = false).
    { rewrite run_events_of, polled_close, begin_frame_close, Hesc, Hopen.
      reflexivity. }
    destruct (IH (run g (events_of f)) w Hok Hopen1 Hall') as (cs2 & Hrest & Hopen2 & Hn).
    cbn [flat_map]. rewrite run_app.
    exists (cs1 ++ cs2). split; [| split; [exact Hopen2 |]].
    + cbn [main_loop]. rewrite Hopen.
      eapply bind_Some; [exact Hbody | exact Hrest].
    + unfold mat4_sent in *. rewrite collect_app, length_app, Hp, Hn. reflexivity.
Qed.

(** C3.  A frame in which P is down toggles the projection mode when the
    latch is open and closes the latch; while P stays down the mode does
    not change; a frame in which P is up opens the latch again.  So over
    any run the mode has flipped once per press of P.  A loop iteration
    leaves the globals as the run of its events does (the toggled mode is
    kept for the next iteration) and sends the shader exactly one
    projection matrix: the orthographic one (half-height 10, aspect
    800/600, near 0.1, far 100) when the mode is orthographic, else the
    perspective one with the current field of view, aspect 800/600, near
    0.1 and far 100.  And in the running loop, whatever frames came before,
    the matrix a frame sends is the orthographic one exactly when P has
    been pressed an odd number of times up to and including that frame. *)
Theorem projection_toggle :
  (forall k g,
     let g' := processInput k g in
     match k GLFW_KEY_P with
     | GLFW_PRESS =>
         useOrtho g' = (if pKeyPressed g then useOrtho g else negb (useOrtho g)) /\
         pKeyPressed g' = true
     | GLFW_RELEASE =>
         useOrtho g' = useOrtho g /\ pKeyPressed g' = false
     end) /\
  (forall es,
     useOrtho (run initial_globals es) = Nat.odd (presses false (p_samples es))) /\
  (forall f g w,
     scene_ok (this w) ->
     let g1 := begin_frame (glfwGetTime f) (keys f) g in
     let g2 := run g (events_of f) in
     exists cs,
       loop_body f g w =
         Some (if close_requested f then set_windowShouldClose true g2 else g2, w, cs) /\
       useOrtho g2 = useOrtho g1 /\
       mat4_sent "projection" cs =
         [if useOrtho g1
          then ortho (- 10 * (800 / 600)) (10 * (800 / 600)) (- 10) 10 0.1 100
          else perspective (radians (fov g)) (800 / 600) 0.1 100]) /\
  (forall fs f w,
     scene_ok (this w) ->
     Forall stays_open fs ->
     let g := run initial_globals (flat_map events_of fs) in
     let orthographic :=
       Nat.odd (presses false (map (fun f => keys f GLFW_KEY_P) (fs ++ [f]))) in
     exists g' cs0 cs1,
       main_loop fs initial_globals w = Some (g, w, cs0) /\
       main_loop (fs ++ [f]) initial_globals w = Some (g', w, cs0 ++ cs1) /\
       useOrtho g' = orthographic /\
       mat4_sent "projection" cs1 =
         [if orthographic
          then ortho (- 10 * (800 / 600)) (10 * (800 / 600)) (- 10) 10 0.1 100
          else perspective (radians (fov g)) (800 / 600) 0.1 100] /\
       List.length (mat4_sent "projection" (cs0 ++ cs1)) = S (List.length fs)).
Proof.
  assert (Hbody : forall f g w,
     scene_ok (this w) ->
     let g1 := begin_frame (glfwGetTime f) (keys f) g in
     let g2 := run g (events_of f) in
     exists cs,
       loop_body f g w =
         Some (if close_requested f then set_windowShouldClose true g2 else g2, w, cs) /\
       useOrtho g2 = useOrtho g1 /\
       mat4_sent "projection" cs =
         [if useOrtho g1
          then ortho (- 10 * (800 / 600)) (10 * (800 / 600)) (- 10) 10 0.1 100
          else perspective (radians (fov g)) (800 / 600) 0.1 100]).
  { intros f g w Hok g1 g2.
    destruct (loop_body_run f g w Hok) as (cs & Hrun & Hp & _).
    exists cs. unfold g2. rewrite run_events_of. fold g1.
    split; [exact Hrun |]. split; [apply polled_useOrtho |].
    rewrite Hp. unfold projection_of. fold g1.
    destruct (begin_frame_frame (glfwGetTime f) (keys f) g) as (_ & _ & _ & _ & Hf).
    cbv zeta in Hf. fold g1 in Hf. rewrite Hf. reflexivity. }
  split; [| split; [| split; [exact Hbody |]]].
  - intros. apply processInput_toggle.
  - intros es. rewrite run_toggle. reflexivity.
  - intros fs f w Hok Hall g orthographic.
    destruct (main_loop_open fs initial_globals w Hok eq_refl Hall)
      as (cs0 & Hloop & Hopen & Hn).
    fold g in Hloop, Hopen.
    destruct (Hbody f g w Hok) as (cs1 & Hrun & Hu & Hp).
    assert (Ho : useOrtho (run g (events_of f)) = orthographic).
    { unfold g, orthographic. rewrite <- run_app, run_toggle.
      replace (flat_map events_of fs ++ events_of f)
        with (flat_map events_of (fs ++ [f]))
        by (rewrite flat_map_app; simpl; rewrite app_nil_r; reflexivity).
      rewrite p_samples_frames. reflexivity. }
    eexists _, cs0, cs1. split; [exact Hloop |]. split; [| split; [| split]].
    + rewrite (main_loop_app fs [f] _ _ _ _ _ Hloop Hopen).
      rewrite (main_loop_cons f [] _ _ Hopen).
      rewrite (bind_Some _ _ _ _ _ _ _ _ _ Hrun (main_loop_nil _ _)).
      rewrite app_nil_r. reflexivity.
    + rewrite <- Ho. destruct (close_requested f); reflexivity.
    + rewrite Hp, <- Hu, Ho. reflexivity.
    + unfold mat4_sent in *. rewrite collect_app, length_app, Hn, Hp.
      simpl. rewrite Nat.add_1_r. reflexivity.
Qed.

Lemma projection_toggle_witness :
  exists g' cs0 cs1,
    main_loop [P_frame] initial_globals fresh_world =
      Some (run initial_globals (flat_map events_of [P_frame]), fresh_world, cs0) /\
    main_loop [P_frame; P_held_frame] initial_globals fresh_world =
      Some (g', fresh_world, cs0 ++ cs1) /\
    useOrtho g' = true /\
    mat4_sent "projection" cs1 =
      [ortho (- 10 * (800 / 600)) (10 * (800 / 600)) (- 10) 10 0.1 100].
Proof.
  destruct projection_toggle as (_ & _ & _ & H).
  destruct (H [P_frame] P_held_frame fresh_world scene_ok_fresh)
    as (g' & cs0 & cs1 & H1 & H2 & H3 & H4 & _).
  - apply Forall_cons; [split; reflexivity | apply Forall_nil].
  - exists g', cs0, cs1. split; [exact H1 |]. split; [exact H2 |].
    split; [exact H3 | exact H4].
Defined.

(** * Further properties of the code *)

(** ** The camera *)

(** X1.  Strafing is horizontal and climbing is vertical.  In every state a
    run reaches from the initial globals, a frame in which only A or D can
    be down leaves the height of the camera as it is, and a frame in which
    only Q or E can be down changes nothing but its height. *)
Theorem strafe_is_horizontal (es : list event) (k : key -> key_state) :
  let g := run initial_globals es in
  let g' := processInput k g in
  (k GLFW_KEY_W = GLFW_RELEASE -> k GLFW_KEY_S = GLFW_RELEASE ->
   k GLFW_KEY_Q = GLFW_RELEASE -> k GLFW_KEY_E = GLFW_RELEASE ->
   y (cameraPos g') = y (cameraPos g)) /\
  (k GLFW_KEY_W = GLFW_RELEASE -> k GLFW_KEY_S = GLFW_RELEASE ->
   k GLFW_KEY_A = GLFW_RELEASE -> k GLFW_KEY_D = GLFW_RELEASE ->
   x (cameraPos g') = x (cameraPos g) /\ z (cameraPos g') = z (cameraPos g)).
Proof.
  intros g g'. unfold g'. rewrite processInput_position. cbv zeta.
  destruct (camera_ok_run es initial_globals camera_ok_initial) as (_ & Hu & _).
  fold g in Hu. unfold strafe. rewrite Hu.
  split.
  - intros -> -> -> ->. unfold if_pressed.
    destruct (is_press (k GLFW_KEY_A)), (is_press (k GLFW_KEY_D)); simpl; ring.
  - intros -> -> -> ->. unfold if_pressed.
    destruct (is_press (k GLFW_KEY_Q)), (is_press (k GLFW_KEY_E)); simpl;
      split; ring.
Qed.

Lemma strafe_is_horizontal_witness :
  y (cameraPos (processInput A_down
                  (run initial_globals
                     [Tick 1 A_down; Callback (CursorPos 500 200)]))) =
  y (cameraPos (run initial_globals [Tick 1 A_down; Callback (CursorPos 500 200)])).
Proof.
  apply (proj1 (strafe_is_horizontal
                  [Tick 1 A_down; Callback (CursorPos 500 200)] A_down));
    reflexivity.
Defined.

Lemma radians_0 : radians 0 = 0.
Proof. unfold radians. ring. Qed.

(** X6.  From a state within the clamps, scrolling up never lowers the
    movement speed nor widens the field of view, scrolling down never
    raises the speed nor narrows the view, and as long as no clamp is hit
    the speed changes by a quarter of the offset and the field of view by
    the whole offset. *)
Theorem scroll_direction (xoffset yoffset : R) (g : Globals) :
  0.5 <= movementSpeed g <= 10 ->
  1 <= fov g <= 45 ->
  let g' := scroll_callback xoffset yoffset g in
  (0 <= yoffset -> movementSpeed g <= movementSpeed g' /\ fov g' <= fov g) /\
  (yoffset <= 0 -> movementSpeed g' <= movementSpeed g /\ fov g <= fov g') /\
  (0.5 <= movementSpeed g + yoffset * 0.25 <= 10 ->
   movementSpeed g' = movementSpeed g + yoffset * 0.25) /\
  (1 <= fov g - yoffset <= 45 -> fov g' = fov g - yoffset).
Proof.
  intros Hm Hf. unfold scroll_callback; simpl. unfold clamp, glm.max.
  destruct (Rlt_dec (movementSpeed g + yoffset * 0.25) 0.5);
    destruct (Rlt_dec (fov g - yoffset) 1);
    unfold glm.min;
    repeat match goal with
           | |- context [Rlt_dec ?a ?b] => destruct (Rlt_dec a b)
           end;
    (split; [| split; [| split]]); intros; try split; lra.
Qed.

Lemma scroll_direction_witness :
  movementSpeed (scroll_callback 0 2 initial_globals) = 4 + 2 * 0.25 /\
  fov (scroll_callback 0 2 initial_globals) = 45 - 2.
Proof.
  destruct (scroll_direction 0 2 initial_globals) as (_ & _ & Hs & Hf);
    [simpl; lra | simpl; lra |].
  split; [apply Hs | apply Hf]; simpl; lra.
Defined.

(** ** Placing an object *)

(** X7.  With a shader manager attached and all three angles zero, as for
    the plane, the cones and the box of the scene, [SetTransformations]
    sends a matrix that scales a vertex component by component and then
    translates it. *)
Theorem SetTransformations_axis_aligned
  (scaleXYZ positionXYZ : vec3) (w : World) :
  m_pShaderManager (this w) = allocated ->
  exists m,
    SetTransformations scaleXYZ 0 0 0 positionXYZ w =
      Some (tt, w, [setMat4Value "model" m]) /\
    forall v,
      mulv m v =
      Vec4 (x scaleXYZ * x4 v + x positionXYZ * w4 v)
           (y scaleXYZ * y4 v + y positionXYZ * w4 v)
           (z scaleXYZ * z4 v + z positionXYZ * w4 v)
           (w4 v).
Proof.
  intros H. exists (model_matrix scaleXYZ 0 0 0 positionXYZ). split.
  - rewrite SetTransformations_run, H. reflexivity.
  - intros v. unfold model_matrix.
    rewrite !mulv_mul, mulv_translate, mulv_rotate_X, mulv_rotate_Y,
      mulv_rotate_Z, mulv_scale, radians_0, cos_0, sin_0.
    simpl. f_equal; ring.
Qed.

Lemma SetTransformations_axis_aligned_witness :
  exists m,
    SetTransformations (Vec3 1 2 1) 0 0 0 (Vec3 0 1 3) fresh_world =
      Some (tt, fresh_world, [setMat4Value "model" m]) /\
    mulv m (Vec4 0 1 0 1) = Vec4 (1 * 0 + 0 * 1) (2 * 1 + 1 * 1) (1 * 0 + 3 * 1) 1.
Proof.
  destruct (SetTransformations_axis_aligned (Vec3 1 2 1) (Vec3 0 1 3) fresh_world
              eq_refl) as (m & H1 & H2).
  exists m. split; [exact H1 | exact (H2 (Vec4 0 1 0 1))].
Defined.

(** ** Closing the window *)

(** X8.  [processInput] raises the window's close flag when Escape is down
    and never lowers it, and no callback touches it.  A loop iteration in
    which Escape is down still renders its frame and is the last one:
    whatever frames would follow, the loop ends with that iteration. *)
Theorem escape_ends_the_loop :
  (forall k g,
     windowShouldClose (processInput k g) =
     is_press (k GLFW_KEY_ESCAPE) || windowShouldClose g) /\
  (forall es g, windowShouldClose g = true -> windowShouldClose (run g es) = true) /\
  (forall f fs g w,
     scene_ok (this w) ->
     windowShouldClose g = false ->
     keys f GLFW_KEY_ESCAPE = GLFW_PRESS ->
     exists g' cs,
       loop_body f g w = Some (g', w, cs) /\
       main_loop (f :: fs) g w = Some (g', w, cs) /\
       drawn cs = scene_meshes /\
       windowShouldClose g' = true).
Proof.
  split; [exact processInput_close |]. split; [exact run_close |].
  intros f fs g w Hok Hopen Hesc.
  pose proof Hok as [Hm _].
  destruct (slot_of_total (this w) "floor" Hok) as [fl Hfl].
  destruct (slot_of_total (this w) "cone" Hok) as [co Hco].
  destruct (slot_of_total (this w) "box" Hok) as [bx Hbx].
  destruct (RenderScene_run w fl co bx Hm Hfl Hco Hbx) as (csr & Hrun & Hd & _).
  set (g1 := begin_frame (glfwGetTime f) (keys f) g).
  set (g2 := fold_left deliver (polled f) g1).
  set (g3 := if close_requested f then set_windowShouldClose true g2 else g2).
  assert (Hbody : loop_body f g w =
                  Some (g3, w,
                        [glEnable_GL_DEPTH_TEST] ++ [glClearColor 0 0 0 1] ++ [glClear] ++
                        [PrepareSceneView] ++
                        [setMat4Value "view"
                           (lookAt (cameraPos g1) (cameraPos g1 +v cameraFront g1)
                              (cameraUp g1))] ++
                        [setMat4Value "projection" (projection_of g1)] ++
                        csr ++ [glfwSwapBuffers] ++ [glfwPollEvents] ++ [])).
  { unfold loop_body. cbv zeta. fold g1. fold g2. fold g3.
    do 6 (eapply bind_Some; [reflexivity | cbv beta]).
    eapply bind_Some; [exact Hrun | cbv beta].
    do 2 (eapply bind_Some; [reflexivity | cbv beta]).
    reflexivity. }
  assert (Hclosed : windowShouldClose g3 = true).
  { unfold g3. destruct (close_requested f); [reflexivity |].
    unfold g2. rewrite polled_close. unfold g1.
    rewrite begin_frame_close, Hesc. reflexivity. }
  eexists g3, _. split; [exact Hbody |]. split; [| split].
  - cbn [main_loop]. rewrite Hopen.
    rewrite <- (app_nil_r (_ ++ _)) at 1.
    eapply bind_Some; [exact Hbody |].
    destruct fs; cbn [main_loop]; rewrite Hclosed; reflexivity.
  - unfold drawn in *. simpl. rewrite collect_app, Hd. reflexivity.
  - exact Hclosed.
Qed.

Lemma escape_ends_the_loop_witness :
  exists g' cs,
    loop_body (mkFrame 1 (fun k => match k with
                                   | GLFW_KEY_ESCAPE => GLFW_PRESS
                                   | _ => GLFW_RELEASE
                                   end) [] false)
      initial_globals fresh_world = Some (g', fresh_world, cs) /\
    main_loop [mkFrame 1 (fun k => match k with
                                   | GLFW_KEY_ESCAPE => GLFW_PRESS
                                   | _ => GLFW_RELEASE
                                   end) [] false; P_frame]
      initial_globals fresh_world = Some (g', fresh_world, cs) /\
    windowShouldClose g' = true.
Proof.
  destruct escape_ends_the_loop as (_ & _ & H).
  destruct (H (mkFrame 1 (fun k => match k with
                                   | GLFW_KEY_ESCAPE => GLFW_PRESS
                                   | _ => GLFW_RELEASE
                                   end) [] false)
              [P_frame] initial_globals fresh_world scene_ok_fresh eq_refl eq_refl)
    as (g' & cs & H1 & H2 & _ & H4).
  exists g', cs. repeat split; assumption.
Defined.

(** ** The texture table *)

Lemma find_texture_spec s tag0 (count : nat) :
  forall i,
    (0 <= i)%Z ->
    (i + Z.of_nat count <= Z.of_nat (List.length (m_textureIDs s)))%Z ->
    match find_texture s tag0 i count with
    | Some (Some (j, t)) =>
        (i <= j < i + Z.of_nat count)%Z /\
        texture_at s j = Some t /\ tag t = tag0 /\
        forall j' t', (i <= j' < j)%Z -> texture_at s j' = Some t' -> tag t' <> tag0
    | Some None =>
        forall j' t', (i <= j' < i + Z.of_nat count)%Z ->
                      texture_at s j' = Some t' -> tag t' <> tag0
    | None => False
    end.
Proof.
  induction count as [| count IH]; intros i Hi Hle.
  - simpl. intros j' t' Hj. lia.
  - cbn [find_texture].
    destruct (texture_at s i) as [t |] eqn:Et.
    + destruct (String.eqb_spec (tag t) tag0) as [Heq | Hne].
      * repeat split; try lia; try assumption.
      * specialize (IH (i + 1)%Z ltac:(lia) ltac:(lia)).
        destruct (find_texture s tag0 (i + 1) count) as [[[j t1] |] |].
        -- destruct IH as (Hj & Hat & Htag & Hfirst).
           repeat split; try lia; try assumption.
           intros j' t' Hj' Hat'.
           destruct (Z.eq_dec j' i) as [-> | Hn].
           ++ rewrite Et in Hat'. injection Hat' as <-. exact Hne.
           ++ apply (Hfirst j' t'); [lia | exact Hat'].
        -- intros j' t' Hj' Hat'.
           destruct (Z.eq_dec j' i) as [-> | Hn].
           ++ rewrite Et in Hat'. injection Hat' as <-. exact Hne.
           ++ apply (IH j' t'); [lia | exact Hat'].
        -- exact IH.
    + unfold texture_at in Et. destruct (Z.ltb_spec i 0); [lia |].
      apply nth_error_None in Et. lia.
Qed.

Lemma int_of_GLuint_small (n : GLuint) :
  (0 <= n < 2147483648)%Z -> int_of_GLuint n = n.
Proof. intros H. unfold int_of_GLuint. rewrite Z.mod_small; lia. Qed.

(** X9.  Both lookups walk the loaded part of the table from slot 0 and
    stop at the first texture carrying the tag: [FindTextureSlot] returns
    its index and [FindTextureID] its OpenGL name converted to [int], which
    is the name itself below 2^31, while the name 4294967295 comes back as
    -1.  When no loaded texture carries the tag both return -1.  Neither
    changes anything. *)
Theorem FindTexture_first_match (tag0 : string) (w : World) :
  (m_loadedTextures (this w) <= Z.of_nat (List.length (m_textureIDs (this w))))%Z ->
  exists i r,
    FindTextureSlot tag0 w = Some (i, w, []) /\
    FindTextureID tag0 w = Some (r, w, []) /\
    ((i = (-1)%Z /\ r = (-1)%Z /\
      forall j t, (0 <= j < m_loadedTextures (this w))%Z ->
                  texture_at (this w) j = Some t -> tag t <> tag0) \/
     (exists textureID,
        (0 <= i < m_loadedTextures (this w))%Z /\
        texture_at (this w) i = Some (mkTexture textureID tag0) /\
        r = int_of_GLuint textureID /\
        ((0 <= textureID < 2147483648)%Z -> r = textureID) /\
        (textureID = 4294967295%Z -> r = (-1)%Z) /\
        forall j t, (0 <= j < i)%Z -> texture_at (this w) j = Some t -> tag t <> tag0)).
Proof.
  intros Hle.
  pose proof (find_texture_spec (this w) tag0
                (Z.to_nat (m_loadedTextures (this w))) 0 (Z.le_refl 0)) as H.
  unfold FindTextureSlot, FindTextureID.
  destruct (find_texture (this w) tag0 0 (Z.to_nat (m_loadedTextures (this w))))
    as [[[j t] |] |].
  - destruct H as (Hj & Hat & Htag & Hfirst); [lia |].
    exists j, (int_of_GLuint (ID t)). split; [reflexivity |]. split; [reflexivity |].
    right. exists (ID t).
    split; [lia |]. split.
    { rewrite Hat. destruct t as [id tg]. simpl in *. subst tg. reflexivity. }
    split; [reflexivity |]. split; [apply int_of_GLuint_small |].
    split; [intros ->; reflexivity | exact Hfirst].
  - exists (-1)%Z, (-1)%Z. split; [reflexivity |]. split; [reflexivity |].
    left. split; [reflexivity |]. split; [reflexivity |].
    intros j t Hj. apply H; lia.
  - exfalso. apply H. lia.
Qed.

Lemma FindTexture_first_match_witness :
  exists i r,
    FindTextureSlot "cone" loaded_world = Some (i, loaded_world, []) /\
    FindTextureID "cone" loaded_world = Some (r, loaded_world, []) /\
    i = 1%Z /\ r = 2%Z.
Proof.
  destruct (FindTexture_first_match "cone" loaded_world) as (i & r & H1 & H2 & H3).
  - simpl. lia.
  - exists i, r. split; [exact H1 |]. split; [exact H2 |].
    destruct H3 as [(_ & _ & Hnone) | (t & Hi & Hat & _ & Hr & _ & Hfirst)].
    + exfalso. apply (Hnone 1%Z (mkTexture 2%Z "cone")); [simpl; lia | |]; reflexivity.
    + simpl in Hi.
      assert (Hcases : i = 0%Z \/ i = 1%Z \/ i = 2%Z) by lia.
      destruct Hcases as [-> | [-> | ->]].
      * discriminate Hat.
      * injection Hat as <-. split; [reflexivity | apply Hr; lia].
      * exfalso. apply (Hfirst 1%Z (mkTexture 2%Z "cone")); [lia | |]; reflexivity.
Defined.

Lemma find_texture_more s tag0 r (count : nat) :
  forall i,
    find_texture s tag0 i count = Some (Some r) ->
    find_texture s tag0 i (S count) = Some (Some r).
Proof.
  induction count as [| count IH]; intros i H; [discriminate |].
  cbn [find_texture] in H.
  change (find_texture s tag0 i (S (S count)))
    with (match texture_at s i with
          | None => None
          | Some t0 =>
              if String.eqb (tag t0) tag0 then Some (Some (i, t0))
              else find_texture s tag0 (i + 1) (S count)
          end).
  destruct (texture_at s i) as [t0 |]; [| discriminate].
  destruct (String.eqb (tag t0) tag0); [exact H |].
  apply IH. exact H.
Qed.

Lemma find_texture_miss s tag0 t (count : nat) :
  forall i,
    find_texture s tag0 i count = Some None ->
    texture_at s (i + Z.of_nat count) = Some t ->
    tag t <> tag0 ->
    find_texture s tag0 i (S count) = Some None.
Proof.
  induction count as [| count IH]; intros i H Hat Hne.
  - replace (i + Z.of_nat 0)%Z with i in Hat by lia.
    cbn [find_texture]. rewrite Hat.
    destruct (String.eqb_spec (tag t) tag0); [contradiction | reflexivity].
  - cbn [find_texture] in H.
    change (find_texture s tag0 i (S (S count)))
      with (match texture_at s i with
            | None => None
            | Some t0 =>
                if String.eqb (tag t0) tag0 then Some (Some (i, t0))
                else find_texture s tag0 (i + 1) (S count)
            end).
    destruct (texture_at s i) as [t0 |]; [| discriminate].
    destruct (String.eqb (tag t0) tag0); [discriminate |].
    apply IH; [exact H | | exact Hne].
    replace (i + 1 + Z.of_nat count)%Z with (i + Z.of_nat (S count))%Z by lia.
    exact Hat.
Qed.

Lemma slot_of_found s tag0 j :
  (0 <= j)%Z -> slot_of s tag0 = Some j ->
  exists t, find_texture s tag0 0 (Z.to_nat (m_loadedTextures s)) = Some (Some (j, t)).
Proof.
  unfold slot_of. intros Hj H.
  destruct (find_texture s tag0 0 (Z.to_nat (m_loadedTextures s))) as [[[i t] |] |];
    try discriminate.
  - injection H as ->. eauto.
  - injection H as <-. lia.
Qed.

Lemma registered_keeps_slots s s' textureID tag0 :
  has_room s ->
  registered s s' textureID tag0 ->
  forall tag1,
    (forall j, (0 <= j)%Z -> slot_of s tag1 = Some j -> slot_of s' tag1 = Some j) /\
    (tag1 <> tag0 -> slot_of s' tag1 = slot_of s tag1).
Proof.
  intros Hroom (Hn & Hat & Hother & _) tag1.
  assert (Hext : forall count, (Z.of_nat count <= m_loadedTextures s)%Z ->
            find_texture s' tag1 0 count = find_texture s tag1 0 count).
  { intros count Hc. apply find_texture_ext. intros j Hj. apply Hother. lia. }
  assert (HS : Z.to_nat (m_loadedTextures s') = S (Z.to_nat (m_loadedTextures s))).
  { rewrite Hn. unfold has_room in Hroom. lia. }
  assert (Hfound : forall r,
            find_texture s tag1 0 (Z.to_nat (m_loadedTextures s)) = Some (Some r) ->
            find_texture s' tag1 0 (Z.to_nat (m_loadedTextures s')) = Some (Some r)).
  { intros r Hr. rewrite HS. apply find_texture_more. rewrite Hext; [exact Hr |].
    unfold has_room in Hroom. lia. }
  split.
  - intros j Hj Hs. destruct (slot_of_found s tag1 j Hj Hs) as (t & Hf).
    unfold slot_of. rewrite (Hfound _ Hf). reflexivity.
  - intros Hne. unfold slot_of at 2.
    pose proof (find_texture_spec s tag1 (Z.to_nat (m_loadedTextures s)) 0
                  (Z.le_refl 0)) as Hspec.
    destruct (find_texture s tag1 0 (Z.to_nat (m_loadedTextures s)))
      as [[[j t] |] |] eqn:Hf.
    + unfold slot_of. rewrite (Hfound _ eq_refl). reflexivity.
    + unfold slot_of. rewrite HS.
      rewrite (find_texture_miss s' tag1 (mkTexture textureID tag0)); [reflexivity | | |].
      * rewrite Hext; [exact Hf |]. unfold has_room in Hroom. lia.
      * replace (0 + Z.of_nat (Z.to_nat (m_loadedTextures s)))%Z
          with (m_loadedTextures s) by (unfold has_room in Hroom; lia).
        exact Hat.
      * simpl. congruence.
    + exfalso. apply Hspec. unfold has_room in Hroom. lia.
Qed.

Lemma CreateGLTexture_true_inv stbi_load_result gl_texture_name filename tag0 w w' cs :
  CreateGLTexture stbi_load_result gl_texture_name filename tag0 w = Some (true, w', cs) ->
  has_room (this w) /\
  registered (this w) (this w') (gl_texture_name (gl_generated w)) tag0.
Proof.
  intros Hrun.
  destruct (stbi_load_result filename) as [image |] eqn:Himg.
  - destruct (Z.eq_dec (colorChannels image) 3) as [E3 | N3];
      [| destruct (Z.eq_dec (colorChannels image) 4) as [E4 | N4]].
    1, 2:
      assert (Hc : colorChannels image = 3%Z \/ colorChannels image = 4%Z) by auto;
      destruct (Z_le_dec 0 (m_loadedTextures (this w))) as [H0 |];
      [ destruct (Z_lt_dec (m_loadedTextures (this w))
                    (Z.of_nat (List.length (m_textureIDs (this w))))) as [Hn |] |];
      [ destruct (CreateGLTexture_loaded stbi_load_result gl_texture_name
                    filename tag0 w image Himg Hc (conj H0 Hn))
          as (s' & cs' & Hrun' & Hreg & _);
        rewrite Hrun' in Hrun; injection Hrun as <- _;
        split; [exact (conj H0 Hn) | exact Hreg]
      | rewrite (CreateGLTexture_overflow stbi_load_result gl_texture_name
                   filename tag0 w image Himg Hc) in Hrun;
        [discriminate | unfold has_room; lia] .. ].
    destruct (CreateGLTexture_bad_channels stbi_load_result gl_texture_name
                filename tag0 w image Himg N3 N4) as (cs' & Hrun' & _).
    rewrite Hrun' in Hrun. discriminate.
  - rewrite (CreateGLTexture_undecodable stbi_load_result gl_texture_name
               filename tag0 w Himg) in Hrun.
    discriminate.
Qed.

(** X10.  Loading a texture never disturbs the lookups that worked before:
    after a successful [CreateGLTexture] every tag that was found is still
    found in the same slot, also the tag just used, so a tag loaded twice
    keeps resolving to its first texture; and every other tag resolves as
    before. *)
Theorem CreateGLTexture_keeps_lookups
  (stbi_load_result : string -> option stb_image) (gl_texture_name : nat -> GLuint)
  (filename tag0 : string) (w w' : World) (cs : list call) :
  CreateGLTexture stbi_load_result gl_texture_name filename tag0 w = Some (true, w', cs) ->
  forall tag1,
    (forall j, (0 <= j)%Z ->
               slot_of (this w) tag1 = Some j -> slot_of (this w') tag1 = Some j) /\
    (tag1 <> tag0 -> slot_of (this w') tag1 = slot_of (this w) tag1).
Proof.
  intros Hrun tag1.
  destruct (CreateGLTexture_true_inv _ _ _ _ _ _ _ Hrun) as (Hroom & Hreg).
  exact (registered_keeps_slots _ _ _ _ Hroom Hreg tag1).
Qed.

Lemma CreateGLTexture_keeps_lookups_witness :
  exists w' cs,
    CreateGLTexture rgb_images counting_names
      "../../Utilities/textures/breadcrust.jpg" "cone" loaded_world = Some (true, w', cs) /\
    slot_of (this w') "cone" = Some 1%Z /\
    slot_of (this w') "floor" = slot_of (this loaded_world) "floor".
Proof.
  destruct (CreateGLTexture_loaded rgb_images counting_names
              "../../Utilities/textures/breadcrust.jpg" "cone" loaded_world
              (mkImage 512 512 3) eq_refl (or_introl eq_refl))
    as (s' & cs & Hrun & _).
  { unfold has_room; simpl; lia. }
  eexists _, cs. split; [exact Hrun |].
  pose proof (CreateGLTexture_keeps_lookups _ _ _ _ _ _ _ Hrun) as H.
  split.
  - apply (proj1 (H "cone"%string) 1%Z); [lia | reflexivity].
  - apply (proj2 (H "floor"%string)). discriminate.
Defined.

Lemma units_from_In (ts : list TEXTURE_INFO) :
  forall i n t, nth_error ts n = Some t -> In ((i + Z.of_nat n)%Z, ID t) (units_from i ts).
Proof.
  induction ts as [| t0 ts IH]; intros i [| n] t H; simpl in H; try discriminate.
  - injection H as ->. left. f_equal. lia.
  - right. replace (i + Z.of_nat (S n))%Z with (i + 1 + Z.of_nat n)%Z by lia.
    apply IH. exact H.
Qed.

Lemma for_from_bindings s w (count : nat) :
  forall i, (0 <= i)%Z ->
    (i + Z.of_nat count <= Z.of_nat (List.length (m_textureIDs s)))%Z ->
    exists cs,
      for_from i count (fun i =>
        emit (glActiveTexture i) ;;
        match texture_at s i with
        | Some t => emit (glBindTexture (ID t))
        | None => undefined
        end) w = Some (tt, w, cs) /\
      forall active,
        bindings active cs =
        units_from i (firstn count (skipn (Z.to_nat i) (m_textureIDs s))).
Proof.
  induction count as [| count IH]; intros i Hi Hle.
  - exists []. split; reflexivity.
  - destruct (IH (i + 1)%Z) as (cs & E & Hb); [lia | lia |].
    cbn [for_from]. unfold texture_at at 1. destruct (Z.ltb_spec i 0); [lia |].
    destruct (nth_error (m_textureIDs s) (Z.to_nat i)) as [t |] eqn:En.
    + exists (([glActiveTexture i] ++ [glBindTexture (ID t)]) ++ cs). split.
      * eapply bind_Some; [| exact E].
        eapply bind_Some; reflexivity.
      * intros active. rewrite (skipn_nth_error _ _ _ En).
        cbn [firstn units_from app bindings]. rewrite Hb.
        replace (Z.to_nat (i + 1)) with (S (Z.to_nat i)) by lia. reflexivity.
    + apply nth_error_None in En. lia.
Qed.

(** X11.  [BindGLTextures] binds the loaded textures to consecutive
    texture units starting at unit 0, in table order, and changes nothing
    in the SceneManager: the texture in slot i ends up bound to unit i, the
    number [FindTextureSlot] hands to the sampler. *)
Theorem BindGLTextures_units (w : World) :
  (0 <= m_loadedTextures (this w)
     <= Z.of_nat (List.length (m_textureIDs (this w))))%Z ->
  exists cs,
    BindGLTextures w = Some (tt, w, cs) /\
    (forall active,
       bindings active cs =
       units_from 0 (firstn (Z.to_nat (m_loadedTextures (this w)))
                       (m_textureIDs (this w)))) /\
    (forall active i t,
       (0 <= i < m_loadedTextures (this w))%Z ->
       texture_at (this w) i = Some t ->
       In (i, ID t) (bindings active cs)).
Proof.
  intros H.
  destruct (for_from_bindings (this w) w (Z.to_nat (m_loadedTextures (this w))) 0)
    as (cs & E & Hb); [lia | lia |].
  exists cs. split; [| split].
  - unfold BindGLTextures, for_loop.
    change cs with ([] ++ cs). eapply bind_Some; [reflexivity | exact E].
  - intros active. rewrite Hb. reflexivity.
  - intros active i t Hi Hat. rewrite Hb. simpl skipn.
    replace i with (0 + Z.of_nat (Z.to_nat i))%Z at 1 by lia.
    apply units_from_In.
    unfold texture_at in Hat. destruct (Z.ltb_spec i 0); [lia |].
    rewrite nth_error_firstn.
    destruct (Nat.ltb_spec (Z.to_nat i) (Z.to_nat (m_loadedTextures (this w))));
      [exact Hat | lia].
Qed.

Lemma BindGLTextures_units_witness :
  exists cs,
    BindGLTextures loaded_world = Some (tt, loaded_world, cs) /\
    bindings 0 cs = [(0, 1); (1, 2); (2, 3)]%Z /\
    In (2, 3)%Z (bindings 0 cs).
Proof.
  destruct (BindGLTextures_units loaded_world) as (cs & H1 & H2 & H3).
  - simpl. lia.
  - exists cs. split; [exact H1 |]. split; [exact (H2 0%Z) |].
    apply (H3 0%Z 2%Z (mkTexture 3%Z "cone")); [simpl; lia | reflexivity].
Defined.

Lemma deleted_textures_map (ts : list TEXTURE_INFO) :
  deleted_textures (map (fun t => glDeleteTextures (ID t)) ts) = map ID ts.
Proof.
  induction ts as [| t ts IH]; simpl; [reflexivity |].
  unfold deleted_textures in *. simpl. rewrite IH. reflexivity.
Qed.

(** X12.  [DestroyGLTextures] deletes the OpenGL texture of every loaded
    slot, first to last, and sets the count to zero without touching the
    table; after it no tag is found any more and a second call deletes
    nothing. *)
Theorem DestroyGLTextures_deletes_all (w : World) :
  (0 <= m_loadedTextures (this w)
     <= Z.of_nat (List.length (m_textureIDs (this w))))%Z ->
  exists w1 cs,
    DestroyGLTextures w = Some (tt, w1, cs) /\
    deleted_textures cs =
      map ID (firstn (Z.to_nat (m_loadedTextures (this w))) (m_textureIDs (this w))) /\
    m_loadedTextures (this w1) = 0%Z /\
    m_textureIDs (this w1) = m_textureIDs (this w) /\
    (forall tag0, FindTextureSlot tag0 w1 = Some ((-1)%Z, w1, [])) /\
    DestroyGLTextures w1 = Some (tt, w1, []).
Proof.
  intros H. destruct (DestroyGLTextures_frees w H) as (w1 & Hrun & Hn & Hids).
  eexists w1, _. split; [exact Hrun |]. split; [apply deleted_textures_map |].
  split; [exact Hn |]. split; [exact Hids |]. split.
  - intros tag0. unfold FindTextureSlot. rewrite Hn. reflexivity.
  - destruct w1 as [[p1 p2 ids n mats] gen]. simpl in Hn. subst n. reflexivity.
Qed.

Lemma DestroyGLTextures_deletes_all_witness :
  exists w1 cs,
    DestroyGLTextures loaded_world = Some (tt, w1, cs) /\
    deleted_textures cs = [1; 2; 3]%Z /\ m_loadedTextures (this w1) = 0%Z /\
    FindTextureSlot "cone" w1 = Some ((-1)%Z, w1, []).
Proof.
  destruct (DestroyGLTextures_deletes_all loaded_world)
    as (w1 & cs & H1 & H2 & H3 & _ & H5 & _).
  - simpl. lia.
  - exists w1, cs. split; [exact H1 |]. split; [exact H2 |].
    split; [exact H3 | exact (H5 "cone"%string)].
Defined.

(** X13.  [CreateGLTexture] does not check the capacity of the texture
    table: with a decodable image of three or four channels and no free
    slot, it writes past the end of [m_textureIDs]. *)
Theorem CreateGLTexture_no_capacity_check
  (stbi_load_result : string -> option stb_image) (gl_texture_name : nat -> GLuint)
  (filename tag0 : string) (w : World) (image : stb_image) :
  stbi_load_result filename = Some image ->
  colorChannels image = 3%Z \/ colorChannels image = 4%Z ->
  (Z.of_nat (List.length (m_textureIDs (this w))) <= m_loadedTextures (this w))%Z ->
  CreateGLTexture stbi_load_result gl_texture_name filename tag0 w = None.
Proof.
  intros Himg Hc Hfull.
  apply (CreateGLTexture_overflow _ _ _ _ _ image Himg Hc).
  unfold has_room. lia.
Qed.

Lemma CreateGLTexture_no_capacity_check_witness :
  CreateGLTexture rgb_images counting_names
    "../../Utilities/textures/brick.jpg" "floor" full_world = None.
Proof.
  apply (CreateGLTexture_no_capacity_check rgb_images counting_names _ _ full_world
           (mkImage 512 512 3) eq_refl (or_introl eq_refl)).
  simpl. lia.
Defined.

(** ** Materials and textures of a draw *)

(** X14.  [SetShaderMaterial] sends the five uniforms of the first
    material whose tag matches.  With no such material, in particular with
    no material defined at all, it does nothing.  Unlike the other setters
    it does not test the shader manager pointer: a matching material with a
    null shader manager dereferences the null pointer. *)
Theorem SetShaderMaterial_first_match (materialTag : string) (w : World) :
  let found := first_material materialTag (m_objectMaterials (this w)) in
  (found = None -> SetShaderMaterial materialTag w = Some (tt, w, [])) /\
  (forall material,
     found = Some material ->
     material_tag material = materialTag /\
     (m_pShaderManager (this w) = allocated ->
      SetShaderMaterial materialTag w = Some (tt, w, material_calls material)) /\
     (m_pShaderManager (this w) = NULL ->
      SetShaderMaterial materialTag w = None)).
Proof.
  intros found. unfold found, first_material.
  destruct w as [[p1 p2 ids n mats] gen]. cbv beta iota delta [this m_objectMaterials m_pShaderManager].
  split.
  - intros Hnone. unfold SetShaderMaterial, FindMaterial, bind, get_this, ret.
    cbv beta iota delta [this m_objectMaterials m_pShaderManager]. destruct mats as [| m0 ms]; [reflexivity |].
    rewrite Hnone. reflexivity.
  - intros material Hsome. split; [| split].
    + apply find_some in Hsome. destruct Hsome as [_ Heq].
      apply String.eqb_eq. exact Heq.
    + intros ->. unfold SetShaderMaterial, FindMaterial, bind, get_this, ret.
      cbv beta iota delta [this m_objectMaterials m_pShaderManager].
      destruct mats as [| m0 ms]; [discriminate |].
      rewrite Hsome. reflexivity.
    + intros ->. unfold SetShaderMaterial, FindMaterial, bind, get_this, ret.
      cbv beta iota delta [this m_objectMaterials m_pShaderManager].
      destruct mats as [| m0 ms]; [discriminate |].
      rewrite Hsome. reflexivity.
Qed.

Lemma SetShaderMaterial_first_match_witness :
  SetShaderMaterial "gold" headless_world = None /\
  SetShaderMaterial "glass" headless_world = Some (tt, headless_world, []).
Proof.
  destruct (SetShaderMaterial_first_match "gold" headless_world) as (_ & Hgold).
  destruct (Hgold goldMaterial eq_refl) as (_ & _ & Hnull).
  destruct (SetShaderMaterial_first_match "glass" headless_world) as (Hnone & _).
  split; [apply Hnull; reflexivity | apply Hnone; reflexivity].
Defined.

Lemma slot_of_unknown s tag0 :
  (m_loadedTextures s <= Z.of_nat (List.length (m_textureIDs s)))%Z ->
  (forall j t, (0 <= j < m_loadedTextures s)%Z ->
               texture_at s j = Some t -> tag t <> tag0) ->
  slot_of s tag0 = Some (-1)%Z.
Proof.
  intros Hle Hno. unfold slot_of.
  pose proof (find_texture_spec s tag0 (Z.to_nat (m_loadedTextures s)) 0
                (Z.le_refl 0)) as H.
  destruct (find_texture s tag0 0 (Z.to_nat (m_loadedTextures s))) as [[[j t] |] |].
  - destruct H as (Hj & Hat & Htag & _); [lia |].
    exfalso. apply (Hno j t); [lia | exact Hat | exact Htag].
  - reflexivity.
  - exfalso. apply H. lia.
Qed.

(** X15.  [SetShaderTexture] with a tag no loaded texture carries, for
    instance the tag of an image that failed to load, still switches
    texturing on and hands the shader the sampler slot -1. *)
Theorem SetShaderTexture_unknown_tag (textureTag : string) (w : World) :
  m_pShaderManager (this w) = allocated ->
  (m_loadedTextures (this w) <= Z.of_nat (List.length (m_textureIDs (this w))))%Z ->
  (forall j t, (0 <= j < m_loadedTextures (this w))%Z ->
               texture_at (this w) j = Some t -> tag t <> textureTag) ->
  SetShaderTexture textureTag w =
  Some (tt, w, [setIntValue "bUseTexture" 1; setSampler2DValue "objectTexture" (-1)]).
Proof.
  intros Hs Hle Hno.
  rewrite (SetShaderTexture_run textureTag w (-1)%Z (slot_of_unknown _ _ Hle Hno)), Hs.
  reflexivity.
Qed.

Lemma SetShaderTexture_unknown_tag_witness :
  SetShaderTexture "floor" fresh_world =
  Some (tt, fresh_world,
        [setIntValue "bUseTexture" 1; setSampler2DValue "objectTexture" (-1)]).
Proof.
  apply (SetShaderTexture_unknown_tag "floor" fresh_world eq_refl).
  - simpl. lia.
  - simpl. intros j t Hj. lia.
Defined.

(** X16.  [RenderScene] never sends a material or a flat colour: none of
    its calls is a vec3, float or vec4 uniform, so the materials
    [PrepareScene] defines reach the shader in no frame. *)
Theorem RenderScene_sends_no_material (w : World) :
  match RenderScene w with
  | Some (_, _, cs) => collect material_or_colour cs = []
  | None => True
  end.
Proof.
  assert (H : emits material_or_colour RenderScene []).
  { unfold RenderScene, SetTransformations, SetShaderTexture, SetTextureUVScale, draw.
    cbv zeta. emits_with ltac:(idtac; fail). }
  destruct (RenderScene w) as [[[u w'] cs] |] eqn:E; [| exact I].
  exact (H _ _ _ _ E).
Qed.

(** ** Preparing the scene *)

Lemma runs_push_back_prepared k n mats material :
  runs (prepared k n mats) (push_back material)
    (fun _ w => prepared k n (mats ++ [material]) w).
Proof.
  intros [[p1 p2 ids n0 mats0] gen] (Hroom & Hn & Hm). simpl in Hn, Hm. subst.
  eexists _, _, _. split; [reflexivity |].
  split; [exact Hroom | split; reflexivity].
Qed.

Lemma runs_BindGLTextures_keep (P : World -> Prop) :
  (forall w, P w -> room 0 w) -> runs P BindGLTextures (fun _ w => P w).
Proof.
  intros HP w H. pose proof (HP w H) as (_ & _ & H0 & Hn).
  destruct (for_from_bind_textures (this w) w
              (Z.to_nat (m_loadedTextures (this w))) 0) as (cs & E); [lia | lia |].
  exists tt, w, ([] ++ cs). split; [| exact H].
  unfold BindGLTextures. eapply bind_Some; [reflexivity | exact E].
Qed.

Section PrepareCounts.

Variable stbi_load_result : string -> option stb_image.
Variable gl_texture_name : nat -> GLuint.

Lemma runs_CreateGLTexture_prepared k n mats filename tag0 :
  (0 <= k)%Z ->
  runs (prepared (k + 1) n mats)
    (CreateGLTexture stbi_load_result gl_texture_name filename tag0)
    (fun _ w => prepared k (n + b2z (usable stbi_load_result filename)) mats w).
Proof.
  intros Hk w ((Hs & Hm & H0 & Hn) & Hcount & Hmats).
  unfold usable. destruct (stbi_load_result filename) as [image |] eqn:E.
  - destruct (Z.eqb_spec (colorChannels image) 3) as [E3 | N3];
      [| destruct (Z.eqb_spec (colorChannels image) 4) as [E4 | N4]].
    1, 2:
      destruct (CreateGLTexture_loaded stbi_load_result gl_texture_name
                  filename tag0 w image E) as (s' & cs & Hrun & Hreg & _);
      [ auto | unfold has_room; lia
      | destruct Hreg as (R1 & _ & _ & R4 & R5 & R6 & R7);
        exists true, (mkWorld s' (S (gl_generated w))), cs;
        split; [exact Hrun |]; unfold prepared, room; simpl;
        rewrite R1, R4, R5, R6, R7; repeat split; auto; lia ].
    destruct (CreateGLTexture_bad_channels stbi_load_result gl_texture_name
                filename tag0 w image E N3 N4) as (cs & Hrun & _).
    exists false, (mkWorld (this w) (S (gl_generated w))), cs.
    split; [exact Hrun |]. unfold prepared, room; simpl. repeat split; auto; lia.
  - exists false, w, [stbi_set_flip_vertically_on_load true; stbi_load filename].
    split; [apply CreateGLTexture_undecodable; exact E |].
    unfold prepared, room; simpl. repeat split; auto; lia.
Qed.

Ltac prepared_emits :=
  repeat (eapply runs_bind; [apply runs_emit | intros ?; cbv beta]).

Lemma PrepareScene_prepared n mats :
  runs (prepared 3 n mats) (PrepareScene stbi_load_result gl_texture_name)
    (fun _ w =>
       prepared 0
         (n + b2z (usable stbi_load_result "../../Utilities/textures/brick.jpg")
            + b2z (usable stbi_load_result "../../Utilities/textures/breadcrust.jpg")
            + b2z (usable stbi_load_result
                     "../../Utilities/textures/gold-seamless-texture.jpg"))
         (mats ++ scene_materials) w).
Proof.
  unfold PrepareScene.
  do 6 (eapply runs_bind; [apply runs_push_back_prepared | intros ?; cbv beta]).
  eapply runs_bind; [apply runs_get_this | intros s; cbv beta].
  eapply runs_bind;
    [ apply runs_deref; intros w [((H & _) & _) E]; rewrite E; exact H
    | intros ?; cbv beta ].
  prepared_emits.
  eapply runs_bind;
    [ apply runs_deref; intros w [((_ & H & _) & _) E]; rewrite E; exact H
    | intros ?; cbv beta ].
  prepared_emits.
  eapply runs_bind;
    [ eapply runs_weaken;
      [ apply (runs_CreateGLTexture_prepared 2); lia
      | intros w [H _]; exact H
      | intros r w H; exact H ]
    | intros ?; cbv beta ].
  eapply runs_bind;
    [apply (runs_CreateGLTexture_prepared 1); lia | intros ?; cbv beta].
  eapply runs_bind;
    [apply (runs_CreateGLTexture_prepared 0); lia | intros ?; cbv beta].
  eapply runs_weaken; [| intros w H; exact H |].
  - apply runs_BindGLTextures_keep. intros w H. cbv beta in H.
    destruct H as (H & _). exact H.
  - intros r w H. cbv beta in H. unfold scene_materials.
    replace (mats ++ [goldMaterial; cementMaterial; woodMaterial; tileMaterial;
                      glassMaterial; clayMaterial])
      with ((((((mats ++ [goldMaterial]) ++ [cementMaterial]) ++ [woodMaterial])
               ++ [tileMaterial]) ++ [glassMaterial]) ++ [clayMaterial])
      by (rewrite <- !app_assoc; reflexivity).
    exact H.
Qed.

End PrepareCounts.

(** X17.  [PrepareScene] ignores the results of its three
    [CreateGLTexture] calls and carries on after a failure: from a
    SceneManager with both pointers set and three free texture slots it
    returns, the texture count has grown by the number of the three images
    that decode with three or four channels, and the six materials are
    appended to the materials already defined. *)
Theorem PrepareScene_counts
  (stbi_load_result : string -> option stb_image) (gl_texture_name : nat -> GLuint)
  (w : World) :
  room 3 w ->
  exists w1 cs,
    PrepareScene stbi_load_result gl_texture_name w = Some (tt, w1, cs) /\
    m_loadedTextures (this w1) =
      (m_loadedTextures (this w)
       + b2z (usable stbi_load_result "../../Utilities/textures/brick.jpg")
       + b2z (usable stbi_load_result "../../Utilities/textures/breadcrust.jpg")
       + b2z (usable stbi_load_result
                "../../Utilities/textures/gold-seamless-texture.jpg"))%Z /\
    m_objectMaterials (this w1) = m_objectMaterials (this w) ++ scene_materials.
Proof.
  intros Hroom.
  destruct (PrepareScene_prepared stbi_load_result gl_texture_name
              (m_loadedTextures (this w)) (m_objectMaterials (this w)) w)
    as ([] & w1 & cs & Hrun & Hpost).
  { split; [exact Hroom | split; reflexivity]. }
  cbv beta in Hpost. destruct Hpost as (_ & Hn & Hm).
  exists w1, cs. repeat split; assumption.
Qed.

Lemma PrepareScene_counts_witness :
  exists w1 cs,
    PrepareScene rgb_images counting_names fresh_world = Some (tt, w1, cs) /\
    m_loadedTextures (this w1) = 3%Z /\
    m_objectMaterials (this w1) = scene_materials.
Proof.
  destruct (PrepareScene_counts rgb_images counting_names fresh_world room_fresh)
    as (w1 & cs & H1 & H2 & H3).
  exists w1, cs. repeat split; assumption.
Defined.

(** ** The main loop and the exit paths *)

Lemma loop_body_draws (f : frame_input) (g : Globals) (w : World) :
  scene_ok (this w) ->
  exists g' cs,
    loop_body f g w = Some (g', w, cs) /\
    drawn cs = scene_meshes /\
    windowShouldClose g' =
      close_requested f
      || (is_press (keys f GLFW_KEY_ESCAPE) || windowShouldClose g).
Proof.
  intros Hok. pose proof Hok as [Hm _].
  destruct (slot_of_total (this w) "floor" Hok) as [fl Hfl].
  destruct (slot_of_total (this w) "cone" Hok) as [co Hco].
  destruct (slot_of_total (this w) "box" Hok) as [bx Hbx].
  destruct (RenderScene_run w fl co bx Hm Hfl Hco Hbx) as (csr & Hrun & Hd & _).
  set (g1 := begin_frame (glfwGetTime f) (keys f) g).
  set (g2 := fold_left deliver (polled f) g1).
  set (g3 := if close_requested f then set_windowShouldClose true g2 else g2).
  exists g3,
    ([glEnable_GL_DEPTH_TEST] ++ [glClearColor 0 0 0 1] ++ [glClear] ++
     [PrepareSceneView] ++
     [setMat4Value "view"
        (lookAt (cameraPos g1) (cameraPos g1 +v cameraFront g1) (cameraUp g1))] ++
     [setMat4Value "projection" (projection_of g1)] ++
     csr ++ [glfwSwapBuffers] ++ [glfwPollEvents] ++ []).
  split; [| split].
  - unfold loop_body. cbv zeta. fold g1. fold g2. fold g3.
    do 6 (eapply bind_Some; [reflexivity | cbv beta]).
    eapply bind_Some; [exact Hrun | cbv beta].
    do 2 (eapply bind_Some; [reflexivity | cbv beta]).
    reflexivity.
  - unfold drawn in *. simpl. rewrite collect_app, Hd. reflexivity.
  - unfold g3. destruct (close_requested f); [reflexivity |].
    unfold g2. rewrite polled_close. unfold g1. rewrite begin_frame_close.
    reflexivity.
Qed.

(** The loop returns on every list of frames, and has been left exactly
    when a frame asked the window to close. *)
Lemma main_loop_closes (fs : list frame_input) :
  forall g w,
    scene_ok (this w) ->
    exists g' cs,
      main_loop fs g w = Some (g', w, cs) /\
      windowShouldClose g' = windowShouldClose g || existsb closes fs.
Proof.
  induction fs as [| f fs IH]; intros g w Hok; cbn [main_loop existsb].
  - exists g, []. rewrite orb_false_r.
    destruct (windowShouldClose g); split; reflexivity.
  - destruct (windowShouldClose g) eqn:Eg; [exists g, []; split; [reflexivity | exact Eg] |].
    destruct (loop_body_draws f g w Hok) as (g1 & cs1 & H1 & _ & Hc1).
    destruct (IH g1 w Hok) as (g2 & cs2 & H2 & Hc2).
    exists g2, (cs1 ++ cs2). split; [eapply bind_Some; [exact H1 | exact H2] |].
    rewrite Hc2, Hc1, Eg. unfold closes.
    destruct (close_requested f), (is_press (keys f GLFW_KEY_ESCAPE)); reflexivity.
Qed.

(** X18.  As long as nothing asks the window to close, every loop
    iteration renders the whole scene once: over frames in which Escape is
    up and no close request arrives, the loop draws the ten meshes of the
    scene once per frame, in order, leaves the SceneManager as it is and
    keeps the window open. *)
Theorem one_scene_per_frame (fs : list frame_input) :
  forall g w,
    scene_ok (this w) ->
    windowShouldClose g = false ->
    Forall stays_open fs ->
    exists g' cs,
      main_loop fs g w = Some (g', w, cs) /\
      drawn cs = List.concat (repeat scene_meshes (List.length fs)) /\
      windowShouldClose g' = false.
Proof.
  induction fs as [| f fs IH]; intros g w Hok Hopen Hall; cbn [main_loop].
  - rewrite Hopen. exists g, []. repeat split. exact Hopen.
  - rewrite Hopen. inversion Hall as [| f0 fs0 [Hesc Hreq] Hrest]; subst.
    destruct (loop_body_draws f g w Hok) as (g1 & cs1 & H1 & Hd1 & Hc1).
    rewrite Hesc, Hreq, Hopen in Hc1. simpl in Hc1.
    destruct (IH g1 w Hok Hc1 Hrest) as (g2 & cs2 & H2 & Hd2 & Hc2).
    exists g2, (cs1 ++ cs2). split; [| split].
    + eapply bind_Some; [exact H1 | exact H2].
    + unfold drawn in *. rewrite collect_app, Hd1, Hd2. reflexivity.
    + exact Hc2.
Qed.

Lemma one_scene_per_frame_witness :
  exists g' cs,
    main_loop [P_frame; P_frame] initial_globals fresh_world =
      Some (g', fresh_world, cs) /\
    drawn cs = scene_meshes ++ scene_meshes ++ [].
Proof.
  destruct (one_scene_per_frame [P_frame; P_frame] initial_globals fresh_world
              scene_ok_fresh eq_refl) as (g' & cs & H1 & H2 & _).
  - repeat constructor.
  - exists g', cs. split; [exact H1 | exact H2].
Defined.

Lemma loaded_mesh_only c :
  loaded_mesh c <> None ->
  (exists t, c = glDeleteTextures t) \/
  c = LoadPlaneMesh \/ c = LoadConeMesh \/ c = LoadTorusMesh \/ c = LoadBoxMesh.
Proof. destruct c; simpl; intros H; try congruence; auto. Qed.

(** X19.  [main] exits with EXIT_FAILURE, before any scene object exists,
    when GLFW does not initialise, and also when GLEW does not, in which
    case the ShaderManager and ViewManager created by then are not deleted.
    When both initialise and the texture table has at least three slots,
    none in use, the run is well defined for every sequence of frames and
    loads each mesh once; the program stays in its loop as long as no frame
    asks the window to close, and once one does it deletes the mesh
    object, the ViewManager and the ShaderManager, in that order, and exits
    with EXIT_SUCCESS. *)
Theorem main_exit_paths
  (stbi_load_result : string -> option stb_image) (gl_texture_name : nat -> GLuint)
  (textureIDs : list TEXTURE_INFO) (fs : list frame_input) :
  (3 <= List.length textureIDs)%nat ->
  (forall glewInit_ok,
     main stbi_load_result gl_texture_name false glewInit_ok textureIDs 0 fs =
     Some (exited EXIT_FAILURE, [glfwInit])) /\
  (exists cs,
     main stbi_load_result gl_texture_name true false textureIDs 0 fs =
       Some (exited EXIT_FAILURE, cs) /\
     In new_ShaderManager cs /\ In new_ViewManager cs /\
     ~ In delete_ShaderManager cs /\ ~ In delete_ViewManager cs /\
     ~ In new_ShapeMeshes cs /\ loads cs = [] /\ drawn cs = []) /\
  (exists cs,
     main stbi_load_result gl_texture_name true true textureIDs 0 fs =
       Some (if existsb closes fs
             then (exited EXIT_SUCCESS,
                   cs ++ [delete_ShapeMeshes; delete_ViewManager; delete_ShaderManager])
             else (running, cs)) /\
     loads cs = [Plane; Cone; Torus; Box]).
Proof.
  intros Hcap. split; [reflexivity |]. split.
  - eexists. split; [reflexivity |]. simpl.
    repeat split; try tauto; intuition discriminate.
  - set (w0 := mkWorld (mkScene allocated allocated textureIDs 0 []) 0).
    assert (Hroom : room 3 w0) by (unfold room, w0; simpl; repeat split; lia).
    destruct (PrepareScene_runs stbi_load_result gl_texture_name w0 Hroom)
      as ([] & w1 & cs1 & Hrun1 & Hroom1).
    pose proof (room_scene_ok w1 Hroom1) as Hok.
    destruct (main_loop_closes fs initial_globals w1 Hok) as (g2 & cs2 & Hrun2 & Hc2).
    cbn [windowShouldClose initial_globals orb] in Hc2.
    assert (Hrun3 : exists w3, shutdown w1 =
              Some (tt, w3, [delete_ShapeMeshes; delete_ViewManager;
                             delete_ShaderManager])).
    { destruct w1 as [[p1 p2 ids n mats] gen]. eexists. reflexivity. }
    destruct Hrun3 as (w3 & Hrun3).
    exists ([glfwInit;
             glfwWindowHint GLFW_CONTEXT_VERSION_MAJOR (hint_int 4);
             glfwWindowHint GLFW_CONTEXT_VERSION_MINOR (hint_int 6);
             glfwWindowHint GLFW_OPENGL_PROFILE GLFW_OPENGL_CORE_PROFILE;
             new_ShaderManager; new_ViewManager; CreateDisplayWindow WINDOW_TITLE;
             glfwSetInputMode_cursor_normal; glfwSetCursorPosCallback;
             glfwSetScrollCallback; glewInit] ++
            [glGetString_GL_VERSION;
             LoadShaders "../../Utilities/shaders/vertexShader.glsl"
                         "../../Utilities/shaders/fragmentShader.glsl"; use] ++
            [new_ShapeMeshes] ++ cs1 ++ cs2).
    split.
    + unfold main. cbn [negb SceneManager_new]. fold w0.
      destruct (existsb closes fs);
        match goal with
        | |- match ?m with Some _ => _ | None => _ end = _ =>
            eassert (Hall : m = Some (_, _, cs1 ++ cs2 ++ _))
        end.
      * eapply bind_Some; [exact Hrun1 |].
        eapply bind_Some; [exact Hrun2 |]. cbv beta. rewrite Hc2.
        eapply bind_Some; [exact Hrun3 | reflexivity].
      * rewrite Hall, app_nil_r, <- !app_assoc. reflexivity.
      * eapply bind_Some; [exact Hrun1 |].
        eapply bind_Some; [exact Hrun2 |]. cbv beta. rewrite Hc2. reflexivity.
      * rewrite Hall, app_nil_r. reflexivity.
    + apply (emits_PrepareScene _ _ _ loaded_mesh loaded_mesh_only) in Hrun1.
      apply (emits_main_loop _ loaded_mesh loaded_mesh_only) in Hrun2.
      unfold loads. rewrite !collect_app, Hrun1, Hrun2. reflexivity.
Qed.

Lemma main_exit_paths_witness :
  exists cs,
    main rgb_images counting_names true true sixteen_slots 0 [P_frame; Escape_frame] =
      Some (exited EXIT_SUCCESS,
            cs ++ [delete_ShapeMeshes; delete_ViewManager; delete_ShaderManager]) /\
    loads cs = [Plane; Cone; Torus; Box].
Proof.
  destruct (main_exit_paths rgb_images counting_names sixteen_slots
              [P_frame; Escape_frame]) as (_ & _ & H).
  - simpl. lia.
  - exact H.
Defined.

(** X20.  Without a shader manager the guarded setters do nothing, so
    [RenderScene] still issues its ten draw calls, and nothing else,
    whatever the texture table holds; [PrepareScene], which sets the light
    uniforms without testing the pointer, dereferences the null pointer. *)
Theorem null_shader_manager
  (stbi_load_result : string -> option stb_image) (gl_texture_name : nat -> GLuint)
  (w : World) :
  m_pShaderManager (this w) = NULL ->
  m_basicMeshes (this w) = allocated ->
  RenderScene w =
    Some (tt, w,
          [DrawPlaneMesh; DrawConeMesh; DrawTorusMesh; DrawConeMesh; DrawConeMesh;
           DrawConeMesh; DrawConeMesh; DrawConeMesh; DrawConeMesh; DrawBoxMesh]) /\
  (forall r g b a, SetShaderColor r g b a w = Some (tt, w, [])) /\
  (forall tag0, SetShaderTexture tag0 w = Some (tt, w, [])) /\
  PrepareScene stbi_load_result gl_texture_name w = None.
Proof.
  destruct w as [[p1 p2 ids n mats] gen]. simpl. intros -> ->.
  repeat split; reflexivity.
Qed.

Lemma null_shader_manager_witness :
  PrepareScene rgb_images counting_names headless_world = None /\
  SetShaderTexture "floor" headless_world = Some (tt, headless_world, []).
Proof.
  destruct (null_shader_manager rgb_images counting_names headless_world
              eq_refl eq_refl) as (_ & _ & H3 & H4).
  split; [exact H4 | exact (H3 "floor"%string)].
Defined.
